(** * Google-reviews scraper: extraction core

    A shallow embedding of [modules/utils.py] and [modules/scraper.py]
    and the properties of the extraction pipeline: locator helpers, text
    normalisation, the scroll/extract loop and the retry supervisor.

    Conventions.
    - A Python [str] is a list of Unicode code points ([pystr]).
    - A call into Selenium returns a [result]: a value or a raised
      exception; a [WebElement] is a snapshot of what each of its calls
      answers.
    - Effects that an outside observer can see (progress writes, sleeps,
      driver start and quit, scrolls) are recorded, in order, in a trace of
      [event]s.
    - [datetime] values are microseconds since 0001-01-01T00:00:00 UTC. *)

From Stdlib Require Import ZArith NArith List String Ascii Bool Lia.
From Stdlib Require Import QArith Qround Qminmax Sorted.
From Stdlib Require Import Floats.SpecFloat.
From stdpp Require Import base list gmap.
Import ListNotations.

Local Open Scope Z_scope.

(** ** Python values *)

Module Py.

(** A Python string: its code points. *)
Definition pystr := list N.

(** The code points of an ASCII literal. *)
Definition py (s : string) : pystr :=
  List.map N_of_ascii (list_ascii_of_string s).
Arguments py s%_string.

(** Exception classes that the code names or that the calls it makes can
    raise.  Every one derives from [Exception]; the Selenium ones all
    derive from [WebDriverException]. *)
Inductive exn :=
| NoSuchElementException
| StaleElementReferenceException
| TimeoutException
| NoSuchWindowException
| InvalidSelectorException
| WebDriverException
| ValueError
| OverflowError.

Inductive result (A : Type) :=
| Ok (a : A)
| Raise (e : exn).
Arguments Ok {A} a.
Arguments Raise {A} e.

(** [str.lower()].  ASCII capitals, and the two code points outside
    ASCII whose lower-case form contains an ASCII letter (U+0130 and the
    Kelvin sign U+212A), are mapped as CPython maps them.  Every other
    code point is kept: its lower-case form holds no ASCII letter and no
    decimal digit, so the tests for ASCII words and for digits that the
    code makes on a lowered string cannot tell the difference. *)
Definition lower_char (c : N) : pystr :=
  if ((65 <=? c) && (c <=? 90))%N then [(c + 32)%N]
  else if (c =? 304)%N then [105%N; 775%N]
  else if (c =? 8490)%N then [107%N]
  else [c].

Definition lower (s : pystr) : pystr := flat_map lower_char s.

(** [str.startswith] and the substring test [needle in s]. *)
Fixpoint startswith (p s : pystr) : bool :=
  match p, s with
  | [], _ => true
  | _ :: _, [] => false
  | a :: p', b :: s' => (a =? b)%N && startswith p' s'
  end.

Fixpoint contains (needle s : pystr) : bool :=
  startswith needle s ||
  match s with
  | [] => false
  | _ :: s' => contains needle s'
  end.

(** Code points for which [str.isspace()] holds; [str.strip()] removes
    them from both ends. *)
Definition isspace (c : N) : bool :=
  (((9 <=? c) && (c <=? 13)) || ((28 <=? c) && (c <=? 32)) ||
   (c =? 133) || (c =? 160) || (c =? 5760) ||
   ((8192 <=? c) && (c <=? 8202)) || (c =? 8232) || (c =? 8233) ||
   (c =? 8239) || (c =? 8287) || (c =? 12288))%N.

Fixpoint lstrip (s : pystr) : pystr :=
  match s with
  | c :: s' => if isspace c then lstrip s' else s
  | [] => []
  end.

Definition strip (s : pystr) : pystr := rev (lstrip (rev (lstrip s))).

(** Truthiness of a string. *)
Definition truthy (s : pystr) : bool :=
  match s with [] => false | _ => true end.

(** The code points of the digit zero of every decimal-digit block
    (Unicode 14, general category Nd); the nine code points after each
    are the digits one to nine.  The regular expression [\d] and [int()]
    both accept exactly these. *)
Definition decimal_zeros : list N :=
  [48; 1632; 1776; 1984; 2406; 2534; 2662; 2790; 2918; 3046; 3174; 3302;
   3430; 3558; 3664; 3792; 3872; 4160; 4240; 6112; 6160; 6470; 6608; 6784;
   6800; 6992; 7088; 7232; 7248; 42528; 43216; 43264; 43472; 43504; 43600;
   44016; 65296; 66720; 68912; 69734; 69872; 69942; 70096; 70384; 70736;
   70864; 71248; 71360; 71472; 71904; 72016; 72784; 73040; 73120; 92768;
   92864; 93008; 120782; 120792; 120802; 120812; 120822; 123200; 123632;
   125264; 130032]%N.

Definition in_block (c z : N) : bool := ((z <=? c) && (c <? z + 10))%N.

Definition is_decimal (c : N) : bool := existsb (in_block c) decimal_zeros.

Definition decimal_value (c : N) : Z :=
  match List.find (in_block c) decimal_zeros with
  | Some z => Z.of_N (c - z)
  | None => 0
  end.

(** [re.search(r'\d+', s)]: the leftmost, longest run of digits. *)
Fixpoint take_digits (s : pystr) : pystr :=
  match s with
  | c :: s' => if is_decimal c then c :: take_digits s' else []
  | [] => []
  end.

Fixpoint search_digits (s : pystr) : option pystr :=
  match s with
  | [] => None
  | c :: s' => if is_decimal c then Some (take_digits s) else search_digits s'
  end.

(** [int(ds)] on a run of digits.  CPython refuses a string of more than
    [int_max_str_digits] digits with [ValueError]. *)
Definition int_max_str_digits : nat := 4300.

Definition digits_value (ds : pystr) : Z :=
  fold_left (fun acc c => 10 * acc + decimal_value c) ds 0.

Definition int_of_digits (ds : pystr) : result Z :=
  if (int_max_str_digits <? length ds)%nat then Raise ValueError
  else Ok (digits_value ds).

End Py.
Export Py.

(** ** The [datetime] module *)

Module Datetime.

Definition US_PER_SECOND : Z := 1000000.
Definition US_PER_MINUTE : Z := 60 * US_PER_SECOND.
Definition US_PER_HOUR : Z := 60 * US_PER_MINUTE.
Definition US_PER_DAY : Z := 24 * US_PER_HOUR.
Definition US_PER_WEEK : Z := 7 * US_PER_DAY.

(** [date.max.toordinal()]: the day number of 9999-12-31. *)
Definition MAXORDINAL : Z := 3652059.

(** A [datetime] in UTC, as microseconds since 0001-01-01T00:00:00. *)
Definition datetime := Z.

Definition in_range (dt : datetime) : bool :=
  (0 <=? dt) && (dt <? MAXORDINAL * US_PER_DAY).

(** 1970-01-01T00:00:00+00:00. *)
Definition unix_epoch : datetime := 62135596800000000.

(** What [datetime.now(timezone.utc)] can answer: a representable
    instant that is not before the epoch of the system clock. *)
Definition valid_now (now : datetime) : Prop :=
  unix_epoch <= now < MAXORDINAL * US_PER_DAY.

(** [timedelta(...)] from a total number of microseconds: the number of
    whole days must not exceed 999999999 in magnitude. *)
Definition timedelta (us : Z) : result Z :=
  if 999999999 <? Z.abs (us / US_PER_DAY) then Raise OverflowError
  else Ok us.

(** [dt - td]: the difference must be a representable date. *)
Definition sub (dt : datetime) (td : Z) : result datetime :=
  if in_range (dt - td) then Ok (dt - td) else Raise OverflowError.

(** [dt.replace(microsecond=0)]. *)
Definition replace_microsecond_0 (dt : datetime) : datetime :=
  dt - dt mod US_PER_SECOND.

(** Days in 400, 100 and 4 years. *)
Definition DI400Y : Z := 146097.
Definition DI100Y : Z := 36524.
Definition DI4Y : Z := 1461.

Definition DAYS_IN_MONTH : list Z :=
  [0; 31; 28; 31; 30; 31; 30; 31; 31; 30; 31; 30; 31].
Definition DAYS_BEFORE_MONTH : list Z :=
  [0; 0; 31; 59; 90; 120; 151; 181; 212; 243; 273; 304; 334].

Definition b2z (b : bool) : Z := if b then 1 else 0.

(** [_ord2ymd]: year, month and day of a day number (1 is 0001-01-01). *)
Definition ord2ymd (ordinal : Z) : Z * Z * Z :=
  let n := ordinal - 1 in
  let n400 := n / DI400Y in
  let n := n mod DI400Y in
  let year := n400 * 400 + 1 in
  let n100 := n / DI100Y in
  let n := n mod DI100Y in
  let n4 := n / DI4Y in
  let n := n mod DI4Y in
  let n1 := n / 365 in
  let n := n mod 365 in
  let year := year + n100 * 100 + n4 * 4 + n1 in
  if (n1 =? 4) || (n100 =? 4) then (year - 1, 12, 31)
  else
    let leapyear := (n1 =? 3) && (negb (n4 =? 24) || (n100 =? 3)) in
    let month := Z.shiftr (n + 50) 5 in
    let preceding :=
      nth (Z.to_nat month) DAYS_BEFORE_MONTH 0
      + b2z ((2 <? month) && leapyear) in
    if n <? preceding then
      let month := month - 1 in
      let preceding :=
        preceding
        - (nth (Z.to_nat month) DAYS_IN_MONTH 0
           + b2z ((month =? 2) && leapyear)) in
      (year, month, n - preceding + 1)
    else (year, month, n - preceding + 1).

(** ["%0*d"]: [n] in decimal on [width] digits. *)
Fixpoint zero_pad (width : nat) (n : Z) : pystr :=
  match width with
  | O => []
  | S w => zero_pad w (n / 10) ++ [Z.to_N (48 + n mod 10)]
  end.

(** [dt.isoformat()] of a UTC-aware value. *)
Definition isoformat (dt : datetime) : pystr :=
  let '(y, m, d) := ord2ymd (dt / US_PER_DAY + 1) in
  let r := dt mod US_PER_DAY in
  let us := r mod US_PER_SECOND in
  zero_pad 4 y ++ py "-" ++ zero_pad 2 m ++ py "-" ++ zero_pad 2 d
  ++ py "T" ++ zero_pad 2 (r / US_PER_HOUR)
  ++ py ":" ++ zero_pad 2 (r / US_PER_MINUTE mod 60)
  ++ py ":" ++ zero_pad 2 (r / US_PER_SECOND mod 60)
  ++ (if us =? 0 then [] else py "." ++ zero_pad 6 us)
  ++ py "+00:00".

End Datetime.

(** ** Selenium *)

Module Selenium.

(** A DOM element as the calls made on it answer.  Each call either
    returns or raises; a detached node raises
    [StaleElementReferenceException]. *)
#[warnings="-register-all"]
Inductive WebElement := mkWebElement {
  el_text : result pystr;
  el_get_attribute : pystr -> result (option pystr);
  el_find_elements : pystr -> result (list WebElement);
  el_find_element : pystr -> result WebElement;
  el_click : result unit
}.

End Selenium.
Export Selenium.

(** ** [modules/utils.py] *)

Module Utils.

Definition is_hebrew (c : N) : bool := ((1424 <=? c) && (c <=? 1535))%N.
Definition is_thai (c : N) : bool := ((3584 <=? c) && (c <=? 3711))%N.

(** [HEB_CHARS.search(txt)] and [THAI_CHARS.search(txt)]. *)
Definition HEB_CHARS_search (txt : pystr) : bool := existsb is_hebrew txt.
Definition THAI_CHARS_search (txt : pystr) : bool := existsb is_thai txt.

(** The body of [detect_lang]. *)
Definition detect_lang (txt : pystr) : pystr :=
  if HEB_CHARS_search txt then py "he"
  else if THAI_CHARS_search txt then py "th"
  else py "en".

(** [functools.lru_cache]: the cache holds argument/result pairs, the
    most recently used first, and at most [maxsize] of them. *)
Section LruCache.
Context {A B : Type} (eqb : A -> A -> bool).
Variable maxsize : nat.
Variable f : A -> B.

Definition cache := list (A * B).

Fixpoint cache_get (k : A) (c : cache) : option B :=
  match c with
  | [] => None
  | (k', v) :: c' => if eqb k k' then Some v else cache_get k c'
  end.

Fixpoint cache_del (k : A) (c : cache) : cache :=
  match c with
  | [] => []
  | (k', v) :: c' => if eqb k k' then c' else (k', v) :: cache_del k c'
  end.

(** One call of the wrapped function: a hit answers from the cache and
    moves the entry to the front; a miss runs [f], stores the result
    and evicts the least recently used entry when the cache is full. *)
Definition lru_call (c : cache) (x : A) : B * cache :=
  match cache_get x c with
  | Some v => (v, (x, v) :: cache_del x c)
  | None => let v := f x in (v, firstn maxsize ((x, v) :: c))
  end.

(** The cache after a sequence of calls, starting empty. *)
Definition lru_run (calls : list A) : cache :=
  fold_left (fun c x => snd (lru_call c x)) calls [].
End LruCache.

Definition pystr_eqb (a b : pystr) : bool := bool_decide (a = b).

(** [detect_lang] as callers see it, behind [@lru_cache(maxsize=1024)],
    after the earlier calls [history]. *)
Definition detect_lang_cached (history : list pystr) (txt : pystr) : pystr :=
  fst (lru_call pystr_eqb 1024 detect_lang
         (lru_run pystr_eqb 1024 detect_lang history) txt).

(** [try_find(el, css, all=...)]. *)
Definition try_find (el : WebElement) (css : pystr) (all : bool)
  : result (list WebElement) :=
  let found :=
    if all then el_find_elements el css
    else match el_find_element el css with
         | Ok obj => Ok [obj]
         | Raise e => Raise e
         end in
  match found with
  | Ok l => Ok l
  | Raise NoSuchElementException => Ok []
  | Raise StaleElementReferenceException => Ok []
  | Raise e => Raise e
  end.

(** The loop of [first_text] and [first_attr] over the matches: [read]
    extracts the candidate value of one match. *)
Fixpoint first_nonblank (read : WebElement -> result pystr)
    (es : list WebElement) : result pystr :=
  match es with
  | [] => Ok []
  | e :: es' =>
      match read e with
      | Ok t => if truthy (strip t) then Ok (strip t)
                else first_nonblank read es'
      | Raise StaleElementReferenceException => first_nonblank read es'
      | Raise ex => Raise ex
      end
  end.

Definition first_text (el : WebElement) (css : pystr) : result pystr :=
  match try_find el css true with
  | Ok es => first_nonblank el_text es
  | Raise e => Raise e
  end.

(** [e.get_attribute(attr)], with [None] read as the empty string. *)
Definition attr_or_empty (attr : pystr) (e : WebElement) : result pystr :=
  match el_get_attribute e attr with
  | Ok (Some v) => Ok v
  | Ok None => Ok []
  | Raise ex => Raise ex
  end.

Definition first_attr (el : WebElement) (css attr : pystr) : result pystr :=
  match try_find el css true with
  | Ok es => first_nonblank (attr_or_empty attr) es
  | Raise e => Raise e
  end.

(** The units of a relative date, in the order in which
    [parse_date_to_iso] tests for them. *)
Inductive unit_word := Minute | Hour | Day | Week | Month | Year.

Definition units : list unit_word := [Minute; Hour; Day; Week; Month; Year].

Definition word (u : unit_word) : pystr :=
  match u with
  | Minute => py "minute" | Hour => py "hour" | Day => py "day"
  | Week => py "week" | Month => py "month" | Year => py "year"
  end.

(** The length of [num] units in microseconds: [timedelta(minutes=num)],
    ..., [timedelta(days=30 * num)], [timedelta(days=365 * num)]. *)
Definition duration (u : unit_word) (num : Z) : Z :=
  match u with
  | Minute => num * Datetime.US_PER_MINUTE
  | Hour => num * Datetime.US_PER_HOUR
  | Day => num * Datetime.US_PER_DAY
  | Week => num * Datetime.US_PER_WEEK
  | Month => (30 * num) * Datetime.US_PER_DAY
  | Year => (365 * num) * Datetime.US_PER_DAY
  end.

(** The [if ... elif ...] chain: the first unit whose word occurs. *)
Definition first_unit (s : pystr) : option unit_word :=
  List.find (fun u => contains (word u) s) units.

(** The [try] block of [parse_date_to_iso]. *)
Definition parse_date_body (now : Datetime.datetime) (date_str : pystr)
  : result pystr :=
  let date_str := lower date_str in
  let dt :=
    if contains (py "ago") date_str then
      let num :=
        match search_digits date_str with
        | Some ds => int_of_digits ds
        | None => Ok 1
        end in
      match num with
      | Raise e => Raise e
      | Ok num =>
          match first_unit date_str with
          | Some u =>
              match Datetime.timedelta (duration u num) with
              | Ok td => Datetime.sub now td
              | Raise e => Raise e
              end
          | None => Ok now
          end
      end
    else Ok now in
  match dt with
  | Ok dt => Ok (Datetime.isoformat (Datetime.replace_microsecond_0 dt))
  | Raise e => Raise e
  end.

(** [parse_date_to_iso(date_str)], evaluated when the clock reads [now]. *)
Definition parse_date_to_iso (now : Datetime.datetime) (date_str : pystr)
  : pystr :=
  if negb (truthy date_str) then []
  else match parse_date_body now date_str with
       | Ok s => s
       | Raise _ => []
       end.

(** [safe_int(s)], behind [@lru_cache(maxsize=128)]: [s or ""], the first
    run of digits, and [int()] of it. *)
Definition safe_int (s : option pystr) : result Z :=
  match search_digits (match s with Some s => s | None => [] end) with
  | Some ds => int_of_digits ds
  | None => Ok 0
  end.

(** [get_current_iso_date()], when the clock reads [now]. *)
Definition get_current_iso_date (now : Datetime.datetime) : pystr :=
  Datetime.isoformat now.

(** What [click_if] sees of an element: the answers of [is_displayed()],
    [is_enabled()] and [click()]. *)
Record Control := mkControl {
  ctl_is_displayed : result bool;
  ctl_is_enabled : result bool;
  ctl_click : result unit
}.

(** What [click_if] does to the page and the clock: a click that went
    through, and the [time.sleep(delay)] after it. *)
Inductive click_effect :=
| EffClick
| EffSleep.

(** The [for element in elements] loop of [click_if], under its
    [except Exception: continue]: [true] when an element was clicked. *)
Fixpoint click_displayed (elements : list Control) : bool :=
  match elements with
  | [] => false
  | element :: elements' =>
      match ctl_is_displayed element with
      | Ok true =>
          match ctl_is_enabled element with
          | Ok true =>
              match ctl_click element with
              | Ok _ => true
              | Raise _ => click_displayed elements'
              end
          | _ => click_displayed elements'
          end
      | _ => click_displayed elements'
      end
  end.

(** [click_if(driver, css, delay, timeout)].  [found] is what
    [driver.find_elements] answers and [waited] what the wait for a
    clickable element answers. *)
Definition click_if (found : result (list Control)) (waited : result Control)
  : bool * list click_effect :=
  match found with
  | Raise _ => (false, [])
  | Ok [] => (false, [])
  | Ok elements =>
      if click_displayed elements then (true, [EffClick; EffSleep])
      else
        match waited with
        | Ok element =>
            match ctl_click element with
            | Ok _ => (true, [EffClick; EffSleep])
            | Raise _ => (false, [])
            end
        | Raise _ => (false, [])
        end
  end.

End Utils.

(** ** Binary64 arithmetic *)

Module Binary64.

(** Python's [float] is IEEE 754 binary64: 53 bits of precision, round
    to nearest even. *)
Definition prec : Z := 53.
Definition emax : Z := 1024.

(** [float(n)] for an [int].  ([len()] never exceeds 2^63 - 1, far from
    the magnitudes at which this conversion overflows.) *)
Definition of_int (n : Z) : spec_float := binary_normalize prec emax n 0 false.

Definition div (x y : spec_float) : spec_float := SFdiv prec emax x y.
Definition mul (x y : spec_float) : spec_float := SFmul prec emax x y.

(** The builtin [min(a, b)]: [b] when [b < a], otherwise [a]. *)
Definition min (a b : spec_float) : spec_float := if SFltb b a then b else a.

(** [int(x)]: truncation towards zero. *)
Definition to_int (x : spec_float) : result Z :=
  match x with
  | S754_zero _ => Ok 0
  | S754_nan => Raise ValueError
  | S754_infinity _ => Raise OverflowError
  | S754_finite s m e =>
      let a := if 0 <=? e then Z.pos m * 2 ^ e else Z.pos m / 2 ^ (- e) in
      Ok (if s then - a else a)
  end.

End Binary64.

(** ** [modules/scraper.py] *)

Module Scraper.

Definition dq : pystr := [34%N].

Definition PANE_SEL : pystr :=
  py "div[role=" ++ dq ++ py "main" ++ dq
  ++ py "] div.m6QErb.DxyBCb.kA9KIf.dS8AEf".
Definition CARD_SEL : pystr := py "div[data-review-id]".
Definition COOKIE_BTN : pystr :=
  py "button[aria-label*=" ++ dq ++ py "Accept" ++ dq
  ++ py " i], button[jsname=" ++ dq ++ py "hZCF7e" ++ dq ++ py "]".
Definition SORT_BTN : pystr :=
  py "button[aria-label*=" ++ dq ++ py "Sort reviews" ++ dq ++ py " i]".
Definition MENU_ITEMS : pystr :=
  py "div[role=" ++ dq ++ py "menu" ++ dq ++ py "] [role=" ++ dq
  ++ py "menuitem" ++ dq ++ py "], li[role=" ++ dq ++ py "menuitem" ++ dq
  ++ py "]".
Definition COMPANY_NAME_SELECTORS : list pystr :=
  [py "h1.fontHeadlineLarge"; py "h1[aria-label]";
   py "div.fontTitleLarge.m6QErb"].
Definition MORE_REVIEWS_BTN : pystr :=
  py "button[jsaction*=" ++ dq ++ py "pane.rating.moreReviews" ++ dq
  ++ py "]".
Definition DATA_REVIEW_ID : pystr := py "data-review-id".
Definition UNKNOWN_COMPANY : pystr := py "Unknown Company".
Definition GOOGLE_MAPS_SUFFIX : pystr := py " - Google Maps".

(** Modelled from the spec: the record type [RawReview] of
    [modules/models.py], which is not among the sources.  Its fields are
    those of the spec's ReviewRecord; the loop reads [id] and assigns
    [company_name]. *)
Record RawReview := mkRawReview {
  id : pystr;
  company_name : pystr;
  author_name : pystr;
  text : pystr;
  rating : Z;
  published_at : pystr
}.

(** [raw_review.company_name = name]. *)
Definition set_company_name (r : RawReview) (name : pystr) : RawReview :=
  {| id := id r; company_name := name; author_name := author_name r;
     text := text r; rating := rating r; published_at := published_at r |}.

(** What is written to [job_info['progress']['message']]. *)
Inductive message :=
| MsgSearchingCompany
| MsgFoundCompany (name : pystr)
| MsgLookingForTab
| MsgNavigated
| MsgScraping (found : nat).

(** Observable effects, in the order in which they happen. *)
Inductive event :=
| EvStartDriver
| EvQuitDriver
| EvSleep (milliseconds : Z)
| EvPercentage (p : Z)
| EvMessage (m : message)
| EvScroll.

(** A computation: the effects it had, and how it ended: with a value,
    with a raised exception, or not yet (the scroll loop was still
    running when the [fuel] given to it was used up). *)
Definition run (A : Type) : Type := (list event * option (result A))%type.

Definition ret {A} (a : A) : run A := ([], Some (Ok a)).
Definition raise {A} (e : exn) : run A := ([], Some (Raise e)).
Definition lift {A} (r : result A) : run A := ([], Some r).
Definition emit (evs : list event) : run unit := (evs, Some (Ok tt)).

Definition bind {A B} (m : run A) (k : A -> run B) : run B :=
  match m with
  | (t, Some (Ok a)) => let '(t', r) := k a in (t ++ t', r)
  | (t, Some (Raise e)) => (t, Some (Raise e))
  | (t, None) => (t, None)
  end.

Notation "'let*' x ':=' m 'in' k" := (bind m (fun x => k))
  (at level 10, x name, m at level 100, k at level 200).
Notation "'do' m 'in' k" := (bind m (fun _ => k))
  (at level 10, m at level 100, k at level 200).

(** [if job_info: ...]: the writes happen when a progress sink was
    passed. *)
Definition when_sink (job_info : bool) (evs : list event) : run unit :=
  if job_info then emit evs else ret tt.

(** *** The scrolling panel and the browser *)

(** The reviews panel.  What it shows changes from one pass of the loop
    to the next: [pane_find_cards k] is what
    [pane.find_elements(By.CSS_SELECTOR, CARD_SEL)] answers in pass [k],
    and [pane_scroll k] what the scrolling script answers. *)
Record Pane := mkPane {
  pane_find_cards : nat -> result (list WebElement);
  pane_scroll : nat -> result unit
}.

(** One browser instance, as the calls of one attempt see it. *)
Record Driver := mkDriver {
  drv_get : result unit;
  drv_wait_body : result unit;
  drv_wait_presence : pystr -> result WebElement;
  drv_wait_all_present : pystr -> result (list WebElement);
  drv_wait_clickable : pystr -> result WebElement;
  drv_find_elements : pystr -> result (list WebElement);
  drv_title : result pystr;
  drv_wait_pane : result Pane
}.

(** How [_start_driver] goes: the browser starts, or starting raises,
    before or after [self.driver] was assigned. *)
Inductive start_outcome :=
| Started (d : Driver)
| StartFailed (driver_assigned : bool).

(** *** The deduplication map *)

(** [docs]: a [dict], which keeps its keys in insertion order. *)
Definition dict := list (pystr * RawReview).

Fixpoint dict_get (k : pystr) (d : dict) : option RawReview :=
  match d with
  | [] => None
  | (k', v) :: d' => if bool_decide (k = k') then Some v else dict_get k d'
  end.

(** [d[k] = v]: replaces the value of a present key in place, appends an
    absent one. *)
Fixpoint dict_set (k : pystr) (v : RawReview) (d : dict) : dict :=
  match d with
  | [] => [(k, v)]
  | (k', v') :: d' =>
      if bool_decide (k = k') then (k', v) :: d'
      else (k', v') :: dict_set k v d'
  end.

Definition keys (d : dict) : list pystr := List.map fst d.
Definition values (d : dict) : list RawReview := List.map snd d.

(** The two collections of [_scroll_and_extract_reviews]. *)
Record session := mkSession {
  docs : dict;
  seen : gset pystr
}.

Definition empty_session : session := {| docs := []; seen := ∅ |}.

(** *** Progress during the scroll phase *)

(** [60 + int(min(len(docs) / 150.0, 1.0) * 30)], in binary64. *)
Definition progress_for_reviews (found : Z) : spec_float :=
  Binary64.mul
    (Binary64.min (Binary64.div (Binary64.of_int found) (Binary64.of_int 150))
                  (Binary64.of_int 1))
    (Binary64.of_int 30).

Definition progress_percentage (found : Z) : result Z :=
  match Binary64.to_int (progress_for_reviews found) with
  | Ok k => Ok (60 + k)
  | Raise e => Raise e
  end.

(** The formula of the specification, in exact rational arithmetic:
    [60 + floor(min(n/150, 1) * 30)]. *)
Definition spec_percentage (n : Z) : Z :=
  60 + Qfloor (Qmin (inject_Z n / 150) 1 * 30).

Section Loop.

(** [RawReview.from_card], of [modules/models.py], is not among the
    sources: it is a parameter.  It answers a record or raises. *)
Variable from_card : WebElement -> result RawReview.

(** [self.company_name] and [job_info] during the loop. *)
Variable self_company_name : pystr.
Variable job_info : bool.

(** [not review_id or review_id in seen]. *)
Definition skip_card (review_id : option pystr) (st : session) : bool :=
  match review_id with
  | None => true
  | Some rid => negb (truthy rid) || bool_decide (rid ∈ seen st)
  end.

(** The body of [for card in cards], under its
    [except StaleElementReferenceException: continue]. *)
Definition process_card (st : session) (new_reviews_in_pass : Z)
    (card : WebElement) : run (session * Z) :=
  match el_get_attribute card DATA_REVIEW_ID with
  | Raise StaleElementReferenceException => ret (st, new_reviews_in_pass)
  | Raise e => raise e
  | Ok review_id =>
      if skip_card review_id st then ret (st, new_reviews_in_pass)
      else
        match from_card card with
        | Raise StaleElementReferenceException =>
            ret (st, new_reviews_in_pass)
        | Raise e => raise e
        | Ok raw_review =>
            let raw_review := set_company_name raw_review self_company_name in
            let st' :=
              {| docs := dict_set (id raw_review) raw_review (docs st);
                 seen := {[ id raw_review ]} ∪ seen st |} in
            if job_info then
              match progress_percentage (Z.of_nat (length (docs st'))) with
              | Ok p =>
                  do emit [EvPercentage p;
                           EvMessage (MsgScraping (length (docs st')))] in
                  ret (st', new_reviews_in_pass + 1)
              | Raise e => raise e
              end
            else ret (st', new_reviews_in_pass + 1)
        end
  end.

Fixpoint process_cards (cards : list WebElement) (st : session)
    (new_reviews_in_pass : Z) : run (session * Z) :=
  match cards with
  | [] => ret (st, new_reviews_in_pass)
  | card :: cards' =>
      let* x := process_card st new_reviews_in_pass card in
      process_cards cards' (fst x) (snd x)
  end.

(** The idle counter after a pass. *)
Definition next_idle (idle_scrolls new_reviews_in_pass : Z) : Z :=
  if new_reviews_in_pass =? 0 then idle_scrolls + 1 else 0.

(** [while idle_scrolls < 5: ...], from pass number [pass] on. *)
Fixpoint scroll_loop (fuel : nat) (pane : Pane) (pass : nat)
    (st : session) (idle_scrolls : Z) : run (session * Z) :=
  if idle_scrolls <? 5 then
    match fuel with
    | O => ([], None)
    | S fuel' =>
        let* cards := lift (pane_find_cards pane pass) in
        let* x := process_cards cards st 0 in
        do lift (pane_scroll pane pass) in
        do emit [EvScroll; EvSleep 1500] in
        scroll_loop fuel' pane (S pass) (fst x)
          (next_idle idle_scrolls (snd x))
    end
  else ret (st, idle_scrolls).

(** [_scroll_and_extract_reviews(pane, job_info)]. *)
Definition _scroll_and_extract_reviews (fuel : nat) (pane : Pane)
  : run session :=
  let* x := scroll_loop fuel pane 0 empty_session 0 in ret (fst x).

End Loop.

(** *** The phases of one attempt *)

(** [try: body  except TimeoutException: handler]. *)
Definition catch_timeout {A} (body : run A) (handler : run A) : run A :=
  match body with
  | (t, Some (Raise TimeoutException)) =>
      let '(t', r) := handler in (t ++ t', r)
  | _ => body
  end.

(** [try: body  except Exception: handler]. *)
Definition catch_exception {A} (body : run A) (handler : run A) : run A :=
  match body with
  | (t, Some (Raise _)) => let '(t', r) := handler in (t ++ t', r)
  | _ => body
  end.

(** [s.split(sep)[0]] when [sep] occurs in [s]. *)
Fixpoint before (sep s : pystr) : pystr :=
  match s with
  | [] => []
  | c :: s' => if startswith sep s then [] else c :: before sep s'
  end.

Section Attempt.

Variable from_card : WebElement -> result RawReview.

(** [REVIEW_WORDS] is a [set]: the order in which it is iterated is
    not fixed by the program.  [review_words] is that order. *)
Variable review_words : list pystr.

(** [self.config.get("sort_by", "relevance")]. *)
Variable sort_by : pystr.

Variable job_info : bool.

(** The [for selector in COMPANY_NAME_SELECTORS] loop of
    [_get_company_name], then the page title. *)
Fixpoint company_name_from (d : Driver) (selectors : list pystr)
  : run pystr :=
  match selectors with
  | [] =>
      let* title := lift (drv_title d) in
      if contains GOOGLE_MAPS_SUFFIX title
      then ret (strip (before GOOGLE_MAPS_SUFFIX title))
      else ret UNKNOWN_COMPANY
  | selector :: selectors' =>
      let* name :=
        catch_timeout
          (let* name_element := lift (drv_wait_presence d selector) in
           let* t := lift (el_text name_element) in
           if truthy (strip t) then
             do when_sink job_info
                  [EvPercentage 40;
                   EvMessage (MsgFoundCompany (strip t))] in
             do emit [EvSleep 1000] in
             ret (strip t)
           else ret [])
          (ret []) in
      if truthy name then ret name
      else company_name_from d selectors'
  end.

Definition _get_company_name (d : Driver) : run pystr :=
  do when_sink job_info
       [EvPercentage 25; EvMessage MsgSearchingCompany] in
  catch_exception (company_name_from d COMPANY_NAME_SELECTORS)
    (ret UNKNOWN_COMPANY).

Definition dismiss_cookies (d : Driver) : run unit :=
  catch_timeout
    (let* cookie_button := lift (drv_wait_clickable d COOKIE_BTN) in
     lift (el_click cookie_button))
    (ret tt).

(** [is_reviews_tab(tab)]; the text of an element is never [None]. *)
Definition is_reviews_tab (tab : WebElement) : result bool :=
  match el_text tab with
  | Ok t => Ok (existsb (fun w => contains w (lower t)) review_words)
  | Raise StaleElementReferenceException => Ok false
  | Raise e => Raise e
  end.

(** [for element in elements]: [true] when a tab was clicked. *)
Fixpoint click_first_tab (elements : list WebElement) : run bool :=
  match elements with
  | [] => ret false
  | element :: elements' =>
      let* is_tab := lift (is_reviews_tab element) in
      if is_tab then
        do lift (el_click element) in
        do when_sink job_info [EvPercentage 60; EvMessage MsgNavigated] in
        do emit [EvSleep 1000] in
        ret true
      else click_first_tab elements'
  end.

Fixpoint click_with_selectors (d : Driver) (selectors : list pystr)
  : run unit :=
  match selectors with
  | [] => raise TimeoutException
  | selector :: selectors' =>
      let* clicked :=
        catch_timeout
          (let* elements := lift (drv_wait_all_present d selector) in
           click_first_tab elements)
          (ret false) in
      if clicked then ret tt else click_with_selectors d selectors'
  end.

Definition tab_selector (w : pystr) : pystr :=
  py "button[aria-label*=" ++ dq ++ w ++ dq ++ py " i]".

Definition click_reviews_tab (d : Driver) : run unit :=
  do when_sink job_info [EvPercentage 45; EvMessage MsgLookingForTab] in
  click_with_selectors d
    (List.map tab_selector review_words ++ [MORE_REVIEWS_BTN]).

Fixpoint click_menu_item (method : pystr) (menu_items : list WebElement)
  : run unit :=
  match menu_items with
  | [] => ret tt
  | item :: menu_items' =>
      let* t := lift (el_text item) in
      if contains (lower method) (lower t) then lift (el_click item)
      else click_menu_item method menu_items'
  end.

Definition set_sort (d : Driver) (method : pystr) : run unit :=
  if bool_decide (method = py "relevance") then ret tt
  else
    catch_exception
      (let* sort_button := lift (drv_wait_clickable d SORT_BTN) in
       do lift (el_click sort_button) in
       do emit [EvSleep 1000] in
       let* menu_items := lift (drv_find_elements d MENU_ITEMS) in
       click_menu_item method menu_items)
      (ret tt).

(** The [try] block of [scrape] up to the assignment of
    [self.company_name]. *)
Definition navigate (d : Driver) : run pystr :=
  do when_sink job_info [EvPercentage 15] in
  do lift (drv_get d) in
  do emit [EvSleep 2000] in
  do lift (drv_wait_body d) in
  _get_company_name d.

(** The rest of the [try] block, with [self.company_name] assigned. *)
Definition extract (fuel : nat) (d : Driver) (name : pystr) : run dict :=
  do dismiss_cookies d in
  do click_reviews_tab d in
  do set_sort d sort_by in
  do emit [EvSleep 1500] in
  let* pane := lift (drv_wait_pane d) in
  let* st := _scroll_and_extract_reviews from_card name job_info fuel pane in
  ret (docs st).

(** One attempt: the whole [try] block. *)
Definition attempt (fuel : nat) (d : Driver) : run (pystr * dict) :=
  let* name := navigate d in
  let* docs := extract fuel d name in
  ret (name, docs).

(** [self.company_name] after an attempt that started from [company]. *)
Definition company_after (d : Driver) (company : pystr) : pystr :=
  match navigate d with
  | (_, Some (Ok name)) => name
  | _ => company
  end.

(** *** The retry supervisor *)

(** The dictionary that [scrape] returns. *)
Record scrape_result := mkResult {
  res_company_name : pystr;
  res_reviews : list RawReview
}.

(** [_start_driver()], with the [_quit_driver()] of its handler. *)
Definition _start_driver (o : start_outcome) : list event * option Driver :=
  match o with
  | Started d => ([EvStartDriver], Some d)
  | StartFailed assigned =>
      (EvStartDriver :: (if assigned then [EvQuitDriver] else []), None)
  end.

(** [for attempt in ...], and the statements after the loop.
    [browsers attempt] is how starting the browser goes in that
    attempt. *)
Fixpoint scrape_attempts (fuel : nat) (browsers : nat -> start_outcome)
    (attempts : list nat) (company : pystr)
  : list event * option scrape_result :=
  match attempts with
  | [] =>
      ([], Some {| res_company_name :=
                     if truthy company then company else py "Unknown";
                   res_reviews := [] |})
  | attempt_no :: attempts' =>
      match _start_driver (browsers attempt_no) with
      | (t0, None) =>
          let '(t, r) := scrape_attempts fuel browsers attempts' company in
          (t0 ++ [EvSleep 5000] ++ t, r)
      | (t0, Some d) =>
          match attempt fuel d with
          | (t1, Some (Ok (name, docs))) =>
              (t0 ++ t1,
               Some {| res_company_name := name;
                       res_reviews := values docs |})
          | (t1, Some (Raise _)) =>
              let '(t, r) :=
                scrape_attempts fuel browsers attempts'
                  (company_after d company) in
              (t0 ++ t1 ++ [EvQuitDriver]
               ++ (if (attempt_no <? 2)%nat then [EvSleep 5000] else [])
               ++ t, r)
          | (t1, None) => (t0 ++ t1, None)
          end
      end
  end.

(** [scrape(job_info)] on an object whose [company_name] is
    [self_company_name] ([__init__] sets it to "Unknown Company"). *)
Definition scrape (fuel : nat) (browsers : nat -> start_outcome)
    (self_company_name : pystr) : list event * option scrape_result :=
  scrape_attempts fuel browsers [0; 1; 2]%nat self_company_name.

End Attempt.

(** The percentages written to the progress sink, in order. *)
Definition percentages (t : list event) : list Z :=
  flat_map (fun ev => match ev with EvPercentage p => [p] | _ => [] end) t.

Definition count_scrolls (t : list event) : nat :=
  length (List.filter (fun ev => match ev with EvScroll => true | _ => false end) t).

Definition count_starts (t : list event) : nat :=
  length (List.filter (fun ev => match ev with EvStartDriver => true | _ => false end) t).
End Scraper.

(** ** [app_backend.py]: the names of the reports *)

Module ReportNames.

(** The characters of the class in the pattern of line 64: backslash,
    slash, asterisk, question mark, colon, double quote, the two angle
    brackets and bar. *)
Definition forbidden (c : N) : bool :=
  existsb (N.eqb c) [92; 47; 42; 63; 58; 34; 60; 62; 124]%N.

(** [re.sub] of that class by the empty string. *)
Definition remove_forbidden (s : pystr) : pystr :=
  List.filter (fun c => negb (forbidden c)) s.

(** [s.replace(a, b)] for one-character [a] and [b]. *)
Definition replace_char (a b : N) (s : pystr) : pystr :=
  List.map (fun c => if (c =? a)%N then b else c) s.

Definition SPACE : N := 32%N.
Definition UNDERSCORE : N := 95%N.
Definition SLASH : N := 47%N.

(** Line 64 of [run_scraper_task]. *)
Definition safe_filename (company_name : pystr) : pystr :=
  replace_char SPACE UNDERSCORE (remove_forbidden company_name).

(** Line 67:
    [f"{s3_prefix}{reports_folder}{safe_filename}_{job_id[:8]}.json"]. *)
Definition s3_key (s3_prefix reports_folder company_name job_id : pystr)
  : pystr :=
  s3_prefix ++ reports_folder ++ safe_filename company_name ++ py "_"
  ++ firstn 8 job_id ++ py ".json".

Definition occurs (sep : N) (s : pystr) : bool := existsb (N.eqb sep) s.

(** [s.split(sep)[-1]] for a one-character [sep]: what follows the last
    [sep], or all of [s] when there is none. *)
Fixpoint split_last (sep : N) (s : pystr) : pystr :=
  match s with
  | [] => []
  | c :: s' =>
      if occurs sep s' then split_last sep s'
      else if (c =? sep)%N then s' else c :: s'
  end.

(** [s.rsplit(sep, 1)[0]] for a one-character [sep]: what precedes the
    last [sep], or all of [s] when there is none. *)
Fixpoint rsplit_head (sep : N) (s : pystr) : pystr :=
  match s with
  | [] => []
  | c :: s' =>
      if occurs sep s' then c :: rsplit_head sep s'
      else if (c =? sep)%N then [] else c :: s'
  end.

(** The ["name"] that [get_past_results] shows for the object [key], or
    [None] when the loop skips the object (lines 128 to 130). *)
Definition past_result_name (key : pystr) : option pystr :=
  let filename := split_last SLASH key in
  if negb (truthy filename) then None
  else Some (replace_char UNDERSCORE SPACE (rsplit_head UNDERSCORE filename)).

End ReportNames.

(** ** [modules/config.py] *)

Module Config.

(** What [yaml.safe_load] answers for a configuration file: null,
    booleans, integers, floats, strings, sequences, and mappings, whose
    keys are strings.  A mapping is a [dict], which keeps its keys in the
    order in which they were first assigned. *)
Inductive value :=
| VNone
| VBool (b : bool)
| VInt (n : Z)
| VFloat (f : spec_float)
| VStr (s : pystr)
| VList (l : list value)
| VDict (d : list (pystr * value)).

Definition dict : Type := list (pystr * value).

(** [d.get(k)]. *)
Fixpoint lookup (k : pystr) (d : dict) : option value :=
  match d with
  | [] => None
  | (k', v) :: d' => if bool_decide (k = k') then Some v else lookup k d'
  end.

(** [d[k] = v]. *)
Fixpoint assign (k : pystr) (v : value) (d : dict) : dict :=
  match d with
  | [] => [(k, v)]
  | (k', v') :: d' =>
      if bool_decide (k = k') then (k', v) :: d'
      else (k', v') :: assign k v d'
  end.

Definition keys (d : dict) : list pystr := List.map fst d.

(** Truthiness, as [if user_config:] tests it. *)
Definition truthy_value (v : value) : bool :=
  match v with
  | VNone => false
  | VBool b => b
  | VInt n => negb (n =? 0)
  | VFloat f => match f with S754_zero _ => false | _ => true end
  | VStr s => truthy s
  | VList l => match l with [] => false | _ => true end
  | VDict d => match d with [] => false | _ => true end
  end.

(** One round of the loop of [deep_update(d, u)], for the item [(k, v)]
    of [u]: what [d] holds under [k] afterwards, [old] being what it
    held before.  When both are mappings the old one is updated, in
    place, with the items of [v]; otherwise [v] is assigned. *)
Fixpoint merged (old : option value) (v : value) {struct v} : value :=
  match v, old with
  | VDict u, Some (VDict d) =>
      VDict
        ((fix items (u : list (pystr * value)) (d : dict) {struct u} : dict :=
            match u with
            | [] => d
            | (k, v') :: u' => items u' (assign k (merged (lookup k d) v') d)
            end) u d)
  | _, _ => v
  end.

(** [deep_update(d, u)]: the contents of [d] afterwards. *)
Fixpoint deep_update (d u : dict) : dict :=
  match u with
  | [] => d
  | (k, v) :: u' => deep_update (assign k (merged (lookup k d) v) d) u'
  end.

(** [DEFAULT_CONFIG]. *)
Definition DEFAULT_CONFIG : dict :=
  [(py "url", VStr (py "https://maps.app.goo.gl/6tkNMDjcj3SS6LJe9"));
   (py "headless", VBool true);
   (py "sort_by", VStr (py "relevance"));
   (py "stop_on_match", VBool false);
   (py "overwrite_existing", VBool false);
   (py "use_mongodb", VBool true);
   (py "mongodb",
    VDict [(py "uri", VStr (py "mongodb://localhost:27017"));
           (py "database", VStr (py "reviews"));
           (py "collection", VStr (py "google_reviews"))]);
   (py "backup_to_json", VBool true);
   (py "json_path", VStr (py "google_reviews.json"));
   (py "seen_ids_path", VStr (py "google_reviews.ids"));
   (py "convert_dates", VBool true);
   (py "download_images", VBool true);
   (py "image_dir", VStr (py "review_images"));
   (py "download_threads", VInt 4);
   (py "store_local_paths", VBool true);
   (py "replace_urls", VBool false);
   (py "custom_url_base", VStr (py "https://mycustomurl.com"));
   (py "custom_url_profiles", VStr (py "/profiles/"));
   (py "custom_url_reviews", VStr (py "/reviews/"));
   (py "preserve_original_urls", VBool true);
   (py "custom_params", VDict [(py "source", VStr (py "Google Maps"))])].

(** What [load_config] finds at [config_path]: no file; a file that
    cannot be opened or parsed; or a file that [yaml.safe_load] reads as
    [user_config]. *)
Inductive config_file :=
| Missing
| Unreadable
| Loaded (user_config : value).

(** [load_config(config_path)]: the mapping it returns, [defaults] being
    the contents of [DEFAULT_CONFIG] at the call.  A file whose content
    is truthy but not a mapping makes [u.items()] raise, which the
    handler absorbs; the defaults are then returned. *)
Definition load_config (defaults : dict) (file : config_file) : dict :=
  match file with
  | Loaded user_config =>
      if truthy_value user_config then
        match user_config with
        | VDict u => deep_update defaults u
        | _ => defaults
        end
      else defaults
  | Missing | Unreadable => defaults
  end.

End Config.

(** ** [app_backend.py]: the background task *)

Module AppBackend.

Import Scraper.

(** What [random.choice(["Fake", "Genuine"])] answers. *)
Inductive prediction := Fake | Genuine.

(** What is written to [job_info['progress']['message']]: a text of the
    task itself, or a message of the scraper. *)
Inductive progress_message :=
| TaskMessage (text : pystr)
| ScraperMessage (m : message).

(** [job_info['result']]: [None], the report (each review with its
    ['prediction']), or the text of an exception. *)
Inductive job_result :=
| NoResult
| Report (company_name : pystr) (reviews : list (RawReview * prediction))
| ErrorText.

(** An entry of [jobs]. *)
Record job := mkJob {
  status : pystr;
  percentage : Z;
  message : progress_message;
  result : job_result;
  s3_url : option pystr;
  s3_key : option pystr
}.

(** The entry that [detect_endpoint] creates (lines 96 to 100). *)
Definition pending_job : job :=
  {| status := py "pending"; percentage := 0;
     message := TaskMessage (py "Job is queued...");
     result := NoResult; s3_url := None; s3_key := None |}.

Definition set_status (s : pystr) (j : job) : job :=
  {| status := s; percentage := percentage j; message := message j;
     result := result j; s3_url := s3_url j; s3_key := s3_key j |}.

Definition set_progress (p : Z) (m : progress_message) (j : job) : job :=
  {| status := status j; percentage := p; message := m;
     result := result j; s3_url := s3_url j; s3_key := s3_key j |}.

Definition set_result (r : job_result) (j : job) : job :=
  {| status := status j; percentage := percentage j; message := message j;
     result := r; s3_url := s3_url j; s3_key := s3_key j |}.

Definition set_s3 (url key : pystr) (j : job) : job :=
  {| status := status j; percentage := percentage j; message := message j;
     result := result j; s3_url := Some url; s3_key := Some key |}.

(** What an effect of the scraper does to the job that it was given as
    its progress sink. *)
Definition record_event (j : job) (ev : event) : job :=
  match ev with
  | EvPercentage p =>
      {| status := status j; percentage := p; message := message j;
         result := result j; s3_url := s3_url j; s3_key := s3_key j |}
  | EvMessage m =>
      {| status := status j; percentage := percentage j;
         message := ScraperMessage m;
         result := result j; s3_url := s3_url j; s3_key := s3_key j |}
  | _ => j
  end.

(** How the statements about S3 (lines 60 to 78) go: whether the
    constructor of [S3Handler] returns, and with which [enabled];
    whether the report can be written to the local file; what
    [upload_json_file] answers; whether the local file can be removed. *)
Inductive handler_outcome :=
| HandlerRaises
| HandlerDisabled
| HandlerEnabled.

Record s3_run := mkS3Run {
  handler : handler_outcome;
  dump_ok : bool;
  upload_answer : option pystr;
  unlink_ok : bool
}.

(** Lines 60 to 78, on the job [j]: the job afterwards, or the job at
    the point where an exception was raised. *)
Definition store_report (s3 : s3_run) (key : pystr) (j : job)
  : job + job :=
  match handler s3 with
  | HandlerRaises => inr j
  | HandlerDisabled => inl j
  | HandlerEnabled =>
      if dump_ok s3 then
        let j' :=
          match upload_answer s3 with
          | Some url => if truthy url then set_s3 url key j else j
          | None => j
          end in
        if unlink_ok s3 then inl j' else inr j'
      else inr j
  end.

(** The check mark of the messages. *)
Definition CHECK_MARK : pystr := [9989%N].

(** [run_scraper_task(job_id, url)] on the entry [j0] of [jobs]: the
    entry afterwards, or [None] when the scroll loop is still running
    after [fuel] passes.  The scraper is made with ["sort_by":
    "relevance"], starts with the company name "Unknown Company", and
    gets the job as its progress sink; [from_card], [review_words] and
    [browsers] are as for [scrape].  [choices] is what [random.choice]
    answers for each review, and [s3_prefix] and [reports_folder] are the
    two settings of lines 65 and 66.  What [scrape] returns is a [dict]
    with two keys, which is truthy: line 40 is never reached. *)
Definition run_scraper_task (job_id : pystr)
    (from_card : WebElement -> Py.result RawReview)
    (review_words : list pystr)
    (fuel : nat) (browsers : nat -> start_outcome)
    (choices : nat -> prediction) (s3 : s3_run)
    (s3_prefix reports_folder : pystr) (j0 : job) : option job :=
  let j := set_status (py "running") j0 in
  let j := set_progress 5 (TaskMessage (py "Initializing scraper...")) j in
  let scrape_run :=
    scrape from_card review_words (py "relevance") true fuel browsers
      UNKNOWN_COMPANY in
  let j := fold_left record_event (fst scrape_run) j in
  match snd scrape_run with
  | None => None
  | Some scraped_data =>
      let j := set_status (py "analyzing") j in
      let j :=
        set_progress 95
          (TaskMessage
             (CHECK_MARK ++ py " Scraping complete! Analyzing reviews..."))
          j in
      let reviews :=
        List.map (fun ir => (snd ir, choices (fst ir)))
          (combine (seq 0 (length (res_reviews scraped_data)))
                   (res_reviews scraped_data)) in
      let company_name := res_company_name scraped_data in
      let j := set_result (Report company_name reviews) j in
      let key :=
        ReportNames.s3_key s3_prefix reports_folder company_name job_id in
      match store_report s3 key j with
      | inl j =>
          let j := set_status (py "complete") j in
          Some (set_progress 100 (TaskMessage (py "Done!")) j)
      | inr j =>
          let j := set_status (py "error") j in
          Some (set_result ErrorText j)
      end
  end.

End AppBackend.

(** * Vocabulary of the properties *)

Import Utils Scraper.

(** The spec's relative-date phrase [<integer> <unit> ago]: a non-empty run
    of ASCII digits, a space, the unit word with or without a plural "s",
    and " ago". *)
Definition ascii_digit (c : N) : Prop := (48 <= c <= 57)%N.

Definition relative_phrase (ds : pystr) (u : unit_word) (plural : bool) : pystr :=
  ds ++ py " " ++ word u ++ (if plural then py "s" else []) ++ py " ago".

Definition matches_relative_date (s : pystr) : Prop :=
  exists ds u plural,
    ds <> [] /\ Forall ascii_digit ds /\ s = relative_phrase ds u plural.

(** The integer that a run of ASCII digits writes in decimal. *)
Definition ascii_number (ds : pystr) : Z :=
  fold_left (fun acc c => 10 * acc + (Z.of_N c - 48)) ds 0.

(** The spec's unit durations, in microseconds: a minute is 60 seconds,
    an hour 3600 seconds, a day 86400 seconds, a week 7 days, a month 30
    days and a year 365 days. *)
Definition unit_microseconds (u : unit_word) : Z :=
  match u with
  | Minute => 60 * 1000000
  | Hour => 3600 * 1000000
  | Day => 86400 * 1000000
  | Week => 7 * 86400 * 1000000
  | Month => 30 * 86400 * 1000000
  | Year => 365 * 86400 * 1000000
  end.

(** The instant used in the examples: 2026-11-04T12:30:15.123456+00:00. *)
Definition sample_now : Datetime.datetime := 63929392215123456.

(** Every cached pair holds the value of [f] at its key. *)
Definition cache_sound {A B : Type} (f : A -> B) (c : list (A * B)) : Prop :=
  Forall (fun kv => snd kv = f (fst kv)) c.

(** The exceptions that [try_find] absorbs. *)
Definition absorbed (e : exn) : bool :=
  match e with
  | NoSuchElementException | StaleElementReferenceException => true
  | _ => false
  end.

(** Every failing read among the matches is a staleness error. *)
Definition only_stale (read : WebElement -> result pystr)
    (es : list WebElement) : Prop :=
  forall e ex, In e es -> read e = Raise ex -> ex = StaleElementReferenceException.

(** The trimmed, non-empty values of the matches that could be read, in
    order. *)
Definition nonblank_values (read : WebElement -> result pystr)
    (es : list WebElement) : list pystr :=
  List.filter truthy
    (flat_map (fun e => match read e with Ok t => [strip t] | Raise _ => [] end) es).

(** An element on which every call fails with a driver error that is
    neither "no such element" nor "stale". *)
Definition broken_element : WebElement :=
  mkWebElement (Raise WebDriverException) (fun _ => Raise WebDriverException)
    (fun _ => Raise WebDriverException) (fun _ => Raise WebDriverException)
    (Raise WebDriverException).

(** A scope with one match, [broken_element]. *)
Definition scope_with_broken_match : WebElement :=
  mkWebElement (Ok []) (fun _ => Ok None) (fun _ => Ok [broken_element])
    (fun _ => Ok broken_element) (Ok tt).

(** The binary64 constants of the progress formula: 150.0, 1.0 and
    30.0. *)
Definition f150 : spec_float := S754_finite false 5277655813324800 (-45).
Definition f1 : spec_float := S754_finite false 4503599627370496 (-52).
Definition f30 : spec_float := S754_finite false 8444249301319680 (-48).

(** The cards that the panel showed in the passes before pass [n], in the
    order in which the loop met them. *)
Definition shown (pane : Pane) (n : nat) : list WebElement :=
  flat_map (fun k => match pane_find_cards pane k with
                     | Ok cards => cards
                     | Raise _ => []
                     end) (seq 0 n).

(** The closed form of the percentage written with [n] reviews found. *)
Definition scroll_percentage (n : nat) : Z := 60 + Z.min (Z.of_nat n / 5) 30.

Section LoopVocabulary.

Variable from_card : WebElement -> result RawReview.
Variable company : pystr.

(** Modelled from the spec: what [RawReview.from_card] (of
    [modules/models.py], not among the sources) puts in [id], the "stable
    identifier scraped from the DOM card attribute": the [id] of the
    record is the card's [data-review-id] attribute. *)
Definition id_contract : Prop :=
  forall card r,
    from_card card = Ok r ->
    el_get_attribute card DATA_REVIEW_ID = Ok (Some (id r)).

(** The record parsed from the first card, among [cards], that carries
    the non-empty identifier [k] and that [from_card] could parse. *)
Fixpoint first_parsed (k : pystr) (cards : list WebElement)
  : option RawReview :=
  match cards with
  | [] => None
  | card :: cards' =>
      match el_get_attribute card DATA_REVIEW_ID, from_card card with
      | Ok (Some rid), Ok r =>
          if truthy rid && bool_decide (rid = k) then Some r
          else first_parsed k cards'
      | _, _ => first_parsed k cards'
      end
  end.

(** [seen] is the key set of [docs], and no key occurs twice. *)
Definition consistent (st : session) : Prop :=
  NoDup (keys (docs st)) /\ seen st = list_to_set (keys (docs st)).

(** [docs] holds, for every identifier, the first record parsed for it
    among [cards], with the company name filled in. *)
Definition records (st : session) (cards : list WebElement) : Prop :=
  forall k,
    dict_get k (docs st)
    = option_map (fun r => set_company_name r company) (first_parsed k cards).

(** The session after a card was inserted. *)
Definition inserted (st : session) (r : RawReview) : session :=
  {| docs := dict_set (id r) (set_company_name r company) (docs st);
     seen := {[ id r ]} ∪ seen st |}.

End LoopVocabulary.

(** A browser that starts, and whose every call fails. *)
Definition dead_driver : Driver :=
  {| drv_get := Raise WebDriverException;
     drv_wait_body := Raise TimeoutException;
     drv_wait_presence := fun _ => Raise TimeoutException;
     drv_wait_all_present := fun _ => Raise TimeoutException;
     drv_wait_clickable := fun _ => Raise TimeoutException;
     drv_find_elements := fun _ => Raise WebDriverException;
     drv_title := Raise WebDriverException;
     drv_wait_pane := Raise TimeoutException |}.

(** A rendered card: its identifier attribute and its text. *)
Definition sample_card (rid body : pystr) : WebElement :=
  mkWebElement (Ok body)
    (fun attr => if bool_decide (attr = DATA_REVIEW_ID) then Ok (Some rid)
                 else Ok None)
    (fun _ => Ok []) (fun _ => Raise NoSuchElementException) (Ok tt).

(** A card that went stale: every call on it raises. *)
Definition stale_card : WebElement :=
  mkWebElement (Raise StaleElementReferenceException)
    (fun _ => Raise StaleElementReferenceException)
    (fun _ => Raise StaleElementReferenceException)
    (fun _ => Raise StaleElementReferenceException)
    (Raise StaleElementReferenceException).

(** A parser that reads the identifier attribute and the text. *)
Definition sample_from_card (card : WebElement) : result RawReview :=
  match el_get_attribute card DATA_REVIEW_ID, el_text card with
  | Ok (Some rid), Ok body =>
      Ok {| id := rid; company_name := []; author_name := []; text := body;
            rating := 0; published_at := [] |}
  | Raise e, _ => Raise e
  | _, Raise e => Raise e
  | Ok None, _ => Raise ValueError
  end.

(** The panel of the spec's end-to-end scenario: cards A, B, C in the
    first pass (with a stale card among them), C again (re-rendered with
    another text) and D in the second, nothing afterwards. *)
Definition sample_pane : Pane :=
  {| pane_find_cards := fun pass =>
       match pass with
       | 0%nat => Ok [sample_card (py "A") (py "first"); sample_card (py "B") (py "b");
                      stale_card; sample_card (py "C") (py "c")]
       | 1%nat => Ok [sample_card (py "C") (py "changed"); sample_card (py "D") (py "d")]
       | _ => Ok []
       end;
     pane_scroll := fun _ => Ok tt |}.

(** A card that cannot add an identifier to the session [st]: it is
    stale, it has no identifier, or its identifier was seen. *)
Definition unproductive (from_card : WebElement -> result RawReview)
    (st : session) (card : WebElement) : Prop :=
  match el_get_attribute card DATA_REVIEW_ID with
  | Raise e => e = StaleElementReferenceException
  | Ok rid =>
      skip_card rid st = true \/
      from_card card = Raise StaleElementReferenceException
  end.

(** From pass [from_pass] on, scrolling works and the panel shows nothing
    new for the session [st]. *)
Definition stalled (from_card : WebElement -> result RawReview) (pane : Pane)
    (st : session) (from_pass : nat) : Prop :=
  forall k, (from_pass <= k)%nat ->
    exists cards,
      pane_find_cards pane k = Ok cards /\
      Forall (unproductive from_card st) cards /\
      pane_scroll pane k = Ok tt.

(** The trace of [n] passes that find nothing. *)
Definition idle_passes (n : nat) : list event :=
  concat (repeat [EvScroll; EvSleep 1500] n).

(** A panel that shows, for ever, a stale card and a card without
    identifier. *)
Definition idle_pane : Pane :=
  {| pane_find_cards := fun _ => Ok [stale_card; sample_card [] (py "x")];
     pane_scroll := fun _ => Ok tt |}.

(** The percentages of a trace never decrease and lie between [lo] and
    [hi]. *)
Definition within (lo hi : Z) (t : list event) : Prop :=
  StronglySorted Z.le (percentages t) /\
  Forall (fun p => lo <= p <= hi) (percentages t).

(** During the loop the percentages start at the value for the current
    size of the map, and a step that returns leaves them at most at the
    value for the new size. *)
Definition loop_step_ok {A} (st : session) (m : run A) (after : A -> session) : Prop :=
  within (scroll_percentage (length (docs st))) 90 (fst m) /\
  forall a, snd m = Some (Ok a) ->
    (length (docs st) <= length (docs (after a)))%nat /\
    Forall (fun p => p <= scroll_percentage (length (docs (after a))))
      (percentages (fst m)).

(** * Vocabulary of the further properties *)

(** An effect of the session itself: anything but the start and the quit
    of the browser, which belong to the retry supervisor. *)
Definition session_event (ev : event) : Prop :=
  ev <> EvStartDriver /\ ev <> EvQuitDriver.

(** The entry [kv] of the result map was made from one of [cards]: it is
    the record that [from_card] parsed from it, under its own [id], with
    the company name filled in. *)
Definition entry_from (from_card : WebElement -> result RawReview)
    (company : pystr) (cards : list WebElement)
    (kv : pystr * RawReview) : Prop :=
  exists card r,
    In card cards /\ from_card card = Ok r /\
    kv = (id r, set_company_name r company).

(** The four words of [REVIEW_WORDS], in the order of the source text. *)
Definition REVIEW_WORDS : list pystr :=
  [py "reviews"; py "review"; py "ratings"; py "rating"].

(** A button whose label is "Reviews". *)
Definition reviews_button : WebElement :=
  mkWebElement (Ok (py "Reviews")) (fun _ => Ok None) (fun _ => Ok [])
    (fun _ => Raise NoSuchElementException) (Ok tt).

(** A heading with the listing name. *)
Definition name_heading : WebElement :=
  mkWebElement (Ok (py " Cafe ")) (fun _ => Ok None) (fun _ => Ok [])
    (fun _ => Raise NoSuchElementException) (Ok tt).

(** A browser in which everything is found, there is no cookie banner,
    and the reviews panel is [sample_pane]. *)
Definition sample_driver : Driver :=
  {| drv_get := Ok tt;
     drv_wait_body := Ok tt;
     drv_wait_presence := fun _ => Ok name_heading;
     drv_wait_all_present := fun _ => Ok [reviews_button];
     drv_wait_clickable := fun _ => Raise TimeoutException;
     drv_find_elements := fun _ => Ok [];
     drv_title := Ok (py "Cafe - Google Maps");
     drv_wait_pane := Ok sample_pane |}.

(** Where [_get_company_name] can have taken [name] from: the constant
    "Unknown Company"; the trimmed, non-empty text of the element found
    for one of [selectors]; or what comes before " - Google Maps" in the
    page title, trimmed. *)
Definition name_source (d : Driver) (selectors : list pystr)
    (name : pystr) : Prop :=
  name = UNKNOWN_COMPANY \/
  (exists selector element t,
      In selector selectors /\
      drv_wait_presence d selector = Ok element /\
      el_text element = Ok t /\ name = strip t /\ truthy name = true) \/
  (exists title,
      drv_title d = Ok title /\
      contains GOOGLE_MAPS_SUFFIX title = true /\
      name = strip (before GOOGLE_MAPS_SUFFIX title)).

(** No selector leads to a reviews tab: each wait times out, or finds
    only elements that [is_reviews_tab] rejects. *)
Definition no_reviews_tab (review_words : list pystr) (d : Driver) : Prop :=
  forall selector,
    match drv_wait_all_present d selector with
    | Ok elements =>
        Forall (fun element => is_reviews_tab review_words element = Ok false)
          elements
    | Raise e => e = TimeoutException
    end.

(** A card that the loop can process: reading its identifier and parsing
    it either work or fail with a staleness error. *)
Definition card_ok (from_card : WebElement -> result RawReview)
    (card : WebElement) : Prop :=
  (forall e, el_get_attribute card DATA_REVIEW_ID = Raise e ->
             e = StaleElementReferenceException) /\
  (forall e, from_card card = Raise e -> e = StaleElementReferenceException).

(** In every pass the panel answers with cards that the loop can
    process, and the scrolling script works. *)
Definition pane_ok (from_card : WebElement -> result RawReview)
    (pane : Pane) : Prop :=
  forall k, exists cards,
    pane_find_cards pane k = Ok cards /\ pane_scroll pane k = Ok tt /\
    Forall (card_ok from_card) cards.

(** Every identifier that a card of the panel ever carries is in
    [universe]: the listing has finitely many reviews. *)
Definition ids_within (pane : Pane) (universe : list pystr) : Prop :=
  forall k cards card rid,
    pane_find_cards pane k = Ok cards -> In card cards ->
    el_get_attribute card DATA_REVIEW_ID = Ok (Some rid) ->
    In rid universe.

(** A parser whose records carry another identifier than the card's
    attribute: it prefixes it with "r". *)
Definition prefixing_from_card (card : WebElement) : result RawReview :=
  match sample_from_card card with
  | Ok r => Ok {| id := py "r" ++ id r; company_name := company_name r;
                  author_name := author_name r; text := text r;
                  rating := rating r; published_at := published_at r |}
  | Raise e => Raise e
  end.

(** A panel that shows the same single card in every pass. *)
Definition one_card_pane : Pane :=
  {| pane_find_cards := fun _ => Ok [sample_card (py "A") (py "a")];
     pane_scroll := fun _ => Ok tt |}.

(** An element that [click_if] can click in its loop: it is displayed
    and enabled, and the click goes through. *)
Definition clickable (element : Control) : Prop :=
  ctl_is_displayed element = Ok true /\
  ctl_is_enabled element = Ok true /\
  ctl_click element = Ok tt.

(** A run of digits ends at [rest]: the text ends there, or goes on with
    something that is not a decimal digit. *)
Definition ends_run (rest : pystr) : Prop :=
  match rest with
  | [] => True
  | c :: _ => is_decimal c = false
  end.

(** A directory part of an object key: empty, or ending with a slash. *)
Definition directory (dir : pystr) : Prop :=
  dir = [] \/ exists dir', dir = dir' ++ [ReportNames.SLASH].

(** A job identifier as [str(uuid.uuid4())] makes them. *)
Definition sample_job_id : pystr := py "3f2b8c1e-9d4a-4e7b-8a55-0c1d2e3f4a5b".

(** No mapping inside [v] (outside sequences) has a key twice: what a
    Python [dict] guarantees. *)
Fixpoint unique_keys (v : Config.value) : Prop :=
  match v with
  | Config.VDict d =>
      NoDup (Config.keys d) /\
      (fix all (d : list (pystr * Config.value)) : Prop :=
         match d with
         | [] => True
         | (_, v') :: d' => unique_keys v' /\ all d'
         end) d
  | _ => True
  end.

(** A user configuration: another database and a new section. *)
Definition sample_user_config : Config.dict :=
  [(py "mongodb", Config.VDict [(py "database", Config.VStr (py "cafes"))]);
   (py "use_s3", Config.VBool true);
   (py "headless", Config.VBool false);
   (py "s3", Config.VDict [(py "bucket_name", Config.VStr (py "reports"))])].

(** The statements about S3 raise: in the constructor of the handler,
    or, with the handler enabled, when the local file is written or
    removed. *)
Definition s3_fails (s3 : AppBackend.s3_run) : bool :=
  match AppBackend.handler s3 with
  | AppBackend.HandlerRaises => true
  | AppBackend.HandlerDisabled => false
  | AppBackend.HandlerEnabled =>
      negb (AppBackend.dump_ok s3) || negb (AppBackend.unlink_ok s3)
  end.

(** The report is uploaded and its address is [url]. *)
Definition s3_uploads (s3 : AppBackend.s3_run) (url : pystr) : Prop :=
  AppBackend.handler s3 = AppBackend.HandlerEnabled /\
  AppBackend.dump_ok s3 = true /\
  AppBackend.upload_answer s3 = Some url /\ truthy url = true.

(** The reviews of a report, each with its prediction. *)
Definition with_predictions (choices : nat -> AppBackend.prediction)
    (reviews : list RawReview)
  : list (RawReview * AppBackend.prediction) :=
  List.map (fun ir => (snd ir, choices (fst ir)))
    (combine (seq 0 (length reviews)) reviews).

(** No S3 configured. *)
Definition no_s3 : AppBackend.s3_run :=
  {| AppBackend.handler := AppBackend.HandlerDisabled;
     AppBackend.dump_ok := true;
     AppBackend.upload_answer := None;
     AppBackend.unlink_ok := true |}.

(** The report is uploaded, and the local file cannot be removed. *)
Definition s3_unlink_fails : AppBackend.s3_run :=
  {| AppBackend.handler := AppBackend.HandlerEnabled;
     AppBackend.dump_ok := true;
     AppBackend.upload_answer := Some (py "https://reports.example/r.json");
     AppBackend.unlink_ok := false |}.

(** A session that holds [n] reviews already, under identifiers that no
    card of the examples carries. *)
Definition session_of_size (n : nat) : session :=
  let entries :=
    List.map
      (fun i =>
         ([N.of_nat i + 1000]%N,
          {| id := [N.of_nat i + 1000]%N; company_name := py "Cafe";
             author_name := []; text := []; rating := 0;
             published_at := [] |}))
      (seq 0 n) in
  {| docs := entries; seen := list_to_set (List.map fst entries) |}.

(** * Properties *)

(** ** Regression examples, checked against CPython *)

Example ord2ymd_2026_11_04 : Datetime.ord2ymd 739924 = (2026, 11, 4).
Proof. reflexivity. Qed.

Example ord2ymd_leap_day : Datetime.ord2ymd 738945 = (2024, 2, 29).
Proof. reflexivity. Qed.

Example ord2ymd_century : Datetime.ord2ymd 693655 = (1900, 3, 1).
Proof. reflexivity. Qed.

Example ord2ymd_end_of_400_years : Datetime.ord2ymd 146097 = (400, 12, 31).
Proof. reflexivity. Qed.

Example ord2ymd_max : Datetime.ord2ymd 3652059 = (9999, 12, 31).
Proof. reflexivity. Qed.

Example isoformat_with_microseconds :
  Datetime.isoformat sample_now = py "2026-11-04T12:30:15.123456+00:00".
Proof. vm_compute. reflexivity. Qed.

Example parse_three_weeks :
  parse_date_to_iso sample_now (py "3 weeks ago") = py "2026-10-14T12:30:15+00:00".
Proof. vm_compute. reflexivity. Qed.

Example parse_mixed_case :
  parse_date_to_iso sample_now (py "2025 Years Ago") = py "0003-03-10T12:30:15+00:00".
Proof. vm_compute. reflexivity. Qed.

Example strip_both_ends : strip (py "  a b  ") = py "a b".
Proof. vm_compute. reflexivity. Qed.

(** ** Strings *)

Section Strings.

Lemma startswith_app (p post : pystr) : startswith p (p ++ post) = true.
Proof.
    induction p as [|a p IH]; simpl; [reflexivity|].
    rewrite N.eqb_refl. exact IH.
Qed.

Lemma startswith_split (p s : pystr) :
  startswith p s = true -> exists post, s = p ++ post.
Proof.
    revert s. induction p as [|a p IH]; intros s H.
    - exists s. reflexivity.
    - destruct s as [|b s]; simpl in H; [discriminate|].
      apply andb_prop in H as [Hab Hp].
      apply N.eqb_eq in Hab. subst b.
      destruct (IH s Hp) as [post ->]. exists post. reflexivity.
Qed.

Lemma contains_here (needle s : pystr) :
  startswith needle s = true -> contains needle s = true.
Proof. intros H. destruct s; simpl in *; rewrite H; reflexivity. Qed.

Lemma contains_later (needle : pystr) (c : N) (s : pystr) :
  contains needle s = true -> contains needle (c :: s) = true.
Proof. intros H. simpl. rewrite H. apply orb_true_r. Qed.

Lemma contains_app (needle pre post : pystr) :
  contains needle (pre ++ needle ++ post) = true.
Proof.
    induction pre as [|c pre IH]; simpl app.
    - apply contains_here, startswith_app.
    - apply contains_later, IH.
Qed.

Lemma contains_split (needle s : pystr) :
  contains needle s = true -> exists pre post, s = pre ++ needle ++ post.
Proof.
    induction s as [|c s IH]; intros H.
    - simpl in H. rewrite orb_false_r in H.
      destruct (startswith_split _ _ H) as [post Hp].
      exists [], post. exact Hp.
    - simpl in H. apply orb_prop in H as [H|H].
      + destruct (startswith_split _ _ H) as [post Hp].
        exists [], post. exact Hp.
      + destruct (IH H) as (pre & post & ->).
        exists (c :: pre), post. reflexivity.
Qed.

Lemma contains_skip (needle pre s : pystr) :
  contains needle s = true -> contains needle (pre ++ s) = true.
Proof.
    intros H. destruct (contains_split _ _ H) as (a & b & ->).
    rewrite app_assoc. apply contains_app.
Qed.

Lemma lower_app (a b : pystr) : lower (a ++ b) = lower a ++ lower b.
Proof. unfold lower. apply flat_map_app. Qed.

(** A needle that lower-casing leaves alone stays where it is. *)
Lemma contains_lower (needle s : pystr) :
  lower needle = needle ->
  contains needle s = true -> contains needle (lower s) = true.
Proof.
    intros Hn H. destruct (contains_split _ _ H) as (a & b & ->).
    rewrite !lower_app, Hn. apply contains_app.
Qed.

Lemma ascii_digit_decimal (c : N) : ascii_digit c -> is_decimal c = true.
Proof.
    intros [H1 H2]. unfold is_decimal, decimal_zeros. simpl existsb.
    unfold in_block at 1.
    replace (48 <=? c)%N with true by (symmetry; apply N.leb_le; lia).
    replace (c <? 48 + 10)%N with true by (symmetry; apply N.ltb_lt; lia).
    reflexivity.
Qed.

Lemma ascii_digit_value (c : N) :
  ascii_digit c -> decimal_value c = Z.of_N c - 48.
Proof.
    intros [H1 H2]. unfold decimal_value, decimal_zeros. simpl List.find.
    unfold in_block at 1.
    replace (48 <=? c)%N with true by (symmetry; apply N.leb_le; lia).
    replace (c <? 48 + 10)%N with true by (symmetry; apply N.ltb_lt; lia).
    simpl. lia.
Qed.

Lemma ascii_digit_lower (c : N) : ascii_digit c -> lower_char c = [c].
Proof.
    intros [H1 H2]. unfold lower_char.
    replace (c <=? 90)%N with true by (symmetry; apply N.leb_le; lia).
    replace (65 <=? c)%N with false by (symmetry; apply N.leb_gt; lia).
    replace (c =? 304)%N with false by (symmetry; apply N.eqb_neq; lia).
    replace (c =? 8490)%N with false by (symmetry; apply N.eqb_neq; lia).
    reflexivity.
Qed.

Lemma lower_digits (ds : pystr) : Forall ascii_digit ds -> lower ds = ds.
Proof.
    induction 1 as [|c ds Hc _ IH]; [reflexivity|].
    change (lower (c :: ds)) with (lower_char c ++ lower ds).
    rewrite IH, (ascii_digit_lower c Hc). reflexivity.
Qed.

(** Every decimal digit is an ASCII digit or lies far above the ASCII
    letters. *)
Lemma is_decimal_range (c : N) :
  is_decimal c = true -> (48 <= c < 58 \/ 1632 <= c)%N.
Proof.
    unfold is_decimal. intros H.
    apply existsb_exists in H as (z & Hz & Hb).
    unfold in_block in Hb. apply andb_prop in Hb as [Hl Hu].
    apply N.leb_le in Hl. apply N.ltb_lt in Hu.
    assert (Hall : forallb (fun z => (z =? 48) || (1632 <=? z))%N
                     decimal_zeros = true) by (vm_compute; reflexivity).
    rewrite forallb_forall in Hall. specialize (Hall z Hz).
    apply orb_prop in Hall as [Hs|Hbig].
    - apply N.eqb_eq in Hs. lia.
    - apply N.leb_le in Hbig. lia.
Qed.

End Strings.

(** ** The memoised language detector *)

Section LruCacheFacts.

Context {A B : Type} (eqb : A -> A -> bool) (maxsize : nat) (f : A -> B).
Hypothesis eqb_eq : forall a b, eqb a b = true -> a = b.

Lemma cache_get_sound (c : cache) (k : A) (v : B) :
  cache_sound f c -> cache_get eqb k c = Some v -> v = f k.
Proof using eqb_eq.
    induction 1 as [|[k' v'] c Hkv _ IH]; simpl; [discriminate|].
    destruct (eqb k k') eqn:E.
    - intros [= <-]. apply eqb_eq in E. subst k'. exact Hkv.
    - exact IH.
Qed.

Lemma cache_del_sound (c : cache) (k : A) :
  cache_sound f c -> cache_sound f (cache_del eqb k c).
Proof.
    induction 1 as [|[k' v'] c Hkv Hc IH]; simpl; [constructor|].
    destruct (eqb k k'); [exact Hc|]. constructor; assumption.
Qed.

Lemma firstn_sound (n : nat) (c : cache) :
  cache_sound f c -> cache_sound f (firstn n c).
Proof.
    intros H. revert n. induction H as [|kv c Hkv _ IH]; intros [|n]; simpl.
    - constructor.
    - constructor.
    - constructor.
    - constructor; [exact Hkv | apply IH].
Qed.

Lemma lru_call_value (c : cache) (x : A) :
  cache_sound f c -> fst (lru_call eqb maxsize f c x) = f x.
Proof using eqb_eq.
    intros Hc. unfold lru_call.
    destruct (cache_get eqb x c) as [v|] eqn:E; simpl; [|reflexivity].
    eapply cache_get_sound; eassumption.
Qed.

Lemma lru_call_sound (c : cache) (x : A) :
  cache_sound f c -> cache_sound f (snd (lru_call eqb maxsize f c x)).
Proof using eqb_eq.
    intros Hc. unfold lru_call.
    destruct (cache_get eqb x c) as [v|] eqn:E; simpl.
    - constructor; [|apply cache_del_sound, Hc].
      simpl. eapply cache_get_sound; eassumption.
    - apply (firstn_sound _ ((x, f x) :: c)). constructor; [reflexivity|exact Hc].
Qed.

Lemma fold_calls_sound (calls : list A) (c : cache) :
  cache_sound f c ->
  cache_sound f (fold_left (fun c x => snd (lru_call eqb maxsize f c x)) calls c).
Proof using eqb_eq.
    revert c. induction calls as [|x calls IH]; intros c Hc; simpl; [exact Hc|].
    apply IH, lru_call_sound, Hc.
Qed.

Lemma lru_run_sound (calls : list A) : cache_sound f (lru_run eqb maxsize f calls).
Proof using eqb_eq. apply fold_calls_sound. constructor. Qed.

End LruCacheFacts.

Lemma detect_lang_cached_pure (history : list pystr) (txt : pystr) :
  detect_lang_cached history txt = detect_lang txt.
Proof.
  unfold detect_lang_cached. apply lru_call_value.
  - intros a b H. unfold pystr_eqb in H. apply bool_decide_eq_true in H. exact H.
  - apply lru_run_sound.
    intros a b H. unfold pystr_eqb in H. apply bool_decide_eq_true in H. exact H.
Qed.

Lemma existsb_range (lo hi : N) (txt : pystr) :
  existsb (fun c => (lo <=? c) && (c <=? hi))%N txt = true <->
  Exists (fun c => lo <= c <= hi)%N txt.
Proof.
  rewrite existsb_exists, Exists_exists. split.
  - intros (c & Hin & Hc). exists c. apply andb_prop in Hc as [H1 H2].
    apply N.leb_le in H1. apply N.leb_le in H2.
    split; [apply list_elem_of_In; exact Hin | lia].
  - intros (c & Hin & H1 & H2). exists c.
    split; [apply list_elem_of_In; exact Hin|].
    apply andb_true_intro. split; apply N.leb_le; assumption.
Qed.

(** C9. [detect_lang] answers "he" when the text holds a code point of
    U+0590..U+05FF, otherwise "th" when it holds one of U+0E00..U+0E7F,
    otherwise "en" (so for plain ASCII); the answer depends on the text
    alone, whatever calls the cache has served before. *)
Theorem detect_lang_classifies (history : list pystr) (txt : pystr) :
  let hebrew := Exists (fun c => 0x590 <= c <= 0x5FF)%N txt in
  let thai := Exists (fun c => 0xE00 <= c <= 0xE7F)%N txt in
  (hebrew -> detect_lang_cached history txt = py "he") /\
  (~ hebrew -> thai -> detect_lang_cached history txt = py "th") /\
  (~ hebrew -> ~ thai -> detect_lang_cached history txt = py "en") /\
  (Forall (fun c => c < 128)%N txt -> detect_lang_cached history txt = py "en") /\
  detect_lang_cached history txt = detect_lang_cached [] txt.
Proof.
  intros hebrew thai. rewrite !detect_lang_cached_pure.
  unfold detect_lang, HEB_CHARS_search, THAI_CHARS_search.
  pose proof (existsb_range 1424 1535 txt) as Hh.
  pose proof (existsb_range 3584 3711 txt) as Ht.
  change (existsb (fun c => (1424 <=? c) && (c <=? 1535))%N txt)
    with (existsb is_hebrew txt) in Hh.
  change (existsb (fun c => (3584 <=? c) && (c <=? 3711))%N txt)
    with (existsb is_thai txt) in Ht.
  assert (Hen : ~ hebrew -> ~ thai ->
                (if existsb is_hebrew txt then py "he"
                 else if existsb is_thai txt then py "th" else py "en") = py "en").
  { intros Hnh Hnt.
    destruct (existsb is_hebrew txt); [exfalso; apply Hnh, Hh; reflexivity|].
    destruct (existsb is_thai txt); [exfalso; apply Hnt, Ht; reflexivity|].
    reflexivity. }
  repeat split.
  - intros H. apply Hh in H. rewrite H. reflexivity.
  - intros Hnh H. apply Ht in H. rewrite H.
    destruct (existsb is_hebrew txt); [exfalso; apply Hnh, Hh; reflexivity|].
    reflexivity.
  - exact Hen.
  - intros Hascii. apply Hen.
    + intros H. apply Exists_exists in H as (c & Hin & Hc).
      rewrite Forall_forall in Hascii. specialize (Hascii c Hin). lia.
    + intros H. apply Exists_exists in H as (c & Hin & Hc).
      rewrite Forall_forall in Hascii. specialize (Hascii c Hin). lia.
Qed.

Lemma detect_lang_classifies_witness :
  detect_lang_cached [py "shalom"] [1513; 1500; 1493; 1501]%N = py "he" /\
  detect_lang_cached [[1513%N]] [3626; 3623; 97]%N = py "th" /\
  detect_lang_cached [] (py "great food") = py "en".
Proof.
  split; [|split].
  - destruct (detect_lang_classifies [py "shalom"] [1513; 1500; 1493; 1501]%N)
      as (Hhe & _).
    apply Hhe. apply Exists_cons_hd. lia.
  - destruct (detect_lang_classifies [[1513%N]] [3626; 3623; 97]%N)
      as (_ & Hth & _).
    apply Hth.
    + intros H. apply Exists_exists in H as (c & Hin & Hc).
      repeat (apply elem_of_cons in Hin as [->|Hin]; [lia|]).
      inversion Hin.
    + apply Exists_cons_hd. lia.
  - destruct (detect_lang_classifies [] (py "great food"))
      as (_ & _ & _ & Hen & _).
    apply Hen. vm_compute py. repeat (constructor; [lia|]). constructor.
Defined.

(** ** Relative dates *)

Section RelativeDates.

Import Datetime.

Lemma zero_pad_nonempty (w : nat) (n : Z) : zero_pad (S w) n <> [].
Proof. simpl. intros H. apply app_eq_nil in H as [_ H]. discriminate. Qed.

Lemma isoformat_nonempty (dt : datetime) : isoformat dt <> [].
Proof.
    unfold isoformat. destruct (ord2ymd _) as [[y m] d].
    intros H. apply app_eq_nil in H as [H _].
    exact (zero_pad_nonempty _ _ H).
Qed.

(** Truncation to whole seconds loses less than a second. *)
Lemma replace_microsecond_0_close (dt : datetime) :
  0 <= dt - replace_microsecond_0 dt < US_PER_SECOND.
Proof.
    unfold replace_microsecond_0.
    pose proof (Z.mod_pos_bound dt US_PER_SECOND) as H.
    unfold US_PER_SECOND in *. lia.
Qed.

Lemma take_digits_prefix (ds : pystr) (c : N) (rest : pystr) :
  Forall ascii_digit ds -> is_decimal c = false ->
  take_digits (ds ++ c :: rest) = ds.
Proof.
    intros Hds Hc. induction Hds as [|d ds Hd _ IH]; simpl.
    - rewrite Hc. reflexivity.
    - rewrite (ascii_digit_decimal d Hd), IH. reflexivity.
Qed.

Lemma search_digits_prefix (ds : pystr) (c : N) (rest : pystr) :
  ds <> [] -> Forall ascii_digit ds -> is_decimal c = false ->
  search_digits (ds ++ c :: rest) = Some ds.
Proof.
    intros Hne Hds Hc. destruct ds as [|d ds]; [contradiction|].
    pose proof (take_digits_prefix (d :: ds) c rest Hds Hc) as Ht.
    inversion Hds as [|? ? Hd _]; subst.
    simpl in *. rewrite (ascii_digit_decimal d Hd) in *.
    f_equal. exact Ht.
Qed.

Lemma search_digits_none (s : pystr) :
  Forall (fun c => is_decimal c = false) s -> search_digits s = None.
Proof.
    induction 1 as [|c s Hc _ IH]; simpl; [reflexivity|].
    rewrite Hc. exact IH.
Qed.

Lemma lower_char_no_decimal (c : N) :
  is_decimal c = false -> Forall (fun c => is_decimal c = false) (lower_char c).
Proof.
    intros Hc. unfold lower_char.
    destruct ((65 <=? c) && (c <=? 90))%N eqn:E.
    - apply andb_prop in E as [E1 E2].
      apply N.leb_le in E1. apply N.leb_le in E2.
      constructor; [|constructor].
      destruct (is_decimal (c + 32)) eqn:D; [|reflexivity].
      apply is_decimal_range in D. lia.
    - destruct (c =? 304)%N; [repeat constructor|].
      destruct (c =? 8490)%N; [repeat constructor|].
      constructor; [exact Hc|constructor].
Qed.

Lemma lower_no_decimal (s : pystr) :
  Forall (fun c => is_decimal c = false) s ->
  Forall (fun c => is_decimal c = false) (lower s).
Proof.
    induction 1 as [|c s Hc _ IH]; [constructor|].
    change (lower (c :: s)) with (lower_char c ++ lower s).
    apply Forall_app. split; [apply lower_char_no_decimal, Hc | exact IH].
Qed.

(** A word that starts with a letter cannot start inside a run of
    digits. *)
Lemma contains_after_digits (a : N) (w ds rest : pystr) :
  Forall ascii_digit ds -> ~ ascii_digit a ->
  contains (a :: w) (ds ++ rest) = contains (a :: w) rest.
Proof.
    intros Hds Ha. induction Hds as [|d ds Hd _ IH]; [reflexivity|].
    simpl app. simpl contains at 1. rewrite IH.
    replace (a =? d)%N with false; [reflexivity|].
    symmetry. apply N.eqb_neq. intros ->. exact (Ha Hd).
Qed.

Lemma first_unit_after_digits (ds rest : pystr) :
  Forall ascii_digit ds -> first_unit (ds ++ rest) = first_unit rest.
Proof.
    intros Hds. unfold first_unit, units. cbn [List.find].
    assert (H : forall u, contains (word u) (ds ++ rest) = contains (word u) rest).
    { intros u. destruct u; apply contains_after_digits; try exact Hds;
        unfold ascii_digit; vm_compute; intros [H1 H2];
        first [ now apply H1 | now apply H2 ]. }
    rewrite !H. reflexivity.
Qed.

Lemma first_unit_found (u0 : unit_word) (s : pystr) :
  contains (word u0) s = true -> exists u, first_unit s = Some u.
Proof.
    intros H. unfold first_unit.
    destruct (List.find _ units) as [u|] eqn:E; [exists u; reflexivity|].
    pose proof (find_none _ _ E u0) as Hn. simpl in Hn.
    rewrite H in Hn. discriminate Hn.
    destruct u0; simpl; tauto.
Qed.

Lemma duration_one_bound (u : unit_word) : 0 <= duration u 1 <= 365 * US_PER_DAY.
Proof. destruct u; vm_compute; split; discriminate. Qed.

Lemma duration_nonneg (u : unit_word) (n : Z) : 0 <= n -> 0 <= duration u n.
Proof.
    intros H. destruct u; unfold duration, US_PER_WEEK, US_PER_DAY, US_PER_HOUR,
      US_PER_MINUTE, US_PER_SECOND; lia.
Qed.

Lemma digits_value_nonneg (ds : pystr) : 0 <= digits_value ds.
Proof.
    unfold digits_value.
    assert (H : forall acc, 0 <= acc ->
              0 <= fold_left (fun acc c => 10 * acc + decimal_value c) ds acc).
    { induction ds as [|d ds IH]; intros acc Hacc; simpl; [exact Hacc|].
      apply IH. unfold decimal_value.
      destruct (List.find _ _); lia. }
    apply H. lia.
Qed.

(** [int()] of a run of ASCII digits is the number they write. *)
Lemma digits_value_ascii (ds : pystr) :
  Forall ascii_digit ds -> digits_value ds = ascii_number ds.
Proof.
    intros H. unfold digits_value, ascii_number. generalize 0.
    induction H as [|c ds Hc _ IH]; intros acc; [reflexivity|].
    cbn [fold_left]. rewrite (ascii_digit_value c Hc). apply IH.
Qed.

(** The [timedelta] of [n] units is [n] times the unit of the spec. *)
Lemma duration_unit (u : unit_word) (n : Z) :
  duration u n = n * unit_microseconds u.
Proof.
    destruct u; unfold duration, unit_microseconds, US_PER_WEEK, US_PER_DAY,
      US_PER_HOUR, US_PER_MINUTE, US_PER_SECOND; lia.
Qed.

(** The first element that [List.find] accepts: it rejects all those
    before it. *)
Lemma find_first {A} (f : A -> bool) (l : list A) (x : A) :
  List.find f l = Some x ->
  exists l1 l2,
    l = l1 ++ x :: l2 /\ Forall (fun y => f y = false) l1 /\ f x = true.
Proof.
    induction l as [|a l IH]; cbn [List.find]; [discriminate|].
    destruct (f a) eqn:E.
    - intros [= <-]. exists [], l. split; [reflexivity|].
      split; [constructor | exact E].
    - intros H. destruct (IH H) as (l1 & l2 & -> & Hl1 & Hx).
      exists (a :: l1), l2. split; [reflexivity|].
      split; [constructor; assumption | exact Hx].
Qed.

(** Subtracting a span that leaves a representable date succeeds. *)
Lemma sub_timedelta_ok (now : datetime) (span : Z) :
  valid_now now -> 0 <= span <= now ->
  timedelta span = Ok span /\ sub now span = Ok (now - span).
Proof.
    intros [Hlo Hhi] [H0 Hs]. unfold timedelta, sub, in_range.
    assert (Hd : 0 <= span / US_PER_DAY <= 3652059).
    { split; [apply Z.div_pos; [lia | reflexivity]|].
      apply Z.div_le_upper_bound; [reflexivity|].
      unfold MAXORDINAL, US_PER_DAY, US_PER_HOUR, US_PER_MINUTE, US_PER_SECOND in *.
      lia. }
    replace (999999999 <? Z.abs (span / US_PER_DAY)) with false
      by (symmetry; apply Z.ltb_ge; lia).
    replace (0 <=? now - span) with true by (symmetry; apply Z.leb_le; lia).
    replace (now - span <? MAXORDINAL * US_PER_DAY) with true
      by (symmetry; apply Z.ltb_lt; lia).
    split; reflexivity.
Qed.

(** Subtracting a span that reaches before year 1 raises. *)
Lemma sub_timedelta_overflow (now : datetime) (span : Z) :
  now < span ->
  match timedelta span with
  | Ok td => sub now td
  | Raise e => Raise e
  end = Raise OverflowError.
Proof.
    intros H. unfold timedelta, sub, in_range.
    destruct (999999999 <? Z.abs (span / US_PER_DAY)); [reflexivity|].
    replace (0 <=? now - span) with false by (symmetry; apply Z.leb_gt; lia).
    reflexivity.
Qed.

End RelativeDates.

Section ParseDate.

Import Datetime.

Lemma relative_phrase_facts (ds : pystr) (u : unit_word) (plural : bool) :
  ds <> [] -> Forall ascii_digit ds ->
  let s := relative_phrase ds u plural in
  truthy s = true /\ lower s = s /\ contains (py "ago") s = true /\
  search_digits s = Some ds /\ first_unit s = Some u.
Proof.
    intros Hne Hds s. subst s. unfold relative_phrase. repeat split.
    - destruct ds; [contradiction|reflexivity].
    - rewrite lower_app, (lower_digits ds Hds). f_equal.
      destruct u, plural; reflexivity.
    - apply contains_skip. destruct u, plural; reflexivity.
    - apply (search_digits_prefix ds 32%N); [exact Hne|exact Hds|reflexivity].
    - rewrite (first_unit_after_digits ds _ Hds).
      destruct u, plural; reflexivity.
Qed.

Lemma matches_contains_ago (s : pystr) :
  matches_relative_date s -> contains (py "ago") s = true.
Proof.
    intros (ds & u & plural & Hne & Hds & ->).
    apply (relative_phrase_facts ds u plural Hne Hds).
Qed.

(** C3, as stated, fails: "gibberish" is not a relative date, and the
    caller gets the current time, not the empty string. *)
Lemma parse_gibberish_surfaces_now :
  ~ matches_relative_date (py "gibberish") /\
  parse_date_to_iso sample_now (py "gibberish")
    = py "2026-11-04T12:30:15+00:00" /\
  parse_date_to_iso sample_now (py "gibberish") <> [].
Proof.
    split; [|split].
    - intros H. apply matches_contains_ago in H. vm_compute in H. discriminate H.
    - vm_compute. reflexivity.
    - vm_compute. discriminate.
Qed.

(** C3, amended.  [parse_date_to_iso] never raises: it answers a string.
    That string is empty for the empty input.  For a non-empty input
    without "ago" (in any case), such as "gibberish", and for one with
    "ago" but no unit word (and no over-long number), it is the ISO-8601
    form of the current time cut to whole seconds, which is not empty:
    the default date is what the caller sees. *)
Theorem parse_date_unrecognised (now : datetime) (s : pystr) :
  (s = [] -> parse_date_to_iso now s = []) /\
  (s <> [] -> contains (py "ago") (lower s) = false ->
     parse_date_to_iso now s = isoformat (replace_microsecond_0 now)) /\
  (s <> [] -> first_unit (lower s) = None ->
     (forall ds, search_digits (lower s) = Some ds ->
                 (length ds <= int_max_str_digits)%nat) ->
     parse_date_to_iso now s = isoformat (replace_microsecond_0 now)) /\
  isoformat (replace_microsecond_0 now) <> [].
Proof.
    repeat split.
    - intros ->. reflexivity.
    - intros Hne Hago. destruct s as [|c s]; [contradiction|].
      unfold parse_date_to_iso, parse_date_body. cbn [truthy negb].
      rewrite Hago. reflexivity.
    - intros Hne Hunit Hlen. destruct s as [|c s]; [contradiction|].
      unfold parse_date_to_iso, parse_date_body. cbn [truthy negb].
      destruct (contains (py "ago") (lower (c :: s))); [|reflexivity].
      rewrite Hunit.
      destruct (search_digits (lower (c :: s))) as [ds|]; [|reflexivity].
      unfold int_of_digits. specialize (Hlen ds eq_refl).
      replace (int_max_str_digits <? length ds)%nat with false; [reflexivity|].
      symmetry. apply Nat.ltb_ge. exact Hlen.
    - apply isoformat_nonempty.
Qed.

Lemma parse_date_unrecognised_witness :
  parse_date_to_iso sample_now (py "gibberish")
    = isoformat (replace_microsecond_0 sample_now) /\
  parse_date_to_iso sample_now (py "long ago")
    = isoformat (replace_microsecond_0 sample_now) /\
  parse_date_to_iso sample_now [] = [].
Proof.
    split; [|split].
    - destruct (parse_date_unrecognised sample_now (py "gibberish"))
        as (_ & H & _).
      apply H; [discriminate | reflexivity].
    - destruct (parse_date_unrecognised sample_now (py "long ago"))
        as (_ & _ & H & _).
      apply H; [discriminate | reflexivity |].
      intros ds Hds. vm_compute in Hds. discriminate Hds.
    - destruct (parse_date_unrecognised sample_now []) as (H & _).
      apply H. reflexivity.
Defined.

(** C7, as stated, fails: "3000 years ago" has the form, but the code
    answers the empty string, because the date lies before year 1. *)
Lemma parse_3000_years_ago_empty :
  matches_relative_date (py "3000 years ago") /\
  parse_date_to_iso sample_now (py "3000 years ago") = [] /\
  parse_date_to_iso sample_now (py "3000 years ago")
    <> isoformat
         (replace_microsecond_0 (sample_now - 3000 * unit_microseconds Year)).
Proof.
    split; [|split].
    - exists (py "3000"), Year, true. split; [discriminate|]. split; [|reflexivity].
      vm_compute py. repeat (constructor; [unfold ascii_digit; lia|]). constructor.
    - vm_compute. reflexivity.
    - intros H. symmetry in H. revert H.
      replace (parse_date_to_iso sample_now (py "3000 years ago")) with (@nil N)
        by (vm_compute; reflexivity).
      apply isoformat_nonempty.
Qed.

(** C7, amended.  For an input [<integer> <unit> ago] (an integer of at
    most 4300 digits), when [now] minus the integer times the unit
    duration is a representable date, [parse_date_to_iso] answers its
    ISO-8601 form cut to whole seconds, less than one second before that
    instant.  The integer is the number that the digits write, and the
    unit durations are those of the spec: 60 seconds, 3600 seconds, one
    day, 7 days, 30 days for a month and 365 days for a year.  When that
    instant lies before year 1 it answers the empty string. *)
Theorem parse_relative_phrase (now : datetime) (ds : pystr) (u : unit_word)
    (plural : bool) :
  valid_now now -> ds <> [] -> Forall ascii_digit ds ->
  (length ds <= int_max_str_digits)%nat ->
  let target := now - ascii_number ds * unit_microseconds u in
  (0 <= target ->
     parse_date_to_iso now (relative_phrase ds u plural)
       = isoformat (replace_microsecond_0 target) /\
     0 <= target - replace_microsecond_0 target < 1000000 /\
     replace_microsecond_0 target mod 1000000 = 0) /\
  (target < 0 -> parse_date_to_iso now (relative_phrase ds u plural) = []) /\
  unit_microseconds Month = 30 * unit_microseconds Day /\
  unit_microseconds Year = 365 * unit_microseconds Day.
Proof.
    intros Hnow Hne Hds Hlen target.
    destruct (relative_phrase_facts ds u plural Hne Hds)
      as (Ht & Hl & Hago & Hdig & Hunit).
    assert (Hparse : parse_date_body now (relative_phrase ds u plural) =
              match match timedelta (duration u (digits_value ds)) with
                    | Ok td => sub now td
                    | Raise e => Raise e
                    end with
              | Ok dt => Ok (isoformat (replace_microsecond_0 dt))
              | Raise e => Raise e
              end).
    { unfold parse_date_body. rewrite Hl, Hago, Hdig, Hunit.
      unfold int_of_digits.
      replace (int_max_str_digits <? length ds)%nat with false
        by (symmetry; apply Nat.ltb_ge; exact Hlen).
      reflexivity. }
    unfold parse_date_to_iso. rewrite Ht, Hparse. cbn [negb].
    pose proof (duration_nonneg u _ (digits_value_nonneg ds)) as Hd0.
    assert (Htarget_eq : target = now - duration u (digits_value ds)).
    { subst target. rewrite duration_unit, (digits_value_ascii ds Hds).
      reflexivity. }
    split; [|split; [|split; reflexivity]].
    - intros Htarget.
      destruct (sub_timedelta_ok now (duration u (digits_value ds)) Hnow)
        as [-> ->]; [lia|].
      rewrite <- Htarget_eq.
      split; [reflexivity|]. split.
      + exact (replace_microsecond_0_close target).
      + unfold replace_microsecond_0, US_PER_SECOND.
        rewrite Zminus_mod, Z.mod_mod, Z.sub_diag by lia. reflexivity.
    - intros Htarget. rewrite sub_timedelta_overflow; [reflexivity | lia].
Qed.

Lemma parse_relative_phrase_witness :
  parse_date_to_iso sample_now (py "3 weeks ago")
    = isoformat (replace_microsecond_0 (sample_now - 21 * 86400 * 1000000)) /\
  parse_date_to_iso sample_now (py "3 weeks ago")
    = py "2026-10-14T12:30:15+00:00" /\
  0 <= (sample_now - 21 * 86400 * 1000000)
       - replace_microsecond_0 (sample_now - 21 * 86400 * 1000000) < 1000000.
Proof.
    assert (Hnow : valid_now sample_now)
      by (vm_compute; split; [discriminate | reflexivity]).
    assert (Hds : Forall ascii_digit (py "3")).
    { vm_compute py. repeat (constructor; [unfold ascii_digit; lia|]). constructor. }
    assert (Hlen : (length (py "3") <= int_max_str_digits)%nat)
      by (vm_compute; lia).
    assert (Hne : py "3" <> []) by discriminate.
    destruct (parse_relative_phrase sample_now (py "3") Week true
                Hnow Hne Hds Hlen) as (H & _).
    destruct H as (H1 & H2 & _); [vm_compute; discriminate|].
    change (relative_phrase (py "3") Week true) with (py "3 weeks ago") in H1.
    change (sample_now - ascii_number (py "3") * unit_microseconds Week)
      with (sample_now - 21 * 86400 * 1000000) in H1, H2.
    split; [exact H1|]. split; [|exact H2].
    rewrite H1. vm_compute. reflexivity.
Defined.

(** C10.  An input that contains "ago" and a unit word but no decimal
    digit is read as one unit: the answer is the ISO-8601 form, cut to
    whole seconds, of [now] minus 60 seconds, 3600 seconds, one day, 7
    days, 30 days or 365 days, for the first of minute, hour, day, week,
    month and year, in that order, whose word occurs in the lower-cased
    input; it is not the empty string. *)
Theorem parse_date_defaults_to_one (now : datetime) (s : pystr)
    (u0 : unit_word) :
  valid_now now ->
  contains (py "ago") s = true ->
  contains (word u0) s = true ->
  Forall (fun c => is_decimal c = false) s ->
  exists u earlier later,
    [Minute; Hour; Day; Week; Month; Year] = earlier ++ u :: later /\
    Forall (fun u' => contains (word u') (lower s) = false) earlier /\
    contains (word u) (lower s) = true /\
    first_unit (lower s) = Some u /\
    parse_date_to_iso now s
      = isoformat (replace_microsecond_0 (now - unit_microseconds u)) /\
    0 <= (now - unit_microseconds u)
         - replace_microsecond_0 (now - unit_microseconds u) < 1000000 /\
    parse_date_to_iso now s <> [].
Proof.
    intros Hnow Hago Hword Hnodigit.
    assert (Hago' : contains (py "ago") (lower s) = true)
      by (apply contains_lower; [reflexivity | exact Hago]).
    assert (Hword' : contains (word u0) (lower s) = true)
      by (apply contains_lower; [destruct u0; reflexivity | exact Hword]).
    destruct (first_unit_found u0 _ Hword') as [u Hu].
    destruct (find_first _ _ _ Hu) as (earlier & later & Hsplit & Hearlier & Hin).
    exists u, earlier, later.
    assert (Hs : truthy s = true).
    { destruct s; [vm_compute in Hago; discriminate Hago | reflexivity]. }
    assert (Heq : parse_date_to_iso now s
                  = isoformat (replace_microsecond_0 (now - unit_microseconds u))).
    { unfold parse_date_to_iso, parse_date_body. rewrite Hs. cbn [negb].
      rewrite Hago', (search_digits_none _ (lower_no_decimal s Hnodigit)), Hu.
      pose proof (duration_one_bound u) as Hb.
      destruct (sub_timedelta_ok now (duration u 1) Hnow) as [-> ->].
      - destruct Hnow as [Hlo _]. unfold unix_epoch in Hlo.
        unfold US_PER_DAY, US_PER_HOUR, US_PER_MINUTE, US_PER_SECOND in Hb. lia.
      - rewrite duration_unit, Z.mul_1_l. reflexivity. }
    split; [exact Hsplit|]. split; [exact Hearlier|]. split; [exact Hin|].
    split; [exact Hu|]. split; [exact Heq|]. split.
    - exact (replace_microsecond_0_close (now - unit_microseconds u)).
    - rewrite Heq. apply isoformat_nonempty.
Qed.

Lemma parse_date_defaults_to_one_witness :
  parse_date_to_iso sample_now (py "a week ago")
    = isoformat (replace_microsecond_0 (sample_now - 7 * 86400 * 1000000)) /\
  parse_date_to_iso sample_now (py "a week ago")
    = py "2026-10-28T12:30:15+00:00" /\
  parse_date_to_iso sample_now (py "an hour ago")
    = py "2026-11-04T11:30:15+00:00".
Proof.
    assert (Hnow : valid_now sample_now)
      by (vm_compute; split; [discriminate | reflexivity]).
    destruct (parse_date_defaults_to_one sample_now (py "a week ago") Week)
      as (u & earlier & later & _ & _ & _ & Hu & Heq & _).
    - exact Hnow.
    - reflexivity.
    - reflexivity.
    - vm_compute py. repeat (constructor; [reflexivity|]). constructor.
    - assert (u = Week) by (vm_compute in Hu; congruence). subst u.
      change (sample_now - unit_microseconds Week)
        with (sample_now - 7 * 86400 * 1000000) in Heq.
      split; [exact Heq|]. split; [rewrite Heq; vm_compute; reflexivity|].
      destruct (parse_date_defaults_to_one sample_now (py "an hour ago") Hour)
        as (u & earlier' & later' & _ & _ & _ & Hu' & Heq' & _).
      + exact Hnow.
      + reflexivity.
      + reflexivity.
      + vm_compute py. repeat (constructor; [reflexivity|]). constructor.
      + assert (u = Hour) by (vm_compute in Hu'; congruence). subst u.
        rewrite Heq'. vm_compute. reflexivity.
Defined.

End ParseDate.

(** ** The element locator *)

Section Locator.

Lemma first_nonblank_spec (read : WebElement -> result pystr)
    (es : list WebElement) :
  only_stale read es ->
  first_nonblank read es = Ok (hd [] (nonblank_values read es)).
Proof.
    unfold nonblank_values.
    induction es as [|e es IH]; intros Hes; [reflexivity|].
    assert (Hes' : only_stale read es).
    { intros e' ex Hin. apply Hes. right. exact Hin. }
    cbn [first_nonblank flat_map].
    destruct (read e) as [t|ex] eqn:E.
    - cbn [app List.filter]. destruct (truthy (strip t)); [reflexivity|].
      apply IH, Hes'.
    - rewrite (Hes e ex (or_introl eq_refl) E). apply IH, Hes'.
Qed.

(** A read that raises anything but "stale" ends the scan with that
    exception, when no match before it gave a value. *)
Lemma first_nonblank_propagates (read : WebElement -> result pystr)
    (es1 : list WebElement) (e : WebElement) (es2 : list WebElement)
    (ex : exn) :
  only_stale read es1 -> nonblank_values read es1 = [] ->
  read e = Raise ex -> ex <> StaleElementReferenceException ->
  first_nonblank read (es1 ++ e :: es2) = Raise ex.
Proof.
    intros Hes Hblank He Hex.
    induction es1 as [|a es1 IH]; cbn [app first_nonblank].
    - rewrite He. destruct ex; try reflexivity. contradiction Hex. reflexivity.
    - assert (Hes' : only_stale read es1).
      { intros e' ex' Hin. apply Hes. right. exact Hin. }
      unfold nonblank_values in Hblank. cbn [flat_map] in Hblank.
      destruct (read a) as [t|ex'] eqn:E.
      + cbn [app List.filter] in Hblank.
        destruct (truthy (strip t)); [discriminate Hblank|].
        apply IH; assumption.
      + rewrite (Hes a ex' (or_introl eq_refl) E). apply IH; assumption.
Qed.

(** The failing input of C8: an element on which the driver raises a
    plain [WebDriverException].  The exception passes through
    [try_find], [first_text] and [first_attr], whether the query itself
    fails or the read of a match. *)
Lemma locator_propagates_driver_error :
  try_find broken_element CARD_SEL true = Raise WebDriverException /\
  try_find broken_element CARD_SEL false = Raise WebDriverException /\
  first_text broken_element CARD_SEL = Raise WebDriverException /\
  first_text scope_with_broken_match CARD_SEL = Raise WebDriverException /\
  first_attr scope_with_broken_match CARD_SEL DATA_REVIEW_ID
    = Raise WebDriverException.
Proof. repeat split. Qed.

(** C8.  [try_find], whose docstring promises to find elements "without
    raising exceptions", answers the matches, and the empty list when
    the query raises "no such element" or "stale"; but any other
    exception of the query is raised by it, where the claim has an empty
    list, and so by [first_text] and [first_attr].  Over the matches,
    [first_text] and [first_attr] skip a match whose read raises "stale",
    answer the first trimmed value that is not empty, and the empty
    string if there is none, as the claim says; a read that raises
    anything else, before a value was found, is raised by them. *)
Theorem locator_degrades (el : WebElement) (css attr : pystr) :
  (forall l, el_find_elements el css = Ok l -> try_find el css true = Ok l) /\
  (forall e, el_find_elements el css = Raise e ->
     try_find el css true = if absorbed e then Ok [] else Raise e) /\
  (forall obj, el_find_element el css = Ok obj ->
     try_find el css false = Ok [obj]) /\
  (forall e, el_find_element el css = Raise e ->
     try_find el css false = if absorbed e then Ok [] else Raise e) /\
  (forall es, try_find el css true = Ok es -> only_stale el_text es ->
     first_text el css = Ok (hd [] (nonblank_values el_text es))) /\
  (forall es, try_find el css true = Ok es ->
     only_stale (attr_or_empty attr) es ->
     first_attr el css attr
       = Ok (hd [] (nonblank_values (attr_or_empty attr) es))) /\
  (forall e, try_find el css true = Raise e ->
     first_text el css = Raise e /\ first_attr el css attr = Raise e) /\
  (forall es1 e es2 ex,
     try_find el css true = Ok (es1 ++ e :: es2) ->
     only_stale el_text es1 -> nonblank_values el_text es1 = [] ->
     el_text e = Raise ex -> ex <> StaleElementReferenceException ->
     first_text el css = Raise ex) /\
  (forall es1 e es2 ex,
     try_find el css true = Ok (es1 ++ e :: es2) ->
     only_stale (attr_or_empty attr) es1 ->
     nonblank_values (attr_or_empty attr) es1 = [] ->
     attr_or_empty attr e = Raise ex -> ex <> StaleElementReferenceException ->
     first_attr el css attr = Raise ex).
Proof.
    unfold first_text, first_attr, try_find. repeat split.
    - intros l ->. reflexivity.
    - intros e ->. destruct e; reflexivity.
    - intros obj ->. reflexivity.
    - intros e ->. destruct e; reflexivity.
    - intros es -> Hes. apply first_nonblank_spec, Hes.
    - intros es -> Hes. apply first_nonblank_spec, Hes.
    - rewrite H. reflexivity.
    - rewrite H. reflexivity.
    - intros es1 e es2 ex -> Hes Hblank He Hex.
      apply first_nonblank_propagates; assumption.
    - intros es1 e es2 ex -> Hes Hblank He Hex.
      apply first_nonblank_propagates; assumption.
Qed.

Lemma locator_degrades_witness :
  let stale := mkWebElement (Raise StaleElementReferenceException)
                 (fun _ => Raise StaleElementReferenceException)
                 (fun _ => Raise StaleElementReferenceException)
                 (fun _ => Raise StaleElementReferenceException) (Ok tt) in
  let blank := mkWebElement (Ok (py "   ")) (fun _ => Ok None)
                 (fun _ => Ok []) (fun _ => Raise NoSuchElementException)
                 (Ok tt) in
  let named := mkWebElement (Ok (py " Ada ")) (fun _ => Ok (Some (py " r1 ")))
                 (fun _ => Ok []) (fun _ => Raise NoSuchElementException)
                 (Ok tt) in
  let scope := mkWebElement (Ok []) (fun _ => Ok None)
                 (fun _ => Ok [stale; blank; named])
                 (fun _ => Ok stale) (Ok tt) in
  let broken_scope := mkWebElement (Ok []) (fun _ => Ok None)
                 (fun _ => Ok [stale; blank; broken_element; named])
                 (fun _ => Ok stale) (Ok tt) in
  try_find stale CARD_SEL true = Ok [] /\
  first_text scope CARD_SEL = Ok (py "Ada") /\
  first_attr scope CARD_SEL DATA_REVIEW_ID = Ok (py "r1") /\
  try_find broken_element CARD_SEL true = Raise WebDriverException /\
  first_text broken_scope CARD_SEL = Raise WebDriverException /\
  first_attr broken_scope CARD_SEL DATA_REVIEW_ID = Raise WebDriverException.
Proof.
    intros stale blank named scope broken_scope.
    assert (Hstale : forall read,
              read stale = Raise StaleElementReferenceException ->
              (forall ex, read blank <> Raise ex) ->
              (forall ex, read named <> Raise ex) ->
              only_stale read [stale; blank; named]).
    { intros read Hs Hb Hn e ex [<-|[<-|[<-|[]]]] E.
      - rewrite Hs in E. injection E as <-. reflexivity.
      - destruct (Hb ex E).
      - destruct (Hn ex E). }
    assert (Hstale2 : forall read,
              read stale = Raise StaleElementReferenceException ->
              (forall ex, read blank <> Raise ex) ->
              only_stale read [stale; blank]).
    { intros read Hs Hb e ex [<-|[<-|[]]] E.
      - rewrite Hs in E. injection E as <-. reflexivity.
      - destruct (Hb ex E). }
    split; [|split; [|split; [|split; [|split]]]].
    - destruct (locator_degrades stale CARD_SEL DATA_REVIEW_ID) as (_ & H & _).
      apply (H StaleElementReferenceException). reflexivity.
    - destruct (locator_degrades scope CARD_SEL DATA_REVIEW_ID)
        as (_ & _ & _ & _ & H & _).
      apply (H [stale; blank; named]); [reflexivity|].
      apply Hstale; [reflexivity | discriminate | discriminate].
    - destruct (locator_degrades scope CARD_SEL DATA_REVIEW_ID)
        as (_ & _ & _ & _ & _ & H & _).
      apply (H [stale; blank; named]); [reflexivity|].
      apply Hstale; [reflexivity | discriminate | discriminate].
    - destruct (locator_degrades broken_element CARD_SEL DATA_REVIEW_ID)
        as (_ & H & _).
      apply (H WebDriverException). reflexivity.
    - destruct (locator_degrades broken_scope CARD_SEL DATA_REVIEW_ID)
        as (_ & _ & _ & _ & _ & _ & _ & H & _).
      apply (H [stale; blank] broken_element [named] WebDriverException);
        [reflexivity | | reflexivity | reflexivity | discriminate].
      apply Hstale2; [reflexivity | discriminate].
    - destruct (locator_degrades broken_scope CARD_SEL DATA_REVIEW_ID)
        as (_ & _ & _ & _ & _ & _ & _ & _ & H).
      apply (H [stale; blank] broken_element [named] WebDriverException);
        [reflexivity | | reflexivity | reflexivity | discriminate].
      apply Hstale2; [reflexivity | discriminate].
Defined.

End Locator.

(** ** The retry supervisor *)

Section Supervisor.

Variable from_card : WebElement -> result RawReview.
Variable review_words : list pystr.
Variable sort_by : pystr.
Variable job_info : bool.

(** The sibling path: when the browser starts and the session fails, the
    5 second pause is skipped after the third attempt. *)
Example scrape_no_sleep_after_last_failed_session (fuel : nat) (name : pystr) :
  scrape from_card review_words sort_by true fuel (fun _ => Started dead_driver) name
  = ([EvStartDriver; EvPercentage 15; EvQuitDriver; EvSleep 5000;
      EvStartDriver; EvPercentage 15; EvQuitDriver; EvSleep 5000;
      EvStartDriver; EvPercentage 15; EvQuitDriver],
     Some {| res_company_name := if truthy name then name else py "Unknown";
             res_reviews := [] |}).
Proof. reflexivity. Qed.

(** C2.  When starting the browser fails in all three attempts,
    [scrape] starts it exactly three times and answers an empty review
    list, with the company name it has, without raising; but it sleeps 5
    seconds after each failed start, also after the third and last one,
    where the claim has no pause. *)
Theorem scrape_sleeps_after_last_failed_start (fuel : nat) (name : pystr) :
  let run := scrape from_card review_words sort_by job_info fuel
               (fun _ => StartFailed false) name in
  run = ([EvStartDriver; EvSleep 5000;
          EvStartDriver; EvSleep 5000;
          EvStartDriver; EvSleep 5000],
         Some {| res_company_name := if truthy name then name else py "Unknown";
                 res_reviews := [] |}) /\
  count_starts (fst run) = 3%nat /\
  List.last (fst run) EvStartDriver = EvSleep 5000.
Proof. repeat split. Qed.

End Supervisor.

(** ** Binary64 rounding *)

Section Rounding.

Lemma digits2_pos_bounds (p : positive) :
  2 ^ (Z.pos (digits2_pos p) - 1) <= Z.pos p < 2 ^ Z.pos (digits2_pos p).
Proof.
    induction p as [p IH|p IH|]; cbn [digits2_pos].
    - rewrite Pos2Z.inj_succ.
      replace (Z.succ (Z.pos (digits2_pos p)) - 1) with (Z.succ (Z.pos (digits2_pos p) - 1)) by lia.
      rewrite !Z.pow_succ_r by lia. lia.
    - rewrite Pos2Z.inj_succ.
      replace (Z.succ (Z.pos (digits2_pos p)) - 1) with (Z.succ (Z.pos (digits2_pos p) - 1)) by lia.
      rewrite !Z.pow_succ_r by lia. lia.
    - simpl. lia.
Qed.

Lemma digits2_pos_unique (p : positive) (k : Z) :
  2 ^ (k - 1) <= Z.pos p < 2 ^ k -> Z.pos (digits2_pos p) = k.
Proof.
    intros [Hlo Hhi]. pose proof (digits2_pos_bounds p) as [Blo Bhi].
    set (d := Z.pos (digits2_pos p)) in *.
    assert (Hd : 0 < d) by (subst d; lia).
    assert (Hk : 0 < k).
    { destruct (Z.lt_ge_cases 0 k) as [H|H]; [exact H|].
      exfalso. assert (2 ^ k <= 2 ^ 0) by (apply Z.pow_le_mono_r; lia).
      simpl in H0. lia. }
    destruct (Z.lt_trichotomy d k) as [H|[H|H]]; [|exact H|].
    - exfalso. assert (2 ^ d <= 2 ^ (k - 1)) by (apply Z.pow_le_mono_r; lia). lia.
    - exfalso. assert (2 ^ k <= 2 ^ (d - 1)) by (apply Z.pow_le_mono_r; lia). lia.
Qed.

Lemma shr_m_of_loc (m : Z) (l : location) : shr_m (shr_record_of_loc m l) = m.
Proof. destruct l as [|[]]; reflexivity. Qed.

Lemma shr_1_m (mrs : shr_record) :
  0 <= shr_m mrs -> shr_m (shr_1 mrs) = shr_m mrs / 2.
Proof.
    destruct mrs as [m r s]. cbn [shr_m]. intros Hm. unfold shr_1.
    destruct m as [|[p|p|]|p]; cbn [shr_m].
    - reflexivity.
    - change (Z.pos p~1) with (Z.pos (xI p)). rewrite Pos2Z.inj_xI.
      apply Z.div_unique with (r := 1); lia.
    - change (Z.pos p~0) with (Z.pos (xO p)). rewrite Pos2Z.inj_xO.
      apply Z.div_unique with (r := 0); lia.
    - reflexivity.
    - lia.
Qed.

Lemma iter_shr_1_m (k : positive) (mrs : shr_record) :
  0 <= shr_m mrs ->
  shr_m (SpecFloat.iter_pos shr_1 k mrs) = shr_m mrs / 2 ^ Z.pos k.
Proof.
    revert mrs. induction k as [k IH|k IH|]; intros mrs Hm; cbn [SpecFloat.iter_pos].
    - assert (H1 : 0 <= shr_m (shr_1 mrs)).
      { rewrite shr_1_m by exact Hm. apply Z.div_pos; lia. }
      assert (H2 : 0 <= shr_m (SpecFloat.iter_pos shr_1 k (shr_1 mrs))).
      { rewrite IH by exact H1. apply Z.div_pos; [lia|]. apply Z.pow_pos_nonneg; lia. }
      rewrite IH by exact H2. rewrite IH by exact H1. rewrite shr_1_m by exact Hm.
      rewrite !Z.div_div by (try apply Z.pow_pos_nonneg; lia).
      f_equal. replace (Z.pos k~1) with (1 + Z.pos k + Z.pos k) by lia.
      rewrite !Z.pow_add_r by lia. change (2 ^ 1) with 2. lia.
    - assert (H2 : 0 <= shr_m (SpecFloat.iter_pos shr_1 k mrs)).
      { rewrite IH by exact Hm. apply Z.div_pos; [lia|]. apply Z.pow_pos_nonneg; lia. }
      rewrite IH by exact H2. rewrite IH by exact Hm.
      rewrite !Z.div_div by (try apply Z.pow_pos_nonneg; lia).
      f_equal. replace (Z.pos k~0) with (Z.pos k + Z.pos k) by lia.
      rewrite !Z.pow_add_r by lia. lia.
    - rewrite shr_1_m by exact Hm. reflexivity.
Qed.

Lemma round_nearest_even_bounds (m : Z) (l : location) :
  m <= round_nearest_even m l <= m + 1.
Proof.
    unfold round_nearest_even. destruct l as [|[]]; try lia.
    destruct (Z.even m); lia.
Qed.

Lemma shr_fexp_normal (m e : Z) (l : location) (d : Z) :
  2 ^ (d - 1) <= m < 2 ^ d -> 53 <= d -> -1000 <= e ->
  snd (shr_fexp 53 1024 m e l) = e + (d - 53) /\
  shr_m (fst (shr_fexp 53 1024 m e l)) = m / 2 ^ (d - 53) /\
  (d = 53 -> fst (shr_fexp 53 1024 m e l) = shr_record_of_loc m l).
Proof.
    intros Hm Hd He.
    assert (Hpos : 0 < m).
    { assert (0 < 2 ^ (d - 1)) by (apply Z.pow_pos_nonneg; lia). lia. }
    destruct m as [|p|p]; try lia.
    unfold shr_fexp. cbn [Zdigits2].
    rewrite (digits2_pos_unique p d Hm).
    unfold fexp, emin. rewrite Z.max_l by lia.
    replace (d + e - 53 - e) with (d - 53) by lia.
    unfold shr. destruct (d - 53) as [|k|k] eqn:Ek; try lia.
    - cbn [fst snd]. rewrite shr_m_of_loc. simpl (2 ^ 0). rewrite Z.div_1_r.
      repeat split; lia.
    - cbn [fst snd]. rewrite iter_shr_1_m by (rewrite shr_m_of_loc; lia).
      rewrite shr_m_of_loc. repeat split; lia.
Qed.

(** Rounding a mantissa of at least 53 bits, away from the subnormal
    range: the result is normal, and not below the truncated input. *)
Lemma binary_round_aux_normal (mx : positive) (ex : Z) (lx : location) (d : Z) :
  2 ^ (d - 1) <= Z.pos mx < 2 ^ d -> 53 <= d -> -1000 <= ex ->
  binary_round_aux 53 1024 false (Z.pos mx) ex lx = S754_infinity false \/
  exists m e,
    binary_round_aux 53 1024 false (Z.pos mx) ex lx = S754_finite false m e /\
    2 ^ 52 <= Z.pos m < 2 ^ 53 /\ ex + (d - 53) <= e /\
    (e = ex -> Z.pos mx <= Z.pos m).
Proof.
    intros Hm Hd He.
    destruct (shr_fexp_normal (Z.pos mx) ex lx d Hm Hd He) as (He1 & Hm1 & Hsame).
    unfold binary_round_aux.
    destruct (shr_fexp 53 1024 (Z.pos mx) ex lx) as [mrs1 e1].
    cbn [fst snd] in He1, Hm1, Hsame.
    set (m2 := round_nearest_even (shr_m mrs1) (loc_of_shr_record mrs1)).
    pose proof (round_nearest_even_bounds (shr_m mrs1) (loc_of_shr_record mrs1))
      as Hround. fold m2 in Hround.
    assert (Hm1b : 2 ^ 52 <= shr_m mrs1 < 2 ^ 53).
    { rewrite Hm1.
      assert (Hk : 0 < 2 ^ (d - 53)) by (apply Z.pow_pos_nonneg; lia).
      assert (Hlo : 2 ^ (d - 1) = 2 ^ (d - 53) * 2 ^ 52)
        by (rewrite <- Z.pow_add_r by lia; f_equal; lia).
      assert (Hhi : 2 ^ d = 2 ^ (d - 53) * 2 ^ 53)
        by (rewrite <- Z.pow_add_r by lia; f_equal; lia).
      split.
      - apply Z.div_le_lower_bound; lia.
      - apply Z.div_lt_upper_bound; lia. }
    assert (Hle : shr_m mrs1 <= Z.pos mx).
    { rewrite Hm1.
      assert (Hk : 0 < 2 ^ (d - 53)) by (apply Z.pow_pos_nonneg; lia).
      apply Z.div_le_upper_bound; nia. }
    destruct (Z.eq_dec m2 (2 ^ 53)) as [Hcarry|Hnocarry].
    - (* the rounding carried into a 54th bit *)
      assert (H54 : 2 ^ (54 - 1) <= m2 < 2 ^ 54) by (rewrite Hcarry; simpl; lia).
      destruct (shr_fexp_normal m2 e1 loc_Exact 54 H54) as (He2 & Hm2 & _); try lia.
      destruct (shr_fexp 53 1024 m2 e1 loc_Exact) as [mrs2 e2].
      cbn [fst snd] in He2, Hm2.
      rewrite Hm2, Hcarry.
      change (2 ^ 53 / 2 ^ (54 - 53)) with (Z.pos 4503599627370496).
      destruct (e2 <=? 1024 - 53); [right|left; reflexivity].
      eexists _, _. split; [reflexivity|].
      split; [simpl; lia|]. split; lia.
    - assert (H53 : 2 ^ (53 - 1) <= m2 < 2 ^ 53) by (simpl (53 - 1); lia).
      destruct (shr_fexp_normal m2 e1 loc_Exact 53 H53) as (He2 & Hm2 & _); try lia.
      destruct (shr_fexp 53 1024 m2 e1 loc_Exact) as [mrs2 e2].
      cbn [fst snd] in He2, Hm2.
      rewrite Hm2. simpl (2 ^ (53 - 53)). rewrite Z.div_1_r.
      destruct m2 as [|p2|p2]; try (simpl in H53; lia).
      destruct (e2 <=? 1024 - 53); [right|left; reflexivity].
      eexists _, _. split; [reflexivity|].
      split; [simpl in H53 |- *; lia|]. split; [lia|].
      intros Heq. assert (d = 53) by lia.
      rewrite (Hsame H) in Hround. rewrite shr_m_of_loc in Hround. lia.
Qed.

End Rounding.

(** ** The progress percentage *)

Section Progress.

Lemma binary64_constants :
  Binary64.of_int 150 = f150 /\ Binary64.of_int 1 = f1 /\ Binary64.of_int 30 = f30.
Proof. repeat split; vm_compute; reflexivity. Qed.

Lemma pos_iter_xO (p k : positive) :
  Z.pos (Pos.iter xO p k) = Z.pos p * 2 ^ Z.pos k.
Proof.
    induction k as [|k IH] using Pos.peano_ind.
    - simpl. lia.
    - rewrite Pos.iter_succ, Pos2Z.inj_xO, IH, Pos2Z.inj_succ, Z.pow_succ_r by lia. lia.
Qed.

(** A large [int] converts to a normal number of at least 2^8 (or, far
    beyond any length, to infinity). *)
Lemma of_int_large (n : Z) :
  256 <= n ->
  Binary64.of_int n = S754_infinity false \/
  exists m e, Binary64.of_int n = S754_finite false m e /\
              2 ^ 52 <= Z.pos m < 2 ^ 53 /\ -44 <= e.
Proof.
    intros Hn. destruct n as [|p|p]; try lia.
    pose proof (digits2_pos_bounds p) as Hp.
    set (d := Z.pos (digits2_pos p)) in *.
    assert (Hd : 9 <= d).
    { destruct (Z.le_gt_cases 9 d) as [H|H]; [exact H|]. exfalso.
      assert (2 ^ d <= 2 ^ 8) by (apply Z.pow_le_mono_r; lia).
      change (2 ^ 8) with 256 in H0. lia. }
    unfold Binary64.of_int, Binary64.prec, Binary64.emax, binary_normalize, binary_round.
    fold d. unfold fexp, emin. rewrite Z.max_l by lia.
    unfold shl_align.
    destruct (d + 0 - 53 - 0) as [|k|k] eqn:Ek.
    - destruct (binary_round_aux_normal p 0 loc_Exact d Hp ltac:(lia) ltac:(lia))
        as [H|(m & e & H & Hm & He & _)]; [left; exact H|right].
      exists m, e. repeat split; try lia. exact H.
    - destruct (binary_round_aux_normal p 0 loc_Exact d Hp ltac:(lia) ltac:(lia))
        as [H|(m & e & H & Hm & He & _)]; [left; exact H|right].
      exists m, e. repeat split; try lia. exact H.
    - assert (Hk : Z.pos k = 53 - d) by lia.
      assert (Hmz : 2 ^ (53 - 1) <= Z.pos (Pos.iter xO p k) < 2 ^ 53).
      { rewrite pos_iter_xO, Hk.
        assert (Hs : 0 < 2 ^ (53 - d)) by (apply Z.pow_pos_nonneg; lia).
        assert (Hlo : 2 ^ (53 - 1) = 2 ^ (d - 1) * 2 ^ (53 - d))
          by (rewrite <- Z.pow_add_r by lia; f_equal; lia).
        assert (Hhi : 2 ^ 53 = 2 ^ d * 2 ^ (53 - d))
          by (rewrite <- Z.pow_add_r by lia; f_equal; lia).
        rewrite Hlo, Hhi. split; nia. }
      destruct (binary_round_aux_normal (Pos.iter xO p k) (d + 0 - 53) loc_Exact 53
                  Hmz ltac:(lia) ltac:(lia))
        as [H|(m & e & H & Hm & He & _)]; [left; exact H|right].
      exists m, e. repeat split; try lia. exact H.
Qed.

(** A normal number of at least 2^8, divided by 150.0, is above 1.0. *)
Lemma div_150_above_one (m : positive) (e : Z) :
  2 ^ 52 <= Z.pos m < 2 ^ 53 -> -44 <= e ->
  SFltb f1 (Binary64.div (S754_finite false m e) f150) = true.
Proof.
    intros Hm He.
    unfold Binary64.div, Binary64.prec, Binary64.emax, f150, SFdiv, SFdiv_core_binary.
    cbn [Zdigits2 xorb].
    rewrite (digits2_pos_unique m 53) by (simpl (53 - 1); exact Hm).
    change (Z.pos (digits2_pos 5277655813324800)) with 53.
    unfold fexp, emin. rewrite Z.max_l by lia. rewrite Z.min_l by lia.
    replace (e - -45 - (53 + e - (53 + -45) - 53)) with 53 by lia.
    rewrite Z.shiftl_mul_pow2 by lia.
    pose proof (Z_div_mod (Z.pos m * 2 ^ 53) 5277655813324800 eq_refl) as Hdiv.
    destruct (Z.div_eucl (Z.pos m * 2 ^ 53) 5277655813324800) as [q r].
    destruct Hdiv as [Hq Hr].
    change (2 ^ 53) with 9007199254740992 in *.
    change (2 ^ 52) with 4503599627370496 in *.
    assert (Hqb : 7686143364045646 <= q < 15372286728091294) by lia.
    destruct q as [|pq|pq]; try lia.
    set (ex := 53 + e - (53 + -45) - 53).
    assert (Hex : ex = e - 8) by (subst ex; lia).
    assert (Hround :
      binary_round_aux 53 1024 false (Z.pos pq) ex (new_location 5277655813324800 r)
        = S754_infinity false \/
      exists mq eq,
        binary_round_aux 53 1024 false (Z.pos pq) ex (new_location 5277655813324800 r)
          = S754_finite false mq eq /\
        4503599627370496 <= Z.pos mq /\ ex <= eq /\ (eq = ex -> Z.pos pq <= Z.pos mq)).
    { assert (Hex' : -1000 <= ex) by lia.
      destruct (Z.lt_ge_cases (Z.pos pq) 9007199254740992) as [H53|H54].
      - assert (Hb : 2 ^ (53 - 1) <= Z.pos pq < 2 ^ 53).
        { change (2 ^ (53 - 1)) with 4503599627370496.
          change (2 ^ 53) with 9007199254740992. lia. }
        destruct (binary_round_aux_normal pq ex (new_location 5277655813324800 r)
                    53 Hb ltac:(lia) Hex')
          as [H|(mq & eq & H & Hmq & Heq & Hsame)]; [left; exact H|right].
        exists mq, eq. change (2 ^ 52) with 4503599627370496 in Hmq.
        repeat split; try lia. exact H.
      - assert (Hb : 2 ^ (54 - 1) <= Z.pos pq < 2 ^ 54).
        { change (2 ^ (54 - 1)) with 9007199254740992.
          change (2 ^ 54) with 18014398509481984. lia. }
        destruct (binary_round_aux_normal pq ex (new_location 5277655813324800 r)
                    54 Hb ltac:(lia) Hex')
          as [H|(mq & eq & H & Hmq & Heq & Hsame)]; [left; exact H|right].
        exists mq, eq. change (2 ^ 52) with 4503599627370496 in Hmq.
        repeat split; try lia. exact H. }
    destruct Hround as [->|(mq & eq & -> & Hmq & Heq & Hsame)]; [reflexivity|].
    unfold SFltb, f1, SFcompare.
    destruct (Z.compare_spec (-52) eq) as [Heq52|Hlt|Hgt]; [|reflexivity|lia].
    assert (Hlt : (4503599627370496 < mq)%positive).
    { specialize (Hsame ltac:(lia)). lia. }
    apply Pos.compare_lt_iff in Hlt. unfold Pos.compare in Hlt. rewrite Hlt.
    reflexivity.
Qed.

Lemma spec_percentage_closed_form (n : Z) :
  spec_percentage n = 60 + Z.min (n / 5) 30.
Proof.
    unfold spec_percentage. f_equal.
    destruct (Z.le_gt_cases n 150) as [H|H].
    - assert (Hmin : (Qmin (inject_Z n / 150) 1 == inject_Z n / 150)%Q).
      { apply Q.min_l. unfold Qle, Qdiv, Qmult, Qinv, inject_Z. simpl. lia. }
      assert (Heq : (Qmin (inject_Z n / 150) 1 * 30 == n # 5)%Q).
      { rewrite Hmin. unfold Qeq, Qdiv, Qmult, Qinv, inject_Z. simpl. lia. }
      rewrite Heq. unfold Qfloor.
      assert (n / 5 <= 30) by (apply Z.div_le_upper_bound; lia).
      rewrite Z.min_l by lia. reflexivity.
    - assert (Hmin : (Qmin (inject_Z n / 150) 1 == 1)%Q).
      { apply Q.min_r. unfold Qle, Qdiv, Qmult, Qinv, inject_Z. simpl. lia. }
      assert (Heq : (Qmin (inject_Z n / 150) 1 * 30 == 30 # 1)%Q).
      { rewrite Hmin. reflexivity. }
      rewrite Heq. unfold Qfloor.
      assert (30 <= n / 5) by (apply Z.div_le_lower_bound; lia).
      rewrite Z.min_r by lia. reflexivity.
Qed.

Lemma progress_percentage_small (n : Z) :
  0 <= n < 256 -> progress_percentage n = Ok (60 + Z.min (n / 5) 30).
Proof.
    intros Hn.
    assert (Hall : forallb (fun k =>
                     match progress_percentage (Z.of_nat k) with
                     | Ok p => p =? 60 + Z.min (Z.of_nat k / 5) 30
                     | Raise _ => false
                     end) (seq 0 256) = true) by (vm_compute; reflexivity).
    rewrite forallb_forall in Hall.
    specialize (Hall (Z.to_nat n)).
    rewrite Z2Nat.id in Hall by lia.
    destruct (progress_percentage n) as [p|ex].
    - f_equal. apply Z.eqb_eq, Hall, in_seq. lia.
    - discriminate Hall. apply in_seq. lia.
Qed.

Lemma progress_percentage_large (n : Z) :
  256 <= n -> progress_percentage n = Ok 90.
Proof.
    intros Hn. unfold progress_percentage, progress_for_reviews.
    destruct binary64_constants as (-> & -> & ->).
    assert (Hmin : Binary64.min (Binary64.div (Binary64.of_int n) f150) f1 = f1).
    { unfold Binary64.min.
      destruct (of_int_large n Hn) as [->|(m & e & -> & Hm & He)].
      - reflexivity.
      - rewrite div_150_above_one by assumption. reflexivity. }
    rewrite Hmin. vm_compute. reflexivity.
Qed.

Lemma progress_percentage_exact (n : Z) :
  0 <= n -> progress_percentage n = Ok (60 + Z.min (n / 5) 30).
Proof.
    intros Hn. destruct (Z.lt_ge_cases n 256) as [H|H].
    - apply progress_percentage_small. lia.
    - rewrite progress_percentage_large by exact H.
      assert (30 <= n / 5) by (apply Z.div_le_lower_bound; lia).
      rewrite Z.min_r by lia. reflexivity.
Qed.

End Progress.

(** ** Computations and their traces *)

Section Runs.

Lemma bind_ok {A B} (m : run A) (k : A -> run B) (t : list event) (b : B) :
  bind m k = (t, Some (Ok b)) ->
  exists t1 a t2,
    m = (t1, Some (Ok a)) /\ k a = (t2, Some (Ok b)) /\ t = t1 ++ t2.
Proof.
    destruct m as [t1 [[a|e]|]]; simpl; try discriminate.
    destruct (k a) as [t2 r] eqn:E. intros [= <- ->].
    exists t1, a, t2. auto.
Qed.

Lemma fst_bind {A B} (m : run A) (k : A -> run B) :
  fst (bind m k)
  = fst m ++ match snd m with
             | Some (Ok a) => fst (k a)
             | _ => []
             end.
Proof.
    destruct m as [t [[a|e]|]]; simpl; rewrite ?app_nil_r; try reflexivity.
    destruct (k a); reflexivity.
Qed.

Lemma percentages_app (t1 t2 : list event) :
  percentages (t1 ++ t2) = percentages t1 ++ percentages t2.
Proof. unfold percentages. apply flat_map_app. Qed.

Lemma count_scrolls_app (t1 t2 : list event) :
  count_scrolls (t1 ++ t2) = (count_scrolls t1 + count_scrolls t2)%nat.
Proof. unfold count_scrolls. rewrite List.filter_app, length_app. reflexivity. Qed.

End Runs.

(** ** The deduplication map *)

Section Dict.

Lemma dict_get_none (k : pystr) (d : dict) :
  dict_get k d = None <-> k ∉ keys d.
Proof.
    induction d as [|[k' v] d IH]; simpl.
    - split; [intros _; apply not_elem_of_nil | reflexivity].
    - rewrite not_elem_of_cons. case_bool_decide as E.
      + subst k'. split; [discriminate | intros [H _]; congruence].
      + rewrite IH. tauto.
Qed.

Lemma dict_get_set_eq (k : pystr) (v : RawReview) (d : dict) :
  dict_get k (dict_set k v d) = Some v.
Proof.
    induction d as [|[k' v'] d IH]; simpl.
    - rewrite bool_decide_eq_true_2; reflexivity.
    - case_bool_decide as E; simpl.
      + subst k'. rewrite bool_decide_eq_true_2; reflexivity.
      + rewrite bool_decide_eq_false_2 by exact E. exact IH.
Qed.

Lemma dict_get_set_ne (k k0 : pystr) (v : RawReview) (d : dict) :
  k0 <> k -> dict_get k0 (dict_set k v d) = dict_get k0 d.
Proof.
    intros Hne. induction d as [|[k' v'] d IH]; simpl.
    - rewrite bool_decide_eq_false_2 by exact Hne. reflexivity.
    - case_bool_decide as E; simpl.
      + subst k'. rewrite !bool_decide_eq_false_2 by exact Hne. reflexivity.
      + case_bool_decide; [reflexivity | exact IH].
Qed.

(** Assigning a key keeps the order of the keys and appends a new one. *)
Lemma keys_dict_set (k : pystr) (v : RawReview) (d : dict) :
  keys (dict_set k v d) = if bool_decide (k ∈ keys d) then keys d
                          else keys d ++ [k].
Proof.
    induction d as [|[k' v'] d IH]; cbn [dict_set keys List.map fst].
    - rewrite bool_decide_eq_false_2 by apply not_elem_of_nil. reflexivity.
    - destruct (bool_decide (k = k')) eqn:E; cbn [keys List.map fst].
      + apply bool_decide_eq_true in E. subst k'.
        rewrite bool_decide_eq_true_2 by apply list_elem_of_here.
        reflexivity.
      + apply bool_decide_eq_false in E.
        fold (keys (dict_set k v d)). fold (keys d). rewrite IH.
        destruct (bool_decide (k ∈ keys d)) eqn:E1.
        * apply bool_decide_eq_true in E1.
          rewrite bool_decide_eq_true_2 by (apply list_elem_of_further, E1).
          reflexivity.
        * apply bool_decide_eq_false in E1.
          rewrite bool_decide_eq_false_2; [reflexivity|].
          rewrite not_elem_of_cons. tauto.
Qed.

Lemma length_dict_set (k : pystr) (v : RawReview) (d : dict) :
  (length d <= length (dict_set k v d) <= S (length d))%nat.
Proof.
    induction d as [|[k' v'] d IH]; simpl; [lia|].
    case_bool_decide; simpl; lia.
Qed.

Lemma length_dict_set_pos (k : pystr) (v : RawReview) (d : dict) :
  (1 <= length (dict_set k v d))%nat.
Proof. destruct d as [|[k' v'] d]; simpl; [lia|]. case_bool_decide; simpl; lia. Qed.

Lemma nodup_keys_dict_set (k : pystr) (v : RawReview) (d : dict) :
  NoDup (keys d) -> NoDup (keys (dict_set k v d)).
Proof.
    intros H. rewrite keys_dict_set. case_bool_decide as E; [exact H|].
    apply NoDup_app. split; [exact H|].
    split; [|apply NoDup_singleton].
    intros x Hx Hx'. apply list_elem_of_singleton in Hx'. subst x. exact (E Hx).
Qed.

Lemma set_keys_dict_set (k : pystr) (v : RawReview) (d : dict) :
  (list_to_set (keys (dict_set k v d)) : gset pystr)
  = {[ k ]} ∪ list_to_set (keys d).
Proof.
    rewrite keys_dict_set. case_bool_decide as E.
    - apply set_eq. intros x.
      rewrite elem_of_union, elem_of_singleton, !elem_of_list_to_set.
      split; [tauto | intros [->|H]; assumption].
    - rewrite list_to_set_app_L. apply set_eq. intros x.
      rewrite !elem_of_union, !elem_of_list_to_set, elem_of_singleton.
      rewrite list_elem_of_singleton. tauto.
Qed.

End Dict.

(** ** The scroll/extract loop *)

Section LoopFacts.

Variable from_card : WebElement -> result RawReview.
Variable company : pystr.
Variable job_info : bool.

(** What a card can do to the loop: nothing, end it with an exception,
    or insert its record. *)
Lemma process_card_cases (st : session) (new : Z) (card : WebElement) :
  process_card from_card company job_info st new card = ret (st, new) \/
  (exists e, process_card from_card company job_info st new card = raise e) \/
  (exists rid r,
      el_get_attribute card DATA_REVIEW_ID = Ok (Some rid) /\
      truthy rid = true /\ (rid ∉ seen st) /\ from_card card = Ok r /\
      process_card from_card company job_info st new card
      = ((if job_info
          then [EvPercentage (scroll_percentage (length (docs (inserted company st r))));
                EvMessage (MsgScraping (length (docs (inserted company st r))))]
          else []),
         Some (Ok (inserted company st r, new + 1)))).
Proof.
    unfold process_card.
    destruct (el_get_attribute card DATA_REVIEW_ID) as [review_id|e] eqn:Hattr.
    2:{ destruct e; first [left; reflexivity | right; left; eexists; reflexivity]. }
    destruct (skip_card review_id st) eqn:Hskip; [left; reflexivity|].
    destruct review_id as [rid|]; [|discriminate Hskip].
    cbn [skip_card] in Hskip. apply orb_false_elim in Hskip as [Ht Hs].
    apply negb_false_iff in Ht. apply bool_decide_eq_false in Hs.
    destruct (from_card card) as [r|e] eqn:Hparse.
    2:{ destruct e; first [left; reflexivity | right; left; eexists; reflexivity]. }
    right. right. exists rid, r. repeat split; try assumption.
    change (id (set_company_name r company)) with (id r).
    fold (inserted company st r).
    destruct job_info; [|reflexivity].
    rewrite progress_percentage_exact by lia. reflexivity.
Qed.

Lemma process_card_consistent (st : session) (new : Z) (card : WebElement)
    (t : list event) (st' : session) (new' : Z) :
  consistent st ->
  process_card from_card company job_info st new card = (t, Some (Ok (st', new'))) ->
  consistent st'.
Proof.
    intros [Hnd Hseen] H.
    destruct (process_card_cases st new card)
      as [E|[[e E]|(rid & r & _ & _ & _ & _ & E)]]; rewrite E in H.
    - injection H as <- <- <-. split; assumption.
    - discriminate H.
    - injection H as <- <- <-. split; cbn [inserted docs seen].
      + apply nodup_keys_dict_set, Hnd.
      + rewrite set_keys_dict_set, Hseen. reflexivity.
Qed.

Lemma first_parsed_app (k : pystr) (l1 l2 : list WebElement) :
  first_parsed from_card k (l1 ++ l2)
  = match first_parsed from_card k l1 with
    | Some r => Some r
    | None => first_parsed from_card k l2
    end.
Proof.
    induction l1 as [|c l1 IH]; [reflexivity|]. cbn [app first_parsed].
    destruct (el_get_attribute c DATA_REVIEW_ID) as [[rid|]|]; try exact IH.
    destruct (from_card c); try exact IH.
    destruct (truthy rid && bool_decide (rid = k)); [reflexivity | exact IH].
Qed.

Lemma process_card_records (st : session) (new : Z) (card : WebElement)
    (t : list event) (st' : session) (new' : Z) (cards : list WebElement) :
  id_contract from_card -> consistent st -> records from_card company st cards ->
  process_card from_card company job_info st new card = (t, Some (Ok (st', new'))) ->
  records from_card company st' (cards ++ [card]).
Proof.
    intros Hid [Hnd Hseen] Hrec H k.
    rewrite first_parsed_app. cbn [first_parsed].
    destruct (process_card_cases st new card)
      as [E|[[e E]|(rid & r & Hattr & Ht & Hnew & Hparse & E)]]; rewrite E in H.
    - injection H as <- <- <-.
      rewrite Hrec. destruct (first_parsed from_card k cards) as [r0|] eqn:Hk; [reflexivity|].
      (* the card was skipped: it cannot be the first parse of [k] *)
      revert E. unfold process_card.
      destruct (el_get_attribute card DATA_REVIEW_ID) as [[rid|]|e] eqn:Hattr;
        try reflexivity.
      destruct (from_card card) as [r|e'] eqn:Hparse; [|reflexivity].
      destruct (truthy rid) eqn:Ht; [|reflexivity].
      cbn [andb]. case_bool_decide as Hk'; [|reflexivity]. subst rid.
      cbn [skip_card]. rewrite Ht. cbn [negb orb].
      case_bool_decide as Hin.
      + intros _. rewrite Hseen in Hin. apply elem_of_list_to_set in Hin.
        apply dict_get_none in Hin; [contradiction|].
        rewrite Hrec, Hk. reflexivity.
      + destruct job_info.
        * rewrite progress_percentage_exact by lia.
          unfold ret, emit, bind. intros E'. discriminate E'.
        * unfold ret. intros E'. injection E' as _ E'. lia.
    - discriminate H.
    - injection H as <- <- <-.
      pose proof (Hid card r Hparse) as Hrid. rewrite Hattr in Hrid.
      injection Hrid as ->.
      rewrite Hattr, Hparse, Ht. cbn [andb inserted docs].
      assert (Hfresh : first_parsed from_card (id r) cards = None).
      { rewrite Hseen in Hnew.
        assert (Hn : id r ∉ keys (docs st)).
        { intros Hin. apply Hnew, elem_of_list_to_set, Hin. }
        apply dict_get_none in Hn. rewrite Hrec in Hn.
        destruct (first_parsed from_card (id r) cards); [discriminate Hn | reflexivity]. }
      case_bool_decide as Hk.
      + subst k. rewrite Hfresh. cbn [option_map]. apply dict_get_set_eq.
      + rewrite dict_get_set_ne by congruence. rewrite Hrec.
        destruct (first_parsed from_card k cards); reflexivity.
Qed.

Lemma process_cards_ok (cards : list WebElement) (st : session) (new : Z)
    (t : list event) (st' : session) (new' : Z) (before : list WebElement) :
  process_cards from_card company job_info cards st new = (t, Some (Ok (st', new'))) ->
  consistent st ->
  consistent st' /\
  (id_contract from_card -> records from_card company st before -> records from_card company st' (before ++ cards)).
Proof.
    revert st new t before.
    induction cards as [|card cards IH]; intros st new t before H Hc.
    - injection H as <- <- <-. split; [exact Hc|].
      intros _ Hr. rewrite app_nil_r. exact Hr.
    - cbn [process_cards] in H.
      apply bind_ok in H as (t1 & [st1 new1] & t2 & H1 & H2 & ->).
      cbn [fst snd] in H2.
      pose proof (process_card_consistent _ _ _ _ _ _ Hc H1) as Hc1.
      destruct (IH st1 new1 t2 (before ++ [card]) H2 Hc1) as [Hc' Hr'].
      split; [exact Hc'|]. intros Hid Hr.
      replace (before ++ card :: cards) with ((before ++ [card]) ++ cards)
        by (rewrite <- app_assoc; reflexivity).
      apply Hr'; [exact Hid|].
      exact (process_card_records st new card t1 st1 new1 before Hid Hc Hr H1).
Qed.

Lemma shown_S (pane : Pane) (n : nat) (cards : list WebElement) :
  pane_find_cards pane n = Ok cards -> shown pane (S n) = shown pane n ++ cards.
Proof.
    intros H. unfold shown. rewrite seq_S, flat_map_app. simpl.
    rewrite H, app_nil_r. reflexivity.
Qed.

Lemma scroll_loop_ok (fuel : nat) (pane : Pane) (pass : nat) (st : session)
    (idle : Z) (t : list event) (st' : session) (idle' : Z) :
  scroll_loop from_card company job_info fuel pane pass st idle
    = (t, Some (Ok (st', idle'))) ->
  consistent st ->
  consistent st' /\
  (id_contract from_card -> records from_card company st (shown pane pass) ->
   records from_card company st' (shown pane (pass + count_scrolls t))) /\
  (idle <= 5 -> idle' = 5).
Proof.
    revert pass st idle t.
    induction fuel as [|fuel IH]; intros pass st idle t H Hc; cbn [scroll_loop] in H.
    - destruct (idle <? 5) eqn:Hidle; [discriminate H|].
      injection H as <- <- <-. apply Z.ltb_ge in Hidle.
      split; [exact Hc|]. split; [|lia].
      intros _ Hr. rewrite Nat.add_0_r. exact Hr.
    - destruct (idle <? 5) eqn:Hidle.
      2:{ injection H as <- <- <-. apply Z.ltb_ge in Hidle.
          split; [exact Hc|]. split; [|lia].
          intros _ Hr. rewrite Nat.add_0_r. exact Hr. }
      apply Z.ltb_lt in Hidle.
      apply bind_ok in H as (t0 & cards & t1 & Hfind & H & ->).
      unfold lift in Hfind. injection Hfind as <- Hfind.
      apply bind_ok in H as (t2 & [st1 new1] & t3 & Hcards & H & ->).
      apply bind_ok in H as (t4 & [] & t5 & Hscroll & H & ->).
      unfold lift in Hscroll. injection Hscroll as <- Hscroll.
      apply bind_ok in H as (t6 & [] & t7 & Hemit & H & ->).
      injection Hemit as <-. cbn [fst snd] in H.
      destruct (process_cards_ok _ _ _ _ _ _ (shown pane pass) Hcards Hc)
        as [Hc1 Hr1].
      destruct (IH (S pass) st1 _ t7 H Hc1) as (Hc' & Hr' & Hi').
      split; [exact Hc'|]. split.
      + intros Hid Hr.
        rewrite !count_scrolls_app.
        assert (Hn : count_scrolls t2 = 0%nat).
        { clear -Hcards. revert st new1 t2 Hcards. generalize 0.
          induction cards as [|card cards IHc]; intros new st new1 t2 Hcards.
          - injection Hcards as <- _ _. reflexivity.
          - cbn [process_cards] in Hcards.
            apply bind_ok in Hcards as (ta & [sa na] & tb & Ha & Hb & ->).
            rewrite count_scrolls_app, (IHc _ _ _ _ Hb), Nat.add_0_r.
            destruct (process_card_cases st new card)
              as [E|[[e E]|(rid & r & _ & _ & _ & _ & E)]];
              rewrite E in Ha; try discriminate Ha;
              injection Ha as <- _ _; [reflexivity|].
            destruct job_info; reflexivity. }
        rewrite Hn. cbn [app count_scrolls List.filter length Nat.add].
        replace (pass + S (count_scrolls t7))%nat
          with (S pass + count_scrolls t7)%nat by lia.
        apply Hr'; [exact Hid|].
        rewrite (shown_S pane pass cards Hfind). apply Hr1; assumption.
      + intros _. apply Hi'. unfold next_idle. destruct (new1 =? 0); lia.
Qed.

End LoopFacts.

(** ** Deduplication *)

Section Deduplication.

Variable from_card : WebElement -> result RawReview.
Variable company : pystr.
Variable job_info : bool.

(** C1.  When the scroll/extract loop returns, no identifier occurs twice
    among the keys of the result map, and [seen] is exactly its key set;
    every card keeps both in step.  A card whose identifier is already in
    [seen], and a card whose read raises a staleness error, leave the map
    and [seen] as they were.  With [from_card] answering records whose
    [id] is the card's identifier attribute, the record stored for an
    identifier is the one parsed from the first card, in the order in
    which the passes showed them, that carried it and could be parsed. *)
Theorem scroll_loop_dedupes (fuel : nat) (pane : Pane) (t : list event)
    (st : session) :
  _scroll_and_extract_reviews from_card company job_info fuel pane
    = (t, Some (Ok st)) ->
  NoDup (keys (docs st)) /\
  seen st = list_to_set (keys (docs st)) /\
  (forall s new card t' s' new',
      consistent s ->
      process_card from_card company job_info s new card = (t', Some (Ok (s', new'))) ->
      consistent s') /\
  (forall s new card rid,
      el_get_attribute card DATA_REVIEW_ID = Ok (Some rid) -> rid ∈ seen s ->
      process_card from_card company job_info s new card = ret (s, new)) /\
  (forall s new card,
      el_get_attribute card DATA_REVIEW_ID = Raise StaleElementReferenceException \/
      ((exists rid, el_get_attribute card DATA_REVIEW_ID = Ok rid) /\
       from_card card = Raise StaleElementReferenceException) ->
      process_card from_card company job_info s new card = ret (s, new)) /\
  (id_contract from_card ->
   forall k,
     dict_get k (docs st)
     = option_map (fun r => set_company_name r company)
         (first_parsed from_card k (shown pane (count_scrolls t)))).
Proof.
  intros H. unfold _scroll_and_extract_reviews in H.
  apply bind_ok in H as (t1 & [st1 idle1] & t2 & Hloop & Hret & ->).
  injection Hret as <- <-. rewrite app_nil_r.
  assert (Hempty : consistent empty_session).
  { split; [apply NoDup_nil_2 | reflexivity]. }
  destruct (scroll_loop_ok _ _ _ _ _ _ _ _ _ _ _ Hloop Hempty)
    as ([Hnd Hseen] & Hrec & _).
  split; [exact Hnd|]. split; [exact Hseen|]. split.
  { intros s new card t' s' new'. apply process_card_consistent. }
  split.
  { intros s new card rid Hattr Hin. unfold process_card. rewrite Hattr.
    cbn [skip_card]. rewrite (bool_decide_eq_true_2 _ Hin), orb_true_r.
    reflexivity. }
  split.
  { intros s new card [Hattr|[[rid Hattr] Hparse]]; unfold process_card;
      rewrite Hattr; [reflexivity|].
    destruct (skip_card rid s); [reflexivity|]. rewrite Hparse. reflexivity. }
  intros Hid. apply Hrec; [exact Hid|].
  intros k. reflexivity.
Qed.

End Deduplication.

Lemma sample_id_contract : id_contract sample_from_card.
Proof.
  intros card r. unfold sample_from_card.
  destruct (el_get_attribute card DATA_REVIEW_ID) as [[rid|]|e];
    destruct (el_text card) as [body|e']; try discriminate.
  intros [= <-]. reflexivity.
Qed.

Lemma scroll_loop_dedupes_witness :
  exists t st,
    _scroll_and_extract_reviews sample_from_card (py "Cafe") true 7 sample_pane
      = (t, Some (Ok st)) /\
    keys (docs st) = [py "A"; py "B"; py "C"; py "D"] /\
    List.map text (values (docs st)) = [py "first"; py "b"; py "c"; py "d"] /\
    NoDup (keys (docs st)) /\
    seen st = list_to_set (keys (docs st)) /\
    dict_get (py "C") (docs st)
    = option_map (fun r => set_company_name r (py "Cafe"))
        (first_parsed sample_from_card (py "C") (shown sample_pane (count_scrolls t))).
Proof.
  destruct (_scroll_and_extract_reviews sample_from_card (py "Cafe") true 7 sample_pane)
    as [t [[st|e]|]] eqn:E; try (vm_compute in E; discriminate E).
  exists t, st. split; [reflexivity|].
  assert (Hk : keys (docs st) = [py "A"; py "B"; py "C"; py "D"] /\
               List.map text (values (docs st)) = [py "first"; py "b"; py "c"; py "d"]).
  { vm_compute in E. injection E as _ <-. split; reflexivity. }
  destruct Hk as [Hk Hv]. split; [exact Hk|]. split; [exact Hv|].
  destruct (scroll_loop_dedupes sample_from_card (py "Cafe") true 7 sample_pane t st E)
    as (Hnd & Hseen & _ & _ & _ & Hrec).
  split; [exact Hnd|]. split; [exact Hseen|].
  apply Hrec, sample_id_contract.
Defined.

(** ** Idle termination *)

Section IdleTermination.

Variable from_card : WebElement -> result RawReview.
Variable company : pystr.
Variable job_info : bool.

Lemma process_cards_unproductive (cards : list WebElement) (st : session)
    (new : Z) :
  Forall (unproductive from_card st) cards ->
  process_cards from_card company job_info cards st new = ret (st, new).
Proof.
  induction 1 as [|card cards Hcard _ IH]; [reflexivity|].
  cbn [process_cards].
  assert (E : process_card from_card company job_info st new card = ret (st, new)).
  { unfold process_card. unfold unproductive in Hcard.
    destruct (el_get_attribute card DATA_REVIEW_ID) as [rid|e].
    - destruct Hcard as [->|Hstale]; [reflexivity|].
      destruct (skip_card rid st); [reflexivity|]. rewrite Hstale. reflexivity.
    - rewrite Hcard. reflexivity. }
  rewrite E. unfold ret, bind. cbn [fst snd]. fold (@ret (session * Z) (st, new)).
  rewrite IH. reflexivity.
Qed.

(** [new_reviews_in_pass] only grows, and stays put only if the pass
    changed nothing. *)
Lemma process_cards_new (cards : list WebElement) (st : session) (new : Z)
    (t : list event) (st' : session) (new' : Z) :
  process_cards from_card company job_info cards st new = (t, Some (Ok (st', new'))) ->
  new <= new' /\ (new' = new -> st' = st /\ t = []).
Proof.
  revert st new t. induction cards as [|card cards IH]; intros st new t H.
  - injection H as <- <- <-. split; [lia | auto].
  - cbn [process_cards] in H.
    apply bind_ok in H as (t1 & [st1 new1] & t2 & H1 & H2 & ->).
    cbn [fst snd] in H2. destruct (IH _ _ _ H2) as [Hle Hsame].
    destruct (process_card_cases from_card company job_info st new card)
      as [E|[[e E]|(rid & r & _ & _ & _ & _ & E)]]; rewrite E in H1.
    + injection H1 as <- <- <-. split; [exact Hle|].
      intros Heq. destruct (Hsame Heq) as [-> ->]. auto.
    + discriminate H1.
    + injection H1 as <- <- <-. split; lia.
Qed.

Lemma scroll_loop_stalled (pane : Pane) (st : session) (n : nat) :
  forall (fuel pass : nat),
    (n <= 5)%nat -> (n <= fuel)%nat -> stalled from_card pane st pass ->
    scroll_loop from_card company job_info fuel pane pass st (5 - Z.of_nat n)
    = (idle_passes n, Some (Ok (st, 5))).
Proof.
  induction n as [|n IH]; intros fuel pass Hn Hfuel Hstalled.
  - destruct fuel; reflexivity.
  - destruct fuel as [|fuel]; [lia|]. cbn [scroll_loop].
    replace (5 - Z.of_nat (S n) <? 5) with true by (symmetry; apply Z.ltb_lt; lia).
    destruct (Hstalled pass (Nat.le_refl _)) as (cards & Hfind & Hcards & Hscroll).
    rewrite Hfind. unfold lift, bind.
    rewrite (process_cards_unproductive cards st 0 Hcards), Hscroll.
    unfold ret, emit. cbn [fst snd app].
    unfold next_idle. cbn [Z.eqb].
    replace (5 - Z.of_nat (S n) + 1) with (5 - Z.of_nat n) by lia.
    rewrite IH; [reflexivity | lia | lia |].
    intros k Hk. apply Hstalled. lia.
Qed.

Lemma count_scrolls_idle_passes (n : nat) : count_scrolls (idle_passes n) = n.
Proof.
  induction n as [|n IH]; [reflexivity|].
  unfold idle_passes in *. cbn [repeat concat].
  rewrite count_scrolls_app, IH. reflexivity.
Qed.

(** C4.  The loop returns only with the idle counter at 5.  A pass that
    inserted nothing (it then changed nothing) adds one to the counter,
    a pass that inserted something sets it to 0, and the loop goes on
    from there.  When scrolling never shows anything new, the loop makes
    exactly the passes that bring the counter to 5 and stops: five of
    them from the start, and the session is as it was. *)
Theorem scroll_loop_idle_termination (pane : Pane) :
  (forall fuel pass st idle t st' idle',
      idle <= 5 ->
      scroll_loop from_card company job_info fuel pane pass st idle
        = (t, Some (Ok (st', idle'))) ->
      idle' = 5) /\
  (forall fuel pass st idle cards t1 st1 new1,
      idle < 5 ->
      pane_find_cards pane pass = Ok cards ->
      process_cards from_card company job_info cards st 0
        = (t1, Some (Ok (st1, new1))) ->
      pane_scroll pane pass = Ok tt ->
      let idle1 := if new1 =? 0 then idle + 1 else 0 in
      let rest := scroll_loop from_card company job_info fuel pane (S pass) st1 idle1 in
      0 <= new1 /\ (new1 = 0 -> st1 = st) /\
      scroll_loop from_card company job_info (S fuel) pane pass st idle
        = (t1 ++ [EvScroll; EvSleep 1500] ++ fst rest, snd rest)) /\
  (forall fuel pass st idle,
      0 <= idle <= 5 -> stalled from_card pane st pass ->
      (Z.to_nat (5 - idle) <= fuel)%nat ->
      scroll_loop from_card company job_info fuel pane pass st idle
        = (idle_passes (Z.to_nat (5 - idle)), Some (Ok (st, 5)))) /\
  (stalled from_card pane empty_session 0 ->
   forall fuel, (5 <= fuel)%nat ->
     _scroll_and_extract_reviews from_card company job_info fuel pane
       = (idle_passes 5, Some (Ok empty_session)) /\
     count_scrolls (idle_passes 5) = 5%nat).
Proof.
  split; [|split; [|split]].
  - intros fuel pass st idle t st' idle' Hidle H.
    revert pass st idle t Hidle H.
    induction fuel as [|fuel IH]; intros pass st idle t Hidle H; cbn [scroll_loop] in H.
    + destruct (idle <? 5) eqn:E; [discriminate H|].
      injection H as _ _ <-. apply Z.ltb_ge in E. lia.
    + destruct (idle <? 5) eqn:E.
      2:{ injection H as _ _ <-. apply Z.ltb_ge in E. lia. }
      apply Z.ltb_lt in E.
      apply bind_ok in H as (t0 & cards & t1 & _ & H & ->).
      apply bind_ok in H as (t2 & [st1 new1] & t3 & _ & H & ->).
      apply bind_ok in H as (t4 & [] & t5 & _ & H & ->).
      apply bind_ok in H as (t6 & [] & t7 & _ & H & ->).
      cbn [fst snd] in H. eapply IH; [|exact H].
      unfold next_idle. destruct (new1 =? 0); lia.
  - intros fuel pass st idle cards t1 st1 new1 Hidle Hfind Hcards Hscroll idle1 rest.
    destruct (process_cards_new _ _ _ _ _ _ Hcards) as [Hle Hsame].
    split; [exact Hle|]. split; [intros H0; apply (Hsame H0)|].
    cbn [scroll_loop].
    replace (idle <? 5) with true by (symmetry; apply Z.ltb_lt; exact Hidle).
    rewrite Hfind. unfold lift, bind. rewrite Hcards, Hscroll.
    unfold emit. cbn [fst snd app]. fold idle1.
    unfold next_idle. fold idle1. fold rest.
    destruct rest as [t' r']. cbn [fst snd]. reflexivity.
  - intros fuel pass st idle Hidle Hstalled Hfuel.
    pose proof (scroll_loop_stalled pane st (Z.to_nat (5 - idle)) fuel pass) as H.
    rewrite Z2Nat.id in H by lia.
    replace (5 - (5 - idle)) with idle in H by lia.
    apply H; [lia | exact Hfuel | exact Hstalled].
  - intros Hstalled fuel Hfuel. split; [|apply count_scrolls_idle_passes].
    unfold _scroll_and_extract_reviews.
    pose proof (scroll_loop_stalled pane empty_session 5 fuel 0
                  ltac:(lia) Hfuel Hstalled) as H.
    change (5 - Z.of_nat 5) with 0 in H. rewrite H. reflexivity.
Qed.

End IdleTermination.

Lemma idle_pane_stalled : stalled sample_from_card idle_pane empty_session 0.
Proof.
  intros k _. eexists. split; [reflexivity|]. split; [|reflexivity].
  constructor; [reflexivity|]. constructor; [left; reflexivity|]. constructor.
Qed.

Lemma scroll_loop_idle_termination_witness :
  _scroll_and_extract_reviews sample_from_card (py "Cafe") true 9 idle_pane
    = ([EvScroll; EvSleep 1500; EvScroll; EvSleep 1500; EvScroll; EvSleep 1500;
        EvScroll; EvSleep 1500; EvScroll; EvSleep 1500],
       Some (Ok empty_session)) /\
  count_scrolls (idle_passes 5) = 5%nat.
Proof.
  destruct (scroll_loop_idle_termination sample_from_card (py "Cafe") true idle_pane)
    as (_ & _ & _ & H).
  apply (H idle_pane_stalled 9%nat). lia.
Defined.

(** ** Progress *)

Section Progress_formula.

Variable from_card : WebElement -> result RawReview.
Variable company : pystr.

Lemma scroll_percentage_spec (n : nat) :
  scroll_percentage n = spec_percentage (Z.of_nat n).
Proof. unfold scroll_percentage. rewrite spec_percentage_closed_form. reflexivity. Qed.

Lemma scroll_percentage_bounds (n : nat) : 60 <= scroll_percentage n <= 90.
Proof.
  unfold scroll_percentage.
  assert (0 <= Z.of_nat n / 5) by (apply Z.div_pos; lia). lia.
Qed.

Lemma scroll_percentage_mono (n n' : nat) :
  (n <= n')%nat -> scroll_percentage n <= scroll_percentage n'.
Proof.
  intros H. unfold scroll_percentage.
  assert (Z.of_nat n / 5 <= Z.of_nat n' / 5) by (apply Z.div_le_mono; lia). lia.
Qed.

End Progress_formula.

Section Monotonic.

Lemma strongly_sorted_app (l1 l2 : list Z) :
  StronglySorted Z.le l1 -> StronglySorted Z.le l2 ->
  (forall x y, In x l1 -> In y l2 -> x <= y) ->
  StronglySorted Z.le (l1 ++ l2).
Proof.
  intros H1 H2 H. induction H1 as [|a l1 Hs IH Ha]; [exact H2|].
  cbn [app]. constructor.
  - apply IH. intros x y Hx. apply H. right. exact Hx.
  - rewrite Forall_forall in *. intros y Hy.
    apply list_elem_of_In, in_app_or in Hy as [Hy|Hy].
    + apply Ha, list_elem_of_In, Hy.
    + apply H; [left; reflexivity | exact Hy].
Qed.

Lemma within_silent (lo hi : Z) (t : list event) :
  percentages t = [] -> within lo hi t.
Proof. intros H. unfold within. rewrite H. split; constructor. Qed.

Lemma within_weaken (lo hi lo' hi' : Z) (t : list event) :
  within lo hi t -> lo' <= lo -> hi <= hi' -> within lo' hi' t.
Proof.
  intros [Hs Hb] Hlo Hhi. split; [exact Hs|].
  eapply Forall_impl; [exact Hb|]. intros p Hp. simpl in Hp. lia.
Qed.

Lemma within_app (lo mid hi : Z) (t1 t2 : list event) :
  within lo mid t1 -> within mid hi t2 -> lo <= mid <= hi ->
  within lo hi (t1 ++ t2).
Proof.
  intros [Hs1 Hb1] [Hs2 Hb2] Hm. unfold within. rewrite percentages_app.
  rewrite Forall_forall in Hb1, Hb2. split.
  - apply strongly_sorted_app; [exact Hs1 | exact Hs2|].
    intros x y Hx Hy. apply list_elem_of_In in Hx, Hy.
    specialize (Hb1 x Hx). specialize (Hb2 y Hy). lia.
  - apply Forall_app. split; apply Forall_forall; intros p Hp.
    + specialize (Hb1 p Hp). lia.
    + specialize (Hb2 p Hp). lia.
Qed.

Lemma within_bind {A B} (lo mid hi : Z) (m : run A) (k : A -> run B) :
  lo <= mid <= hi ->
  within lo mid (fst m) -> (forall a, within mid hi (fst (k a))) ->
  within lo hi (fst (bind m k)).
Proof.
  intros Hm H1 H2. rewrite fst_bind.
  apply (within_app lo mid hi); [exact H1| |exact Hm].
  destruct (snd m) as [[a|e]|]; [apply H2 | |]; apply within_silent; reflexivity.
Qed.

Lemma within_catch_timeout {A} (lo hi : Z) (body handler : run A) :
  within lo hi (fst body) -> fst handler = [] ->
  within lo hi (fst (catch_timeout body handler)).
Proof.
  intros Hb Hh. unfold catch_timeout.
  destruct body as [t [[a|e]|]]; try exact Hb.
  destruct e; try exact Hb.
  destruct handler as [t' r]. cbn [fst] in *. subst t'.
  rewrite app_nil_r. exact Hb.
Qed.

Lemma within_catch_exception {A} (lo hi : Z) (body handler : run A) :
  within lo hi (fst body) -> fst handler = [] ->
  within lo hi (fst (catch_exception body handler)).
Proof.
  intros Hb Hh. unfold catch_exception.
  destruct body as [t [[a|e]|]]; try exact Hb.
  destruct handler as [t' r]. cbn [fst] in *. subst t'.
  rewrite app_nil_r. exact Hb.
Qed.

Lemma within_lift {A} (lo hi : Z) (r : result A) : within lo hi (fst (lift r)).
Proof. apply within_silent. reflexivity. Qed.

Lemma within_ret {A} (lo hi : Z) (a : A) : within lo hi (fst (ret a)).
Proof. apply within_silent. reflexivity. Qed.

Lemma within_raise {A} (lo hi : Z) (e : exn) : within lo hi (fst (@raise A e)).
Proof. apply within_silent. reflexivity. Qed.

Lemma within_sleep (lo hi ms : Z) : within lo hi (fst (emit [EvSleep ms])).
Proof. apply within_silent. reflexivity. Qed.

Lemma within_when_sink (job_info : bool) (p : Z) (rest : list event) :
  percentages rest = [] ->
  within p p (fst (when_sink job_info (EvPercentage p :: rest))).
Proof.
  intros Hrest. destruct job_info; [|apply within_silent; reflexivity].
  unfold within. cbn [when_sink emit fst percentages flat_map].
  change (flat_map _ rest) with (percentages rest). rewrite Hrest.
  split; repeat constructor; lia.
Qed.

Variable from_card : WebElement -> result RawReview.
Variable review_words : list pystr.
Variable sort_by : pystr.
Variable job_info : bool.

Lemma company_name_from_within (d : Driver) (selectors : list pystr) :
  within 40 40 (fst (company_name_from job_info d selectors)).
Proof.
  induction selectors as [|selector selectors IH]; cbn [company_name_from].
  - apply (within_bind 40 40 40); [lia | apply within_lift|].
    intros title. destruct (contains _ _); apply within_ret.
  - apply (within_bind 40 40 40); [lia| |].
    + apply within_catch_timeout; [|reflexivity].
      apply (within_bind 40 40 40); [lia | apply within_lift|].
      intros name_element.
      apply (within_bind 40 40 40); [lia | apply within_lift|].
      intros t. destruct (truthy (strip t)); [|apply within_ret].
      apply (within_bind 40 40 40); [lia | apply within_when_sink; reflexivity|].
      intros _. apply (within_bind 40 40 40); [lia | apply within_sleep|].
      intros _. apply within_ret.
    + intros name. destruct (truthy name); [apply within_ret | exact IH].
Qed.

Lemma navigate_within (d : Driver) : within 15 40 (fst (navigate job_info d)).
Proof.
  unfold navigate.
  apply (within_bind 15 15 40); [lia | apply within_when_sink; reflexivity|].
  intros _. apply (within_bind 15 15 40); [lia | apply within_lift|].
  intros _. apply (within_bind 15 15 40); [lia | apply within_sleep|].
  intros _. apply (within_bind 15 15 40); [lia | apply within_lift|].
  intros _. unfold _get_company_name.
  apply (within_bind 15 25 40); [lia| |].
  - apply (within_weaken 25 25); [apply within_when_sink; reflexivity | lia | lia].
  - intros _. apply within_catch_exception; [|reflexivity].
    apply (within_weaken 40 40); [apply company_name_from_within | lia | lia].
Qed.

Lemma dismiss_cookies_within (lo hi : Z) (d : Driver) :
  lo <= hi -> within lo hi (fst (dismiss_cookies d)).
Proof.
  intros H. unfold dismiss_cookies. apply within_catch_timeout; [|reflexivity].
  apply (within_bind lo lo hi); [lia | apply within_lift|].
  intros b. apply within_lift.
Qed.

Lemma click_first_tab_within (elements : list WebElement) :
  within 60 60 (fst (click_first_tab review_words job_info elements)).
Proof.
  induction elements as [|element elements IH]; cbn [click_first_tab].
  - apply within_ret.
  - apply (within_bind 60 60 60); [lia | apply within_lift|].
    intros is_tab. destruct is_tab; [|exact IH].
    apply (within_bind 60 60 60); [lia | apply within_lift|].
    intros _. apply (within_bind 60 60 60); [lia | apply within_when_sink; reflexivity|].
    intros _. apply (within_bind 60 60 60); [lia | apply within_sleep|].
    intros _. apply within_ret.
Qed.

Lemma click_with_selectors_within (d : Driver) (selectors : list pystr) :
  within 60 60 (fst (click_with_selectors review_words job_info d selectors)).
Proof.
  induction selectors as [|selector selectors IH]; cbn [click_with_selectors].
  - apply within_raise.
  - apply (within_bind 60 60 60); [lia| |].
    + apply within_catch_timeout; [|reflexivity].
      apply (within_bind 60 60 60); [lia | apply within_lift|].
      intros elements. apply click_first_tab_within.
    + intros clicked. destruct clicked; [apply within_ret | exact IH].
Qed.

Lemma click_reviews_tab_within (d : Driver) :
  within 45 60 (fst (click_reviews_tab review_words job_info d)).
Proof.
  unfold click_reviews_tab.
  apply (within_bind 45 45 60); [lia | apply within_when_sink; reflexivity|].
  intros _. apply (within_weaken 60 60); [apply click_with_selectors_within | lia | lia].
Qed.

Lemma click_menu_item_within (lo hi : Z) (method : pystr)
    (menu_items : list WebElement) :
  lo <= hi -> within lo hi (fst (click_menu_item method menu_items)).
Proof.
  intros H. induction menu_items as [|item menu_items IH]; cbn [click_menu_item].
  - apply within_ret.
  - apply (within_bind lo lo hi); [lia | apply within_lift|].
    intros t. destruct (contains _ _); [apply within_lift | exact IH].
Qed.

Lemma set_sort_within (lo hi : Z) (d : Driver) (method : pystr) :
  lo <= hi -> within lo hi (fst (set_sort d method)).
Proof.
  intros H. unfold set_sort. case_bool_decide; [apply within_ret|].
  apply within_catch_exception; [|reflexivity].
  apply (within_bind lo lo hi); [lia | apply within_lift|].
  intros b. apply (within_bind lo lo hi); [lia | apply within_lift|].
  intros _. apply (within_bind lo lo hi); [lia | apply within_sleep|].
  intros _. apply (within_bind lo lo hi); [lia | apply within_lift|].
  intros items. apply click_menu_item_within. exact H.
Qed.

End Monotonic.

Section MonotonicLoop.

Variable from_card : WebElement -> result RawReview.
Variable review_words : list pystr.
Variable sort_by : pystr.
Variable job_info : bool.

Lemma process_card_within (company : pystr) (st : session) (new : Z)
    (card : WebElement) :
  loop_step_ok st (process_card from_card company job_info st new card) fst.
Proof.
  pose proof (scroll_percentage_bounds (length (docs st))) as Hb.
  destruct (process_card_cases from_card company job_info st new card)
    as [E|[[e E]|(rid & r & _ & _ & _ & _ & E)]]; rewrite E.
  - split; [apply within_silent; reflexivity|].
    intros a [= <-]. cbn [fst]. split; [lia | constructor].
  - split; [apply within_silent; reflexivity|]. intros a Ha. discriminate Ha.
  - assert (Hlen : (length (docs st) <= length (docs (inserted company st r)))%nat)
      by apply length_dict_set.
    pose proof (scroll_percentage_mono _ _ Hlen) as Hmono.
    pose proof (scroll_percentage_bounds (length (docs (inserted company st r)))) as Hb'.
    split.
    + destruct job_info; [|apply within_silent; reflexivity].
      split; cbn [fst percentages flat_map app].
      * repeat constructor.
      * repeat constructor; lia.
    + intros a [= <-]. cbn [fst]. split; [lia|].
      destruct job_info; cbn [percentages flat_map app]; repeat constructor; lia.
Qed.

Lemma loop_step_bind {A B} (st : session) (m : run A) (k : A -> run B)
    (after : A -> session) (after' : B -> session) :
  loop_step_ok st m after ->
  (forall a, snd m = Some (Ok a) -> loop_step_ok (after a) (k a) after') ->
  loop_step_ok st (bind m k) after'.
Proof.
  intros [Hw Hok] Hk.
  pose proof (scroll_percentage_bounds (length (docs st))) as Hb.
  destruct m as [t1 [[a|e]|]]; cbn [fst snd] in *.
  - destruct (Hok a eq_refl) as [Hlen Hle].
    destruct (Hk a eq_refl) as [Hw2 Hok2].
    pose proof (scroll_percentage_mono _ _ Hlen) as Hmono.
    pose proof (scroll_percentage_bounds (length (docs (after a)))) as Hb'.
    unfold bind. destruct (k a) as [t2 r2] eqn:Ek. cbn [fst snd] in *.
    split.
    + apply (within_app _ (scroll_percentage (length (docs (after a)))) _);
        [|exact Hw2|lia].
      destruct Hw as [Hs Hall]. split; [exact Hs|].
      rewrite Forall_forall in *. intros p Hp.
      specialize (Hall p Hp). specialize (Hle p Hp). simpl in *. lia.
    + intros b Hb2. destruct (Hok2 b Hb2) as [Hlen2 Hle2].
      split; [lia|]. cbn [fst snd].
      rewrite percentages_app. apply Forall_app. split; [|exact Hle2].
      pose proof (scroll_percentage_mono _ _ Hlen2) as Hmono2.
      eapply Forall_impl; [exact Hle|]. intros p Hp. simpl in Hp. lia.
  - split; [exact Hw|]. intros b Hb2. discriminate Hb2.
  - split; [exact Hw|]. intros b Hb2. discriminate Hb2.
Qed.

Lemma loop_step_silent {A} (st : session) (m : run A) (after : A -> session) :
  percentages (fst m) = [] -> (forall a, snd m = Some (Ok a) -> after a = st) ->
  loop_step_ok st m after.
Proof.
  intros Ht Ha. pose proof (scroll_percentage_bounds (length (docs st))) as Hb.
  split; [apply within_silent; exact Ht|].
  intros a Hok. rewrite (Ha a Hok), Ht. split; [lia | constructor].
Qed.

Lemma process_cards_within (company : pystr) (cards : list WebElement)
    (st : session) (new : Z) :
  loop_step_ok st (process_cards from_card company job_info cards st new) fst.
Proof.
  revert st new. induction cards as [|card cards IH]; intros st new;
    cbn [process_cards].
  - apply loop_step_silent; [reflexivity|]. intros a [= <-]. reflexivity.
  - apply (loop_step_bind st _ _ fst fst); [apply process_card_within|].
    intros [st1 new1] _. apply IH.
Qed.

Lemma scroll_loop_within (company : pystr) (fuel : nat) (pane : Pane)
    (pass : nat) (st : session) (idle : Z) :
  loop_step_ok st (scroll_loop from_card company job_info fuel pane pass st idle) fst.
Proof.
  revert pass st idle. induction fuel as [|fuel IH]; intros pass st idle;
    cbn [scroll_loop]; destruct (idle <? 5).
  - apply loop_step_silent; [reflexivity|]. intros a Ha. discriminate Ha.
  - apply loop_step_silent; [reflexivity|]. intros a [= <-]. reflexivity.
  - apply (loop_step_bind st _ _ (fun _ => st) fst).
    { apply loop_step_silent; [reflexivity | reflexivity]. }
    intros cards _.
    apply (loop_step_bind st _ _ fst fst); [apply process_cards_within|].
    intros [st1 new1] _. cbn [fst snd].
    apply (loop_step_bind st1 _ _ (fun _ => st1) fst).
    { apply loop_step_silent; [reflexivity | reflexivity]. }
    intros _ _.
    apply (loop_step_bind st1 _ _ (fun _ => st1) fst).
    { apply loop_step_silent; [reflexivity | reflexivity]. }
    intros _ _. apply IH.
  - apply loop_step_silent; [reflexivity|]. intros a [= <-]. reflexivity.
Qed.

Lemma scroll_and_extract_within (company : pystr) (fuel : nat) (pane : Pane) :
  within 60 90
    (fst (_scroll_and_extract_reviews from_card company job_info fuel pane)).
Proof.
  unfold _scroll_and_extract_reviews.
  apply (within_bind 60 90 90); [lia| |intros x; apply within_ret].
  destruct (scroll_loop_within company fuel pane 0 empty_session 0) as [H _].
  apply (within_weaken _ _ _ _ _ H); [|lia].
  apply scroll_percentage_bounds.
Qed.

Lemma extract_within (fuel : nat) (d : Driver) (name : pystr) :
  within 45 90 (fst (extract from_card review_words sort_by job_info fuel d name)).
Proof.
  unfold extract.
  apply (within_bind 45 45 90); [lia | apply dismiss_cookies_within; lia|].
  intros _. apply (within_bind 45 60 90); [lia | apply click_reviews_tab_within|].
  intros _. apply (within_bind 60 60 90); [lia | apply set_sort_within; lia|].
  intros _. apply (within_bind 60 60 90); [lia | apply within_sleep|].
  intros _. apply (within_bind 60 60 90); [lia | apply within_lift|].
  intros pane. apply (within_bind 60 90 90); [lia | apply scroll_and_extract_within|].
  intros st. apply within_ret.
Qed.

(** C5.  In one attempt, whether it succeeds, fails or is still
    scrolling, the percentages written to the progress sink never
    decrease; they all lie between 15 and 90.  Navigation writes 15 to
    40, the search for the reviews tab 45 to 60, and the scroll loop 60
    to 90. *)
Theorem attempt_progress_monotonic (fuel : nat) (d : Driver) :
  StronglySorted Z.le
    (percentages (fst (attempt from_card review_words sort_by job_info fuel d))) /\
  Forall (fun p => 15 <= p <= 90)
    (percentages (fst (attempt from_card review_words sort_by job_info fuel d))) /\
  within 15 40 (fst (navigate job_info d)) /\
  (forall name,
     within 45 90
       (fst (extract from_card review_words sort_by job_info fuel d name))) /\
  (forall company pane,
     within 60 90
       (fst (_scroll_and_extract_reviews from_card company job_info fuel pane))).
Proof.
  assert (H : within 15 90
                (fst (attempt from_card review_words sort_by job_info fuel d))).
  { unfold attempt.
    apply (within_bind 15 40 90); [lia| |].
    - apply navigate_within.
    - intros name. apply (within_bind 40 90 90); [lia| |intros x; apply within_ret].
      apply (within_weaken 45 90); [apply extract_within | lia | lia]. }
  destruct H as [Hs Hb]. split; [exact Hs|]. split; [exact Hb|].
  split; [apply navigate_within|]. split; [intros name; apply extract_within|].
  intros company pane. apply scroll_and_extract_within.
Qed.

End MonotonicLoop.

(** * Further properties *)

(** ** Effects of the phases *)

Lemma bind_lift_ok {A B} (a : A) (k : A -> run B) : bind (lift (Ok a)) k = k a.
Proof. unfold lift, bind. destruct (k a). reflexivity. Qed.

Lemma bind_ret {A B} (a : A) (k : A -> run B) : bind (ret a) k = k a.
Proof. unfold ret, bind. destruct (k a). reflexivity. Qed.

Lemma bind_lift_raise {A B} (e : exn) (k : A -> run B) :
  bind (lift (Raise e)) k = ([], Some (Raise e)).
Proof. reflexivity. Qed.

Section Effects.

Variable P : event -> Prop.

Lemma all_bind {A B} (m : run A) (k : A -> run B) :
  Forall P (fst m) -> (forall a, Forall P (fst (k a))) ->
  Forall P (fst (bind m k)).
Proof.
  intros Hm Hk. rewrite fst_bind. apply Forall_app. split; [exact Hm|].
  destruct (snd m) as [[a|e]|]; [apply Hk | constructor | constructor].
Qed.

Lemma all_catch_timeout {A} (body handler : run A) :
  Forall P (fst body) -> fst handler = [] ->
  Forall P (fst (catch_timeout body handler)).
Proof.
  intros Hb Hh. unfold catch_timeout.
  destruct body as [t [[a|e]|]]; try exact Hb.
  destruct e; try exact Hb.
  destruct handler as [t' r]. cbn [fst] in *. subst t'.
  rewrite app_nil_r. exact Hb.
Qed.

Lemma all_catch_exception {A} (body handler : run A) :
  Forall P (fst body) -> fst handler = [] ->
  Forall P (fst (catch_exception body handler)).
Proof.
  intros Hb Hh. unfold catch_exception.
  destruct body as [t [[a|e]|]]; try exact Hb.
  destruct handler as [t' r]. cbn [fst] in *. subst t'.
  rewrite app_nil_r. exact Hb.
Qed.

Lemma all_when_sink (job_info : bool) (evs : list event) :
  Forall P evs -> Forall P (fst (when_sink job_info evs)).
Proof. intros H. destruct job_info; [exact H | constructor]. Qed.

End Effects.

Section SessionEvents.

Variable from_card : WebElement -> result RawReview.
Variable review_words : list pystr.
Variable sort_by : pystr.
Variable job_info : bool.

Ltac session_leaf :=
  first [ apply all_when_sink | idtac ];
  cbn [fst emit ret raise lift];
  repeat first [ exact (List.Forall_nil _)
               | apply List.Forall_cons; [split; discriminate|] ].

Lemma company_name_from_session (d : Driver) (selectors : list pystr) :
  Forall session_event (fst (company_name_from job_info d selectors)).
Proof.
  induction selectors as [|selector selectors IH]; cbn [company_name_from].
  - apply all_bind; [session_leaf|]. intros title.
    destruct (contains _ _); session_leaf.
  - apply all_bind.
    + apply all_catch_timeout; [|reflexivity].
      apply all_bind; [session_leaf|]. intros name_element.
      apply all_bind; [session_leaf|]. intros t.
      destruct (truthy (strip t)); [|session_leaf].
      apply all_bind; [session_leaf|]. intros _.
      apply all_bind; [session_leaf|]. intros _. session_leaf.
    + intros name. destruct (truthy name); [session_leaf | exact IH].
Qed.

Lemma navigate_session (d : Driver) :
  Forall session_event (fst (navigate job_info d)).
Proof.
  unfold navigate, _get_company_name.
  apply all_bind; [session_leaf|]. intros _.
  apply all_bind; [session_leaf|]. intros _.
  apply all_bind; [session_leaf|]. intros _.
  apply all_bind; [session_leaf|]. intros _.
  apply all_bind; [session_leaf|]. intros _.
  apply all_catch_exception; [|reflexivity].
  apply company_name_from_session.
Qed.

Lemma click_first_tab_session (elements : list WebElement) :
  Forall session_event (fst (click_first_tab review_words job_info elements)).
Proof.
  induction elements as [|element elements IH]; cbn [click_first_tab].
  - session_leaf.
  - apply all_bind; [session_leaf|]. intros is_tab.
    destruct is_tab; [|exact IH].
    apply all_bind; [session_leaf|]. intros _.
    apply all_bind; [session_leaf|]. intros _.
    apply all_bind; [session_leaf|]. intros _. session_leaf.
Qed.

Lemma click_with_selectors_session (d : Driver) (selectors : list pystr) :
  Forall session_event
    (fst (click_with_selectors review_words job_info d selectors)).
Proof.
  induction selectors as [|selector selectors IH]; cbn [click_with_selectors].
  - session_leaf.
  - apply all_bind.
    + apply all_catch_timeout; [|reflexivity].
      apply all_bind; [session_leaf|]. intros elements.
      apply click_first_tab_session.
    + intros clicked. destruct clicked; [session_leaf | exact IH].
Qed.

Lemma click_menu_item_session (method : pystr) (menu_items : list WebElement) :
  Forall session_event (fst (click_menu_item method menu_items)).
Proof.
  induction menu_items as [|item menu_items IH]; cbn [click_menu_item].
  - session_leaf.
  - apply all_bind; [session_leaf|]. intros t.
    destruct (contains _ _); [session_leaf | exact IH].
Qed.

Lemma process_card_session (company : pystr) (st : session) (new : Z)
    (card : WebElement) :
  Forall session_event
    (fst (process_card from_card company job_info st new card)).
Proof.
  destruct (process_card_cases from_card company job_info st new card)
    as [E|[[e E]|(rid & r & _ & _ & _ & _ & E)]]; rewrite E.
  - session_leaf.
  - session_leaf.
  - destruct job_info; session_leaf.
Qed.

Lemma process_cards_session (company : pystr) (cards : list WebElement)
    (st : session) (new : Z) :
  Forall session_event
    (fst (process_cards from_card company job_info cards st new)).
Proof.
  revert st new. induction cards as [|card cards IH]; intros st new;
    cbn [process_cards].
  - session_leaf.
  - apply all_bind; [apply process_card_session|]. intros x. apply IH.
Qed.

Lemma scroll_loop_session (company : pystr) (fuel : nat) (pane : Pane)
    (pass : nat) (st : session) (idle : Z) :
  Forall session_event
    (fst (scroll_loop from_card company job_info fuel pane pass st idle)).
Proof.
  revert pass st idle. induction fuel as [|fuel IH]; intros pass st idle;
    cbn [scroll_loop]; destruct (idle <? 5); try session_leaf.
  apply all_bind; [session_leaf|]. intros cards.
  apply all_bind; [apply process_cards_session|]. intros x.
  apply all_bind; [session_leaf|]. intros _.
  apply all_bind; [session_leaf|]. intros _. apply IH.
Qed.

Lemma extract_session (fuel : nat) (d : Driver) (name : pystr) :
  Forall session_event
    (fst (extract from_card review_words sort_by job_info fuel d name)).
Proof.
  unfold extract.
  apply all_bind.
  { unfold dismiss_cookies. apply all_catch_timeout; [|reflexivity].
    apply all_bind; [session_leaf|]. intros b. session_leaf. }
  intros _. apply all_bind.
  { unfold click_reviews_tab. apply all_bind; [session_leaf|]. intros _.
    apply click_with_selectors_session. }
  intros _. apply all_bind.
  { unfold set_sort. case_bool_decide; [session_leaf|].
    apply all_catch_exception; [|reflexivity].
    apply all_bind; [session_leaf|]. intros b.
    apply all_bind; [session_leaf|]. intros _.
    apply all_bind; [session_leaf|]. intros _.
    apply all_bind; [session_leaf|]. intros items.
    apply click_menu_item_session. }
  intros _. apply all_bind; [session_leaf|]. intros _.
  apply all_bind; [session_leaf|]. intros pane.
  apply all_bind; [|intros st; session_leaf].
  unfold _scroll_and_extract_reviews.
  apply all_bind; [apply scroll_loop_session | intros x; session_leaf].
Qed.

Lemma attempt_session (fuel : nat) (d : Driver) :
  Forall session_event
    (fst (attempt from_card review_words sort_by job_info fuel d)).
Proof.
  unfold attempt. apply all_bind; [apply navigate_session|]. intros name.
  apply all_bind; [apply extract_session | intros x; session_leaf].
Qed.

End SessionEvents.

(** ** The phases before the scroll loop *)

Section Phases.

Variable review_words : list pystr.
Variable job_info : bool.

Lemma name_source_cons (d : Driver) (selector : pystr)
    (selectors : list pystr) (name : pystr) :
  name_source d selectors name -> name_source d (selector :: selectors) name.
Proof.
  intros [H|[(s & el & t & Hin & H)|H]].
  - left. exact H.
  - right. left. exists s, el, t. split; [right; exact Hin | exact H].
  - right. right. exact H.
Qed.

Lemma company_name_from_cases (d : Driver) (selectors : list pystr) :
  (exists e, snd (company_name_from job_info d selectors) = Some (Raise e)) \/
  (exists name,
      snd (company_name_from job_info d selectors) = Some (Ok name) /\
      name_source d selectors name).
Proof.
  induction selectors as [|selector selectors IH]; cbn [company_name_from].
  - destruct (drv_title d) as [title|e] eqn:Htitle.
    + right. unfold lift, bind.
      destruct (contains GOOGLE_MAPS_SUFFIX title) eqn:Hc.
      * eexists. split; [reflexivity|]. right. right. exists title. auto.
      * eexists. split; [reflexivity|]. left. reflexivity.
    + left. exists e. reflexivity.
  - assert (Hrest : forall t0,
      (exists e, snd (bind (t0, Some (Ok []))
                   (fun name : pystr => if truthy name then ret name
                      else company_name_from job_info d selectors))
                 = Some (Raise e)) \/
      (exists name, snd (bind (t0, Some (Ok []))
                      (fun name : pystr => if truthy name then ret name
                         else company_name_from job_info d selectors))
                    = Some (Ok name) /\
                    name_source d (selector :: selectors) name)).
    { intros t0. cbn.
      destruct (company_name_from job_info d selectors) as [t' r].
      cbn [snd] in *. destruct IH as [[e He]|(name & Hn & Hs)].
      - left. exists e. exact He.
      - right. exists name. split; [exact Hn | apply name_source_cons, Hs]. }
    destruct (drv_wait_presence d selector) as [element|e] eqn:Hwait;
      unfold lift; cbn [bind app].
    + destruct (el_text element) as [t|e] eqn:Htext; cbn [bind app].
      * destruct (truthy (strip t)) eqn:Ht.
        -- right. exists (strip t). split.
           ++ destruct job_info; cbn; rewrite Ht; reflexivity.
           ++ right. left. exists selector, element, t.
              split; [left; reflexivity | auto].
        -- apply Hrest.
      * destruct e; first [apply Hrest | left; eexists; reflexivity].
    + destruct e; first [apply Hrest | left; eexists; reflexivity].
Qed.

(** X1.  [_get_company_name] never raises: whatever the browser does, it
    returns a name, and the name is "Unknown Company", the trimmed,
    non-empty text of the element found for one of the three selectors,
    or what precedes " - Google Maps" in the page title, trimmed. *)
Theorem get_company_name_never_raises (d : Driver) :
  exists name,
    snd (_get_company_name job_info d) = Some (Ok name) /\
    name_source d COMPANY_NAME_SELECTORS name.
Proof.
  unfold _get_company_name.
  destruct (company_name_from_cases d COMPANY_NAME_SELECTORS)
    as [[e He]|(name & Hn & Hs)];
    destruct (company_name_from job_info d COMPANY_NAME_SELECTORS) as [t r];
    cbn [snd] in *; subst r.
  - exists UNKNOWN_COMPANY. split; [|left; reflexivity].
    destruct job_info; reflexivity.
  - exists name. split; [|exact Hs]. destruct job_info; reflexivity.
Qed.

Lemma click_menu_item_silent (method : pystr) (menu_items : list WebElement) :
  exists r, click_menu_item method menu_items = ([], Some r).
Proof.
  induction menu_items as [|item menu_items IH]; cbn [click_menu_item].
  - eexists. reflexivity.
  - destruct (el_text item) as [t|e]; unfold lift; cbn [bind].
    + destruct (contains (lower method) (lower t)).
      * destruct (el_click item); eexists; reflexivity.
      * destruct IH as [r ->]. eexists. reflexivity.
    + eexists. reflexivity.
Qed.

Lemma set_sort_cases (d : Driver) (method : pystr) :
  method <> py "relevance" ->
  set_sort d method
  = match drv_wait_clickable d SORT_BTN with
    | Ok sort_button =>
        match el_click sort_button with
        | Ok _ => ([EvSleep 1000], Some (Ok tt))
        | Raise _ => ([], Some (Ok tt))
        end
    | Raise _ => ([], Some (Ok tt))
    end.
Proof.
  intros Hm. unfold set_sort. rewrite bool_decide_eq_false_2 by exact Hm.
  destruct (drv_wait_clickable d SORT_BTN) as [sort_button|e];
    unfold lift; cbn [bind app]; [|reflexivity].
  destruct (el_click sort_button) as [[]|e]; cbn [bind app]; [|reflexivity].
  destruct (drv_find_elements d MENU_ITEMS) as [menu_items|e];
    cbn [bind app]; [|reflexivity].
  destruct (click_menu_item_silent method menu_items) as [r ->].
  destruct r as [[]|e]; reflexivity.
Qed.

(** X2.  [set_sort] never raises and always returns: every failure of
    the sort button, of the menu or of a menu item is swallowed.  It is
    silent for "relevance"; otherwise it sleeps one second exactly when
    the sort button was found and clicked, and does nothing else. *)
Theorem set_sort_never_raises (d : Driver) (method : pystr) :
  snd (set_sort d method) = Some (Ok tt) /\
  (method = py "relevance" -> fst (set_sort d method) = []) /\
  (fst (set_sort d method) = [EvSleep 1000] <->
   method <> py "relevance" /\
   exists sort_button,
     drv_wait_clickable d SORT_BTN = Ok sort_button /\
     el_click sort_button = Ok tt) /\
  (fst (set_sort d method) = [] \/ fst (set_sort d method) = [EvSleep 1000]).
Proof.
  destruct (decide (method = py "relevance")) as [Hm|Hm].
  { unfold set_sort. rewrite bool_decide_eq_true_2 by exact Hm.
    repeat split; auto.
    - discriminate.
    - intros [H _]. contradiction. }
  rewrite (set_sort_cases d method Hm).
  destruct (drv_wait_clickable d SORT_BTN) as [sort_button|e].
  2:{ cbn. repeat split; auto; try discriminate.
      intros (_ & b & Hb & _). discriminate Hb. }
  destruct (el_click sort_button) as [[]|e] eqn:Hclick.
  2:{ cbn. repeat split; auto; try discriminate.
      intros (_ & b & Hb & Hc). injection Hb as <-. congruence. }
  cbn. repeat split; auto; try contradiction. eauto.
Qed.

Lemma click_first_tab_cases (elements : list WebElement) :
  click_first_tab review_words job_info elements = ([], Some (Ok false)) \/
  (exists e,
      click_first_tab review_words job_info elements = ([], Some (Raise e))) \/
  click_first_tab review_words job_info elements
  = (fst (when_sink job_info [EvPercentage 60; EvMessage MsgNavigated])
     ++ [EvSleep 1000], Some (Ok true)).
Proof.
  induction elements as [|element elements IH]; cbn [click_first_tab].
  - left. reflexivity.
  - destruct (is_reviews_tab review_words element) as [[|]|e];
      rewrite ?bind_lift_ok.
    + destruct (el_click element) as [[]|e].
      * right. right. destruct job_info; reflexivity.
      * right. left. exists e. reflexivity.
    + exact IH.
    + right. left. exists e. reflexivity.
Qed.

Lemma click_with_selectors_cases (d : Driver) (selectors : list pystr) :
  (exists e,
      click_with_selectors review_words job_info d selectors
      = ([], Some (Raise e))) \/
  click_with_selectors review_words job_info d selectors
  = (fst (when_sink job_info [EvPercentage 60; EvMessage MsgNavigated])
     ++ [EvSleep 1000], Some (Ok tt)).
Proof.
  induction selectors as [|selector selectors IH]; cbn [click_with_selectors].
  - left. exists TimeoutException. reflexivity.
  - destruct (drv_wait_all_present d selector) as [elements|e].
    + rewrite bind_lift_ok.
      destruct (click_first_tab_cases elements) as [E|[[e E]|E]]; rewrite E.
      * cbn.
        destruct IH as [[e He]|He]; rewrite He.
        -- left. exists e. reflexivity.
        -- right. reflexivity.
      * destruct e; cbn;
          first [ left; eexists; reflexivity
                | destruct IH as [[e He]|He]; rewrite He;
                  [left; exists e; reflexivity | right; reflexivity] ].
      * right. cbn. rewrite app_nil_r. reflexivity.
    + unfold lift. cbn [bind].
      destruct e; cbn;
        first [ left; eexists; reflexivity
              | destruct IH as [[e He]|He]; rewrite He;
                [left; exists e; reflexivity | right; reflexivity] ].
Qed.

Lemma click_with_selectors_not_found (d : Driver) (selectors : list pystr) :
  no_reviews_tab review_words d ->
  click_with_selectors review_words job_info d selectors
  = ([], Some (Raise TimeoutException)).
Proof.
  intros Hno. induction selectors as [|selector selectors IH];
    cbn [click_with_selectors]; [reflexivity|].
  specialize (Hno selector).
  destruct (drv_wait_all_present d selector) as [elements|e].
  - assert (E : click_first_tab review_words job_info elements
                = ([], Some (Ok false))).
    { induction Hno as [|element elements Hel _ IHel]; [reflexivity|].
      cbn [click_first_tab]. rewrite Hel, bind_lift_ok. exact IHel. }
    rewrite bind_lift_ok, E. cbn. rewrite IH. reflexivity.
  - subst e. cbn. rewrite IH. reflexivity.
Qed.

End Phases.

(** X3.  [click_reviews_tab] writes 45 first, and 60 only once a tab was
    clicked: either it returns and the percentages written are 45 then
    60, or it raises and only 45 was written. *)
Theorem click_reviews_tab_progress (review_words : list pystr) (d : Driver) :
  let r := click_reviews_tab review_words true d in
  (snd r = Some (Ok tt) /\ percentages (fst r) = [45; 60]) \/
  (exists e, snd r = Some (Raise e) /\ percentages (fst r) = [45]).
Proof.
  cbn zeta. unfold click_reviews_tab.
  destruct (click_with_selectors_cases review_words true d
              (List.map tab_selector review_words
               ++ [MORE_REVIEWS_BTN])) as [[e E]|E].
  - right. exists e. rewrite E. split; reflexivity.
  - left. rewrite E. split; reflexivity.
Qed.

(** X4.  When no selector leads to a reviews tab (each wait times out or
    finds only elements whose text has none of the review words),
    [click_reviews_tab] raises [TimeoutException], after having written
    45 when there is a progress sink and nothing else. *)
Theorem click_reviews_tab_not_found (review_words : list pystr)
    (job_info : bool) (d : Driver) :
  no_reviews_tab review_words d ->
  click_reviews_tab review_words job_info d
  = (fst (when_sink job_info [EvPercentage 45; EvMessage MsgLookingForTab]),
     Some (Raise TimeoutException)).
Proof.
  intros Hno. unfold click_reviews_tab.
  rewrite (click_with_selectors_not_found review_words job_info d _ Hno).
  destruct job_info; reflexivity.
Qed.

Lemma click_reviews_tab_not_found_witness :
  click_reviews_tab REVIEW_WORDS true dead_driver
  = ([EvPercentage 45; EvMessage MsgLookingForTab],
     Some (Raise TimeoutException)).
Proof.
  apply (click_reviews_tab_not_found REVIEW_WORDS true dead_driver).
  intros selector. reflexivity.
Defined.

Lemma contains_prefix (a b s : pystr) :
  contains (a ++ b) s = true -> contains a s = true.
Proof.
  intros H. apply contains_split in H as (pre & post & ->).
  rewrite <- app_assoc. apply contains_app.
Qed.

(** X5.  [REVIEW_WORDS] is a set, so the order in which [is_reviews_tab]
    tries the words is not fixed; its answer does not depend on it.  For
    every order of the four words the answer is whether the lower-cased
    text contains "review" or "rating" (the two plurals add nothing); a
    stale element is not a tab, and any other error is raised. *)
Theorem is_reviews_tab_any_order (review_words : list pystr)
    (tab : WebElement) :
  (forall w, In w review_words <-> In w REVIEW_WORDS) ->
  is_reviews_tab review_words tab
  = match el_text tab with
    | Ok t =>
        Ok (contains (py "review") (lower t)
            || contains (py "rating") (lower t))
    | Raise StaleElementReferenceException => Ok false
    | Raise e => Raise e
    end.
Proof.
  intros Hwords. unfold is_reviews_tab.
  destruct (el_text tab) as [t|e]; [|reflexivity]. f_equal.
  set (s := lower t).
  destruct (existsb (fun w => contains w s) review_words) eqn:E.
  - apply existsb_exists in E as (w & Hin & Hw).
    apply Hwords in Hin. symmetry. apply orb_true_iff.
    destruct Hin as [<-|[<-|[<-|[<-|[]]]]].
    + left. exact (contains_prefix (py "review") (py "s") s Hw).
    + left. exact Hw.
    + right. exact (contains_prefix (py "rating") (py "s") s Hw).
    + right. exact Hw.
  - symmetry. apply orb_false_iff. split.
    + destruct (contains (py "review") s) eqn:Hc; [|reflexivity].
      rewrite <- E. symmetry. apply existsb_exists.
      exists (py "review"). split; [|exact Hc].
      apply Hwords. right. left. reflexivity.
    + destruct (contains (py "rating") s) eqn:Hc; [|reflexivity].
      rewrite <- E. symmetry. apply existsb_exists.
      exists (py "rating"). split; [|exact Hc].
      apply Hwords. right. right. right. left. reflexivity.
Qed.

Lemma is_reviews_tab_any_order_witness :
  is_reviews_tab [py "rating"; py "reviews"; py "ratings"; py "review"]
    reviews_button
  = Ok true.
Proof.
  rewrite (is_reviews_tab_any_order
             [py "rating"; py "reviews"; py "ratings"; py "review"]
             reviews_button).
  - reflexivity.
  - intros w. unfold REVIEW_WORDS. cbn [In]. tauto.
Defined.

(** ** What the passes of the loop leave in the map *)

Section LoopEntries.

Variable from_card : WebElement -> result RawReview.
Variable company : pystr.
Variable job_info : bool.

Lemma scroll_loop_step (fuel : nat) (pane : Pane) (pass : nat)
    (st : session) (idle : Z) (t : list event) (st' : session) (idle' : Z) :
  idle < 5 ->
  scroll_loop from_card company job_info (S fuel) pane pass st idle
    = (t, Some (Ok (st', idle'))) ->
  exists cards t1 st1 new1 t2,
    pane_find_cards pane pass = Ok cards /\
    process_cards from_card company job_info cards st 0
      = (t1, Some (Ok (st1, new1))) /\
    pane_scroll pane pass = Ok tt /\
    scroll_loop from_card company job_info fuel pane (S pass) st1
      (next_idle idle new1) = (t2, Some (Ok (st', idle'))) /\
    t = t1 ++ [EvScroll; EvSleep 1500] ++ t2.
Proof.
  intros Hidle H. cbn [scroll_loop] in H.
  apply Z.ltb_lt in Hidle. rewrite Hidle in H.
  apply bind_ok in H as (t0 & cards & t1 & Hfind & H & ->).
  unfold lift in Hfind. injection Hfind as <- Hfind.
  apply bind_ok in H as (t2 & [st1 new1] & t3 & Hcards & H & ->).
  apply bind_ok in H as (t4 & [] & t5 & Hscroll & H & ->).
  unfold lift in Hscroll. injection Hscroll as <- Hscroll.
  apply bind_ok in H as (t6 & [] & t7 & Hemit & H & ->).
  injection Hemit as <-. cbn [fst snd] in H.
  exists cards, t2, st1, new1, t7. auto.
Qed.

Lemma scroll_loop_stop (fuel : nat) (pane : Pane) (pass : nat)
    (st : session) (idle : Z) :
  5 <= idle ->
  scroll_loop from_card company job_info fuel pane pass st idle
  = ret (st, idle).
Proof.
  intros Hidle. apply Z.ltb_ge in Hidle.
  destruct fuel; cbn [scroll_loop]; rewrite Hidle; reflexivity.
Qed.

Lemma process_cards_no_scroll (cards : list WebElement) (st : session)
    (new : Z) :
  count_scrolls (fst (process_cards from_card company job_info cards st new))
  = 0%nat.
Proof.
  revert st new. induction cards as [|card cards IH]; intros st new;
    cbn [process_cards]; [reflexivity|].
  rewrite fst_bind, count_scrolls_app.
  destruct (process_card_cases from_card company job_info st new card)
    as [E|[[e E]|(rid & r & _ & _ & _ & _ & E)]]; rewrite E; cbn [fst snd].
  - apply IH.
  - reflexivity.
  - rewrite IH. destruct job_info; reflexivity.
Qed.

Lemma entry_from_incl (cards cards' : list WebElement)
    (kv : pystr * RawReview) :
  incl cards cards' ->
  entry_from from_card company cards kv ->
  entry_from from_card company cards' kv.
Proof.
  intros Hincl (card & r & Hin & H). exists card, r.
  split; [apply Hincl, Hin | exact H].
Qed.

Lemma dict_set_Forall (P : pystr * RawReview -> Prop) (k : pystr)
    (v : RawReview) (d : dict) :
  Forall P d -> P (k, v) -> Forall P (dict_set k v d).
Proof.
  intros Hd Hkv. induction Hd as [|[k' v'] d Hx Hd IH]; cbn [dict_set].
  - constructor; [exact Hkv | constructor].
  - case_bool_decide as Hk.
    + subst k'. constructor; assumption.
    + constructor; assumption.
Qed.

Lemma process_cards_entries (cards : list WebElement) (st : session)
    (new : Z) (t : list event) (st' : session) (new' : Z)
    (before : list WebElement) :
  process_cards from_card company job_info cards st new
    = (t, Some (Ok (st', new'))) ->
  Forall (entry_from from_card company before) (docs st) ->
  Forall (entry_from from_card company (before ++ cards)) (docs st').
Proof.
  revert st new t before.
  induction cards as [|card cards IH]; intros st new t before H Hd.
  - injection H as <- <- <-. rewrite app_nil_r. exact Hd.
  - cbn [process_cards] in H.
    apply bind_ok in H as (t1 & [st1 new1] & t2 & H1 & H2 & ->).
    cbn [fst snd] in H2.
    replace (before ++ card :: cards) with ((before ++ [card]) ++ cards)
      by (rewrite <- app_assoc; reflexivity).
    apply (IH st1 new1 t2 (before ++ [card]) H2).
    assert (Hd' : Forall (entry_from from_card company (before ++ [card]))
                    (docs st)).
    { eapply List.Forall_impl; [|exact Hd]. intros kv.
      apply entry_from_incl, incl_appl, incl_refl. }
    destruct (process_card_cases from_card company job_info st new card)
      as [E|[[e E]|(rid & r & _ & _ & _ & Hparse & E)]]; rewrite E in H1.
    + injection H1 as <- <- <-. exact Hd'.
    + discriminate H1.
    + injection H1 as <- <- <-. cbn [inserted docs].
      apply dict_set_Forall; [exact Hd'|].
      exists card, r. split; [|auto].
      apply in_or_app. right. left. reflexivity.
Qed.

Lemma scroll_loop_entries (fuel : nat) (pane : Pane) (pass : nat)
    (st : session) (idle : Z) (t : list event) (st' : session) (idle' : Z) :
  scroll_loop from_card company job_info fuel pane pass st idle
    = (t, Some (Ok (st', idle'))) ->
  Forall (entry_from from_card company (shown pane pass)) (docs st) ->
  Forall (entry_from from_card company (shown pane (pass + count_scrolls t)))
    (docs st').
Proof.
  revert pass st idle t.
  induction fuel as [|fuel IH]; intros pass st idle t H Hd.
  - cbn [scroll_loop] in H. destruct (idle <? 5); [discriminate H|].
    injection H as <- <- <-. rewrite Nat.add_0_r. exact Hd.
  - destruct (Z.lt_ge_cases idle 5) as [Hidle|Hidle].
    2:{ rewrite scroll_loop_stop in H by exact Hidle.
        injection H as <- <- <-. rewrite Nat.add_0_r. exact Hd. }
    apply scroll_loop_step in H
      as (cards & t1 & st1 & new1 & t2 & Hfind & Hcards & _ & H & ->);
      [|exact Hidle].
    rewrite !count_scrolls_app.
    pose proof (process_cards_no_scroll cards st 0) as Hn.
    rewrite Hcards in Hn. cbn [fst] in Hn. rewrite Hn.
    cbn [count_scrolls List.filter length Nat.add].
    replace (pass + S (count_scrolls t2))%nat
      with (S pass + count_scrolls t2)%nat by lia.
    apply (IH (S pass) st1 _ t2 H).
    rewrite (shown_S pane pass cards Hfind).
    exact (process_cards_entries cards st 0 t1 st1 new1 (shown pane pass)
             Hcards Hd).
Qed.

Lemma scroll_loop_records_entries (fuel : nat) (pane : Pane)
    (t : list event) (st : session) :
  _scroll_and_extract_reviews from_card company job_info fuel pane
    = (t, Some (Ok st)) ->
  Forall (entry_from from_card company (shown pane (count_scrolls t)))
    (docs st).
Proof.
  intros H. unfold _scroll_and_extract_reviews in H.
  apply bind_ok in H as (t1 & [st1 idle1] & t2 & Hloop & Hret & ->).
  injection Hret as <- <-. rewrite app_nil_r.
  apply (scroll_loop_entries fuel pane 0 empty_session 0 t1 st1 idle1 Hloop).
  constructor.
Qed.

End LoopEntries.

(** X6.  Every record in the map that the scroll loop returns was parsed
    by [from_card] from a card that the panel showed during the passes
    made, is stored under its own [id], and carries the company name;
    this holds for any parser.  The loop invents no record and takes
    none from a pass it did not make. *)
Theorem scroll_loop_records_come_from_cards
    (from_card : WebElement -> result RawReview) (company : pystr)
    (job_info : bool) (fuel : nat) (pane : Pane) (t : list event)
    (st : session) :
  _scroll_and_extract_reviews from_card company job_info fuel pane
    = (t, Some (Ok st)) ->
  Forall (entry_from from_card company (shown pane (count_scrolls t)))
    (docs st).
Proof.
  apply scroll_loop_records_entries.
Qed.

Lemma scroll_loop_records_come_from_cards_witness :
  exists t st,
    _scroll_and_extract_reviews sample_from_card (py "Cafe") true 7
      sample_pane = (t, Some (Ok st)) /\
    count_scrolls t = 7%nat /\
    Forall (entry_from sample_from_card (py "Cafe") (shown sample_pane 7))
      (docs st).
Proof.
  destruct (_scroll_and_extract_reviews sample_from_card (py "Cafe") true 7
              sample_pane) as [t [[st|e]|]] eqn:E;
    try (vm_compute in E; discriminate E).
  exists t, st. split; [reflexivity|].
  assert (Hn : count_scrolls t = 7%nat).
  { vm_compute in E. injection E as <- _. reflexivity. }
  split; [exact Hn|]. rewrite <- Hn.
  exact (scroll_loop_records_come_from_cards sample_from_card (py "Cafe")
           true 7 sample_pane t st E).
Defined.

(** ** The browser and the results of the supervisor *)

Section SupervisorFacts.

Variable from_card : WebElement -> result RawReview.
Variable review_words : list pystr.
Variable sort_by : pystr.
Variable job_info : bool.

Lemma count_starts_app (t1 t2 : list event) :
  count_starts (t1 ++ t2) = (count_starts t1 + count_starts t2)%nat.
Proof. unfold count_starts. rewrite List.filter_app, length_app. reflexivity. Qed.

Lemma count_starts_session (t : list event) :
  Forall session_event t -> count_starts t = 0%nat.
Proof.
  induction 1 as [|ev t [Hs _] _ IH]; [reflexivity|].
  change (ev :: t) with ([ev] ++ t). rewrite count_starts_app, IH.
  destruct ev; try reflexivity. contradiction Hs. reflexivity.
Qed.

Lemma count_starts_start_driver (o : start_outcome) :
  count_starts (fst (_start_driver o)) = 1%nat.
Proof. destruct o as [d|[|]]; reflexivity. Qed.

Lemma scrape_attempts_starts (fuel : nat) (browsers : nat -> start_outcome)
    (attempts : list nat) (company : pystr) :
  (count_starts
     (fst (scrape_attempts from_card review_words sort_by job_info fuel
             browsers attempts company))
   <= length attempts)%nat /\
  (attempts <> [] ->
   1 <= count_starts
          (fst (scrape_attempts from_card review_words sort_by job_info fuel
                  browsers attempts company)))%nat.
Proof.
  revert company.
  induction attempts as [|attempt_no attempts IH]; intros company;
    cbn [scrape_attempts].
  - split; [cbn; lia | congruence].
  - pose proof (count_starts_start_driver (browsers attempt_no)) as H0.
    destruct (_start_driver (browsers attempt_no)) as [t0 [d|]].
    + pose proof (attempt_session from_card review_words sort_by job_info
                    fuel d) as H1.
      apply count_starts_session in H1.
      destruct (attempt from_card review_words sort_by job_info fuel d)
        as [t1 [[[name docs]|e]|]]; cbn [fst] in *.
      * rewrite count_starts_app. cbn [length]. lia.
      * destruct (IH (company_after job_info d company)) as [IH1 _].
        destruct (scrape_attempts from_card review_words sort_by job_info
                    fuel browsers attempts (company_after job_info d company))
          as [t r].
        cbn [fst] in *. rewrite !count_starts_app.
        assert (Hs : count_starts
                       (if (attempt_no <? 2)%nat then [EvSleep 5000] else [])
                     = 0%nat) by (destruct (attempt_no <? 2)%nat; reflexivity).
        rewrite Hs. cbn [count_starts List.filter length]. cbn [length]. lia.
      * rewrite count_starts_app. cbn [length]. lia.
    + destruct (IH company) as [IH1 _].
      destruct (scrape_attempts from_card review_words sort_by job_info
                  fuel browsers attempts company) as [t r].
      cbn [fst] in *. rewrite !count_starts_app.
      cbn [count_starts List.filter length]. cbn [length]. lia.
Qed.

Lemma scrape_attempts_running (fuel : nat) (browsers : nat -> start_outcome)
    (attempts : list nat) (company : pystr) (r : scrape_result) :
  snd (scrape_attempts from_card review_words sort_by job_info fuel
         browsers attempts company) = Some r ->
  res_reviews r <> [] ->
  exists t0 t1,
    fst (scrape_attempts from_card review_words sort_by job_info fuel
           browsers attempts company) = t0 ++ EvStartDriver :: t1 /\
    Forall session_event t1.
Proof.
  revert company.
  induction attempts as [|attempt_no attempts IH]; intros company;
    cbn [scrape_attempts].
  - intros [= <-] H. contradiction H. reflexivity.
  - destruct (browsers attempt_no) as [d|assigned]; cbn [_start_driver].
    + pose proof (attempt_session from_card review_words sort_by job_info
                    fuel d) as H1.
      destruct (attempt from_card review_words sort_by job_info fuel d)
        as [t1 [[[name docs]|e]|]]; cbn [fst snd] in *.
      * intros _ _. exists [], t1. split; [reflexivity | exact H1].
      * specialize (IH (company_after job_info d company)).
        destruct (scrape_attempts from_card review_words sort_by job_info
                    fuel browsers attempts (company_after job_info d company))
          as [t r'].
        cbn [fst snd] in *. intros Hr Hne.
        destruct (IH Hr Hne) as (t0 & t2 & -> & Hs).
        exists ([EvStartDriver] ++ t1 ++ [EvQuitDriver]
                ++ (if (attempt_no <? 2)%nat then [EvSleep 5000] else [])
                ++ t0), t2.
        split; [|exact Hs]. rewrite <- !app_assoc. reflexivity.
      * discriminate.
    + specialize (IH company).
      destruct (scrape_attempts from_card review_words sort_by job_info
                  fuel browsers attempts company) as [t r'].
      cbn [fst snd] in *. intros Hr Hne.
      destruct (IH Hr Hne) as (t0 & t2 & -> & Hs).
      exists ((EvStartDriver :: (if assigned then [EvQuitDriver] else []))
              ++ [EvSleep 5000] ++ t0), t2.
      split; [|exact Hs]. rewrite <- !app_assoc. reflexivity.
Qed.

Lemma attempt_ok (fuel : nat) (d : Driver) (t : list event)
    (name : pystr) (reviews : dict) :
  attempt from_card review_words sort_by job_info fuel d
    = (t, Some (Ok (name, reviews))) ->
  exists pane t' st,
    drv_wait_pane d = Ok pane /\
    _scroll_and_extract_reviews from_card name job_info fuel pane
      = (t', Some (Ok st)) /\
    reviews = docs st.
Proof.
  intros H. unfold attempt in H.
  apply bind_ok in H as (t1 & name' & t2 & _ & H & _).
  apply bind_ok in H as (t3 & docs' & t4 & H & Hret & _).
  injection Hret as _ <- <-.
  unfold extract in H.
  apply bind_ok in H as (? & [] & ? & _ & H & _).
  apply bind_ok in H as (? & [] & ? & _ & H & _).
  apply bind_ok in H as (? & [] & ? & _ & H & _).
  apply bind_ok in H as (? & [] & ? & _ & H & _).
  apply bind_ok in H as (? & pane & ? & Hpane & H & _).
  apply bind_ok in H as (t' & st & ? & Hloop & Hret & _).
  injection Hret as _ <-. unfold lift in Hpane. injection Hpane as _ Hpane.
  exists pane, t', st. auto.
Qed.

Lemma entries_ids (cards : list WebElement) (company : pystr) (d : dict) :
  Forall (entry_from from_card company cards) d ->
  List.map id (values d) = keys d /\
  Forall (fun rv => company_name rv = company) (values d).
Proof.
  induction 1 as [|kv d (card & r & _ & _ & ->) _ [IH1 IH2]].
  - split; [reflexivity | constructor].
  - unfold values, keys in *. cbn [List.map fst snd]. split.
    + f_equal. exact IH1.
    + constructor; [reflexivity | exact IH2].
Qed.

Lemma scrape_attempts_distinct (fuel : nat) (browsers : nat -> start_outcome)
    (attempts : list nat) (company : pystr) (r : scrape_result) :
  snd (scrape_attempts from_card review_words sort_by job_info fuel
         browsers attempts company) = Some r ->
  NoDup (List.map id (res_reviews r)) /\
  Forall (fun rv => company_name rv = res_company_name r) (res_reviews r).
Proof.
  revert company.
  induction attempts as [|attempt_no attempts IH]; intros company;
    cbn [scrape_attempts].
  - intros [= <-]. cbn. split; constructor.
  - destruct (browsers attempt_no) as [d|assigned]; cbn [_start_driver].
    + destruct (attempt from_card review_words sort_by job_info fuel d)
        as [t1 [[[name reviews]|e]|]] eqn:Hattempt; cbn [fst snd] in *.
      * intros [= <-]. cbn [res_reviews res_company_name].
        apply attempt_ok in Hattempt as (pane & t' & st & _ & Hloop & ->).
        pose proof (scroll_loop_records_entries _ _ _ _ _ _ _ Hloop) as He.
        apply entries_ids in He as [Hids Hname].
        split; [|exact Hname]. rewrite Hids.
        unfold _scroll_and_extract_reviews in Hloop.
        apply bind_ok in Hloop as (ta & [sa ia] & tb & Hloop & Hret & _).
        injection Hret as _ <-.
        apply (scroll_loop_ok from_card name job_info) in Hloop
          as [[Hnd _] _]; [exact Hnd|].
        split; [constructor | reflexivity].
      * specialize (IH (company_after job_info d company)).
        destruct (scrape_attempts from_card review_words sort_by job_info
                    fuel browsers attempts (company_after job_info d company))
          as [t r'].
        exact IH.
      * discriminate.
    + specialize (IH company).
      destruct (scrape_attempts from_card review_words sort_by job_info
                  fuel browsers attempts company) as [t r'].
      exact IH.
Qed.

End SupervisorFacts.

(** X7.  [scrape] starts the browser at least once and at most three
    times, whatever the browser and the page do. *)
Theorem scrape_starts_browser (from_card : WebElement -> result RawReview)
    (review_words : list pystr) (sort_by : pystr) (job_info : bool)
    (fuel : nat) (browsers : nat -> start_outcome) (self_company_name : pystr) :
  (1 <= count_starts
          (fst (scrape from_card review_words sort_by job_info fuel browsers
                  self_company_name)) <= 3)%nat.
Proof.
  unfold scrape.
  destruct (scrape_attempts_starts from_card review_words sort_by job_info
              fuel browsers [0; 1; 2]%nat self_company_name) as [Hle Hge].
  split; [apply Hge; discriminate | exact Hle].
Qed.

(** X8.  A [scrape] that returns reviews leaves its browser running:
    after the last start of the browser its trace has no quit. *)
Theorem scrape_leaves_browser_running
    (from_card : WebElement -> result RawReview)
    (review_words : list pystr) (sort_by : pystr) (job_info : bool)
    (fuel : nat) (browsers : nat -> start_outcome) (self_company_name : pystr)
    (r : scrape_result) :
  snd (scrape from_card review_words sort_by job_info fuel browsers
         self_company_name) = Some r ->
  res_reviews r <> [] ->
  exists t0 t1,
    fst (scrape from_card review_words sort_by job_info fuel browsers
           self_company_name) = t0 ++ EvStartDriver :: t1 /\
    Forall session_event t1.
Proof.
  unfold scrape. apply scrape_attempts_running.
Qed.

Lemma scrape_leaves_browser_running_witness :
  exists t0 t1,
    fst (scrape sample_from_card REVIEW_WORDS (py "relevance") true 7
           (fun attempt_no =>
              match attempt_no with
              | O => Started dead_driver
              | _ => Started sample_driver
              end) UNKNOWN_COMPANY) = t0 ++ EvStartDriver :: t1 /\
    Forall session_event t1.
Proof.
  eapply (scrape_leaves_browser_running sample_from_card REVIEW_WORDS
            (py "relevance") true 7).
  - vm_compute. reflexivity.
  - vm_compute. discriminate.
Defined.

(** X9.  The reviews that [scrape] returns have pairwise distinct [id]s,
    and each carries the company name that is returned with them. *)
Theorem scrape_reviews_distinct (from_card : WebElement -> result RawReview)
    (review_words : list pystr) (sort_by : pystr) (job_info : bool)
    (fuel : nat) (browsers : nat -> start_outcome) (self_company_name : pystr)
    (r : scrape_result) :
  snd (scrape from_card review_words sort_by job_info fuel browsers
         self_company_name) = Some r ->
  NoDup (List.map id (res_reviews r)) /\
  Forall (fun rv => company_name rv = res_company_name r) (res_reviews r).
Proof.
  unfold scrape. apply scrape_attempts_distinct.
Qed.

Lemma scrape_reviews_distinct_witness :
  exists r,
    snd (scrape sample_from_card REVIEW_WORDS (py "relevance") true 7
           (fun _ => Started sample_driver) UNKNOWN_COMPANY) = Some r /\
    res_company_name r = py "Cafe" /\
    List.map id (res_reviews r) = [py "A"; py "B"; py "C"; py "D"] /\
    NoDup (List.map id (res_reviews r)) /\
    Forall (fun rv => company_name rv = res_company_name r) (res_reviews r).
Proof.
  destruct (snd (scrape sample_from_card REVIEW_WORDS (py "relevance") true 7
                   (fun _ => Started sample_driver) UNKNOWN_COMPANY))
    as [r|] eqn:E; [|vm_compute in E; discriminate E].
  exists r. split; [reflexivity|].
  assert (H : res_company_name r = py "Cafe" /\
              List.map id (res_reviews r) = [py "A"; py "B"; py "C"; py "D"]).
  { vm_compute in E. injection E as <-. split; reflexivity. }
  destruct H as [Hn Hi]. split; [exact Hn|]. split; [exact Hi|].
  exact (scrape_reviews_distinct sample_from_card REVIEW_WORDS
           (py "relevance") true 7 (fun _ => Started sample_driver)
           UNKNOWN_COMPANY r E).
Defined.

(** ** How long the loop runs *)

Section LoopLength.

Variable from_card : WebElement -> result RawReview.
Variable company : pystr.
Variable job_info : bool.

Lemma length_dict_set_new (k : pystr) (v : RawReview) (d : dict) :
  k ∉ keys d -> length (dict_set k v d) = S (length d).
Proof.
  intros Hk.
  assert (H : length (keys (dict_set k v d)) = S (length (keys d))).
  { rewrite keys_dict_set, bool_decide_eq_false_2 by exact Hk.
    rewrite length_app. cbn. lia. }
  unfold keys in H. rewrite !length_map in H. exact H.
Qed.

(** With the identifier contract, [new_reviews_in_pass] counts the
    entries that the pass added to the map. *)
Lemma process_cards_growth (cards : list WebElement) (st : session)
    (new : Z) (t : list event) (st' : session) (new' : Z) :
  id_contract from_card -> consistent st ->
  process_cards from_card company job_info cards st new
    = (t, Some (Ok (st', new'))) ->
  Z.of_nat (length (docs st')) - Z.of_nat (length (docs st)) = new' - new.
Proof.
  intros Hid. revert st new t.
  induction cards as [|card cards IH]; intros st new t Hc H.
  - injection H as <- <- <-. lia.
  - cbn [process_cards] in H.
    apply bind_ok in H as (t1 & [st1 new1] & t2 & H1 & H2 & ->).
    cbn [fst snd] in H2.
    pose proof (process_card_consistent from_card company job_info
                  _ _ _ _ _ _ Hc H1) as Hc1.
    specialize (IH st1 new1 t2 Hc1 H2).
    destruct (process_card_cases from_card company job_info st new card)
      as [E|[[e E]|(rid & r & Hattr & _ & Hnew & Hparse & E)]];
      rewrite E in H1.
    + injection H1 as <- <- <-. exact IH.
    + discriminate H1.
    + injection H1 as <- <- <-.
      pose proof (Hid card r Hparse) as Hattr'. rewrite Hattr in Hattr'.
      injection Hattr' as ->.
      destruct Hc as [_ Hseen]. rewrite Hseen in Hnew.
      rewrite elem_of_list_to_set in Hnew.
      cbn [inserted docs] in IH.
      rewrite (length_dict_set_new _ _ _ Hnew) in IH. lia.
Qed.

Lemma process_cards_returns (cards : list WebElement) (st : session)
    (new : Z) :
  Forall (card_ok from_card) cards ->
  exists t st' new',
    process_cards from_card company job_info cards st new
    = (t, Some (Ok (st', new'))).
Proof.
  intros Hok. revert st new.
  induction Hok as [|card cards [Hattr Hparse] _ IH]; intros st new.
  - exists [], st, new. reflexivity.
  - cbn [process_cards].
    destruct (process_card_cases from_card company job_info st new card)
      as [E|[[e E]|(rid & r & _ & _ & _ & _ & E)]]; rewrite E.
    + rewrite bind_ret. apply IH.
    + exfalso. revert E. unfold process_card.
      destruct (el_get_attribute card DATA_REVIEW_ID) as [rid|e'].
      * destruct (skip_card rid st); [discriminate|].
        destruct (from_card card) as [r|e'].
        -- destruct job_info; [|discriminate].
           rewrite progress_percentage_exact by lia. discriminate.
        -- rewrite (Hparse e' eq_refl). discriminate.
      * rewrite (Hattr e' eq_refl). discriminate.
    + destruct (IH (inserted company st r) (new + 1)) as (t & st' & new' & H).
      unfold bind. cbn [fst snd]. rewrite H. eauto.
Qed.

Lemma scroll_loop_pass (fuel : nat) (pane : Pane) (pass : nat) (st : session)
    (idle : Z) (cards : list WebElement) (t1 : list event) (st1 : session)
    (new1 : Z) :
  idle < 5 ->
  pane_find_cards pane pass = Ok cards ->
  process_cards from_card company job_info cards st 0
    = (t1, Some (Ok (st1, new1))) ->
  pane_scroll pane pass = Ok tt ->
  scroll_loop from_card company job_info (S fuel) pane pass st idle
  = (t1 ++ [EvScroll; EvSleep 1500]
     ++ fst (scroll_loop from_card company job_info fuel pane (S pass) st1
               (next_idle idle new1)),
     snd (scroll_loop from_card company job_info fuel pane (S pass) st1
            (next_idle idle new1))).
Proof.
  intros Hidle Hfind Hcards Hscroll. cbn [scroll_loop].
  apply Z.ltb_lt in Hidle. rewrite Hidle, Hfind, bind_lift_ok, Hcards.
  unfold bind at 1. rewrite Hscroll, bind_lift_ok. cbn [fst snd].
  destruct (scroll_loop from_card company job_info fuel pane (S pass) st1
              (next_idle idle new1)) as [t r].
  unfold emit, bind. cbn [fst snd]. reflexivity.
Qed.

Lemma scroll_loop_length (fuel : nat) (pane : Pane) (pass : nat)
    (st : session) (idle : Z) (t : list event) (st' : session) (idle' : Z) :
  0 <= idle <= 5 -> consistent st ->
  scroll_loop from_card company job_info fuel pane pass st idle
    = (t, Some (Ok (st', idle'))) ->
  5 - idle <= Z.of_nat (count_scrolls t) /\
  (id_contract from_card ->
   Z.of_nat (length (docs st)) <= Z.of_nat (length (docs st')) /\
   Z.of_nat (count_scrolls t) + idle
   <= 5 * (Z.of_nat (length (docs st')) - Z.of_nat (length (docs st))) + 5).
Proof.
  revert pass st idle t.
  induction fuel as [|fuel IH]; intros pass st idle t Hidle Hc H.
  - cbn [scroll_loop] in H. destruct (idle <? 5) eqn:E; [discriminate H|].
    apply Z.ltb_ge in E. injection H as <- <- <-. cbn. lia.
  - destruct (Z.lt_ge_cases idle 5) as [Hlt|Hge].
    2:{ rewrite scroll_loop_stop in H by exact Hge.
        injection H as <- <- <-. cbn. lia. }
    apply scroll_loop_step in H
      as (cards & t1 & st1 & new1 & t2 & Hfind & Hcards & _ & H & ->);
      [|exact Hlt].
    rewrite !count_scrolls_app.
    pose proof (process_cards_no_scroll from_card company job_info cards st 0)
      as Hn.
    rewrite Hcards in Hn. cbn [fst] in Hn. rewrite Hn.
    cbn [count_scrolls List.filter length Nat.add].
    destruct (process_cards_ok from_card company job_info _ _ _ _ _ _ []
                Hcards Hc) as [Hc1 _].
    destruct (process_cards_new from_card company job_info _ _ _ _ _ _ Hcards)
      as [Hnew Hsame].
    assert (Hidle1 : 0 <= next_idle idle new1 <= 5)
      by (unfold next_idle; destruct (new1 =? 0); lia).
    destruct (IH (S pass) st1 _ t2 Hidle1 Hc1 H) as [Hlo Hhi].
    split.
    + unfold next_idle in Hlo. destruct (new1 =? 0); lia.
    + intros Hid. specialize (Hhi Hid).
      pose proof (process_cards_growth _ _ _ _ _ _ Hid Hc Hcards) as Hg.
      unfold next_idle in Hhi. destruct (new1 =? 0) eqn:E.
      * apply Z.eqb_eq in E. lia.
      * apply Z.eqb_neq in E. lia.
Qed.

Lemma entries_within (pane : Pane) (universe : list pystr) (n : nat)
    (d : dict) :
  id_contract from_card -> ids_within pane universe ->
  Forall (entry_from from_card company (shown pane n)) d ->
  incl (keys d) universe.
Proof.
  intros Hid Hu Hd k Hk. unfold keys in Hk.
  apply in_map_iff in Hk as ([k' v] & <- & Hin).
  rewrite List.Forall_forall in Hd.
  destruct (Hd _ Hin) as (card & r & Hcard & Hparse & [= -> ->]).
  cbn [fst]. unfold shown in Hcard.
  apply in_flat_map in Hcard as (pass & _ & Hcard).
  destruct (pane_find_cards pane pass) as [cards|e] eqn:Hfind; [|destruct Hcard].
  exact (Hu pass cards card (id r) Hfind Hcard (Hid card r Hparse)).
Qed.

Lemma scroll_loop_returns (pane : Pane) (universe : list pystr) :
  id_contract from_card -> pane_ok from_card pane ->
  ids_within pane universe ->
  forall (fuel pass : nat) (st : session) (idle : Z),
    0 <= idle <= 5 -> consistent st ->
    Forall (entry_from from_card company (shown pane pass)) (docs st) ->
    5 * (Z.of_nat (length universe) - Z.of_nat (length (docs st)))
    + (5 - idle) <= Z.of_nat fuel ->
    exists t st' idle',
      scroll_loop from_card company job_info fuel pane pass st idle
      = (t, Some (Ok (st', idle'))).
Proof.
  intros Hid Hpane Hu.
  assert (Hsize : forall n st, consistent st ->
            Forall (entry_from from_card company (shown pane n)) (docs st) ->
            (length (docs st) <= length universe)%nat).
  { intros n st [Hnd _] Hd.
    pose proof (entries_within pane universe n (docs st) Hid Hu Hd) as Hincl.
    apply NoDup_ListNoDup in Hnd.
    pose proof (List.NoDup_incl_length Hnd Hincl) as Hlen.
    unfold keys in Hlen. rewrite length_map in Hlen. exact Hlen. }
  induction fuel as [|fuel IH]; intros pass st idle Hidle Hc Hd Hfuel.
  - pose proof (Hsize pass st Hc Hd).
    rewrite scroll_loop_stop by lia. unfold ret. eauto.
  - destruct (Z.lt_ge_cases idle 5) as [Hlt|Hge].
    2:{ rewrite scroll_loop_stop by exact Hge. unfold ret. eauto. }
    destruct (Hpane pass) as (cards & Hfind & Hscroll & Hcards).
    destruct (process_cards_returns cards st 0 Hcards)
      as (t1 & st1 & new1 & Hrun).
    rewrite (scroll_loop_pass fuel pane pass st idle cards t1 st1 new1
               Hlt Hfind Hrun Hscroll).
    destruct (process_cards_ok from_card company job_info _ _ _ _ _ _ []
                Hrun Hc) as [Hc1 _].
    pose proof (process_cards_entries from_card company job_info cards st 0
                  t1 st1 new1 (shown pane pass) Hrun Hd) as Hd1.
    rewrite <- (shown_S pane pass cards Hfind) in Hd1.
    pose proof (process_cards_growth _ _ _ _ _ _ Hid Hc Hrun) as Hg.
    destruct (process_cards_new from_card company job_info _ _ _ _ _ _ Hrun)
      as [Hnew _].
    pose proof (Hsize (S pass) st1 Hc1 Hd1) as Hs1.
    destruct (IH (S pass) st1 (next_idle idle new1)) as (t2 & st' & idle' & E).
    + unfold next_idle. destruct (new1 =? 0); lia.
    + exact Hc1.
    + exact Hd1.
    + unfold next_idle. destruct (new1 =? 0) eqn:E.
      * apply Z.eqb_eq in E. lia.
      * apply Z.eqb_neq in E. lia.
    + rewrite E. cbn [fst snd]. eauto.
Qed.

End LoopLength.

(** X10.  A run of the scroll loop that returns has scrolled at least
    five times (the idle counter has to reach 5), and, when the records
    carry the identifier of their card, at most five times per review
    found plus five. *)
Theorem scroll_loop_passes_bounds (from_card : WebElement -> result RawReview)
    (company : pystr) (job_info : bool) (fuel : nat) (pane : Pane)
    (t : list event) (st : session) :
  _scroll_and_extract_reviews from_card company job_info fuel pane
    = (t, Some (Ok st)) ->
  (5 <= count_scrolls t)%nat /\
  (id_contract from_card ->
   (count_scrolls t <= 5 * length (docs st) + 5)%nat).
Proof.
  intros H. unfold _scroll_and_extract_reviews in H.
  apply bind_ok in H as (t1 & [st1 idle1] & t2 & Hloop & Hret & ->).
  injection Hret as <- <-. rewrite app_nil_r.
  assert (Hc : consistent empty_session) by (split; [constructor | reflexivity]).
  destruct (scroll_loop_length from_card company job_info fuel pane 0
              empty_session 0 t1 st1 idle1 ltac:(lia) Hc Hloop) as [Hlo Hhi].
  split; [lia|]. intros Hid. destruct (Hhi Hid) as [_ Hhi'].
  cbn [empty_session docs length] in Hhi'. lia.
Qed.

Lemma scroll_loop_passes_bounds_witness :
  exists t st,
    _scroll_and_extract_reviews sample_from_card (py "Cafe") true 7
      sample_pane = (t, Some (Ok st)) /\
    count_scrolls t = 7%nat /\ length (docs st) = 4%nat /\
    (5 <= count_scrolls t)%nat /\
    (count_scrolls t <= 5 * length (docs st) + 5)%nat.
Proof.
  destruct (_scroll_and_extract_reviews sample_from_card (py "Cafe") true 7
              sample_pane) as [t [[st|e]|]] eqn:E;
    try (vm_compute in E; discriminate E).
  exists t, st. split; [reflexivity|].
  assert (Hn : count_scrolls t = 7%nat /\ length (docs st) = 4%nat).
  { vm_compute in E. injection E as <- <-. split; reflexivity. }
  destruct Hn as [Hn Hd]. split; [exact Hn|]. split; [exact Hd|].
  destruct (scroll_loop_passes_bounds sample_from_card (py "Cafe") true 7
              sample_pane t st E) as [Hlo Hhi].
  split; [exact Hlo | exact (Hhi sample_id_contract)].
Defined.

(** X11.  The scroll loop terminates on every listing with finitely many
    reviews: when the records carry the identifier of their card, every
    pass succeeds with cards that can be read or are stale, and all
    identifiers lie in a finite [universe], the loop returns within
    [5 * length universe + 5] passes. *)
Theorem scroll_loop_terminates (from_card : WebElement -> result RawReview)
    (company : pystr) (job_info : bool) (pane : Pane)
    (universe : list pystr) (fuel : nat) :
  id_contract from_card -> pane_ok from_card pane ->
  ids_within pane universe ->
  (5 * length universe + 5 <= fuel)%nat ->
  exists t st,
    _scroll_and_extract_reviews from_card company job_info fuel pane
    = (t, Some (Ok st)).
Proof.
  intros Hid Hpane Hu Hfuel. unfold _scroll_and_extract_reviews.
  assert (Hc : consistent empty_session) by (split; [constructor | reflexivity]).
  destruct (scroll_loop_returns from_card company job_info pane universe
              Hid Hpane Hu fuel 0%nat empty_session 0)
    as (t & st & idle & E).
  - lia.
  - exact Hc.
  - constructor.
  - cbn [empty_session docs length]. lia.
  - rewrite E. exists (t ++ []), st. reflexivity.
Qed.

Lemma scroll_loop_terminates_witness :
  exists t st,
    _scroll_and_extract_reviews sample_from_card (py "Cafe") true 25
      sample_pane = (t, Some (Ok st)).
Proof.
  apply (scroll_loop_terminates sample_from_card (py "Cafe") true sample_pane
           [py "A"; py "B"; py "C"; py "D"] 25).
  - exact sample_id_contract.
  - intros [|[|k]]; eexists; (split; [reflexivity|]); (split; [reflexivity|]);
      repeat constructor; intros e H; vm_compute in H; congruence.
  - intros [|[|k]] cards card rid [= <-] Hin Hattr;
      cbn [In] in Hin; intuition subst; vm_compute in Hattr;
      try discriminate Hattr; injection Hattr as <-; vm_compute; tauto.
  - cbn. lia.
Defined.

Section NoReturn.

Variable from_card : WebElement -> result RawReview.
Variable company : pystr.
Variable job_info : bool.

Variable rid0 : pystr.
Variable c0 : WebElement.
Variable r0 : RawReview.
Hypothesis c0_attr : el_get_attribute c0 DATA_REVIEW_ID = Ok (Some rid0).
Hypothesis rid0_truthy : truthy rid0 = true.
Hypothesis c0_parse : from_card c0 = Ok r0.

Lemma process_card_c0 (st : session) (new : Z) :
  rid0 ∉ seen st ->
  exists t,
    process_card from_card company job_info st new c0
    = (t, Some (Ok (inserted company st r0, new + 1))).
Proof.
  intros Hnew. unfold process_card. rewrite c0_attr. cbn [skip_card].
  rewrite rid0_truthy, bool_decide_eq_false_2 by exact Hnew. cbn [negb orb].
  rewrite c0_parse. destruct job_info; [|eexists; reflexivity].
  rewrite progress_percentage_exact by lia. eexists. reflexivity.
Qed.

Lemma process_cards_productive (cards : list WebElement) (st : session)
    (new : Z) :
  Forall (card_ok from_card) cards ->
  (forall card r, In card cards -> from_card card = Ok r -> id r <> rid0) ->
  rid0 ∉ seen st ->
  exists t st1 new1,
    process_cards from_card company job_info cards st new
    = (t, Some (Ok (st1, new1))) /\
    rid0 ∉ seen st1 /\ new <= new1 /\ (In c0 cards -> new < new1).
Proof.
  intros Hok. revert st new.
  induction Hok as [|card cards Hcard _ IH]; intros st new Hids Hnew.
  - exists [], st, new. repeat split; [exact Hnew | lia | intros []].
  - assert (Hids' : forall card' r,
              In card' cards -> from_card card' = Ok r -> id r <> rid0)
      by (intros card' r Hin; apply Hids; right; exact Hin).
    destruct (process_cards_returns from_card company job_info [card] st new)
      as (t1 & st1 & new1 & H1); [constructor; [exact Hcard | constructor]|].
    cbn [process_cards] in H1.
    apply bind_ok in H1 as (t1' & [st1' new1'] & t1'' & H1 & Hret & ->).
    injection Hret as _ <- <-. cbn [fst snd].
    assert (Hst1 : rid0 ∉ seen st1' /\ new <= new1' /\
                   (card = c0 -> new < new1')).
    { destruct (process_card_cases from_card company job_info st new card)
        as [E|[[e E]|(rid & r & _ & _ & _ & Hparse & E)]].
      - split; [|split].
        + rewrite E in H1. injection H1 as _ <- _. exact Hnew.
        + rewrite E in H1. injection H1 as _ _ <-. lia.
        + intros ->. destruct (process_card_c0 st new Hnew) as [t E'].
          rewrite E' in H1. rewrite E' in E. injection E as _ _ E. lia.
      - rewrite E in H1. discriminate H1.
      - rewrite E in H1. injection H1 as _ <- <-. split; [|split; lia].
        cbn [inserted seen]. intros Hin.
        apply elem_of_union in Hin as [Hin|Hin]; [|exact (Hnew Hin)].
        apply elem_of_singleton in Hin.
        exact (Hids card r (or_introl eq_refl) Hparse (eq_sym Hin)). }
    destruct Hst1 as (Hnew1 & Hle & Hlt).
    destruct (IH st1' new1' Hids' Hnew1) as (t2 & st2 & new2 & H2 & Hn2 & Hle2 & Hlt2).
    exists (t1' ++ t2), st2, new2. split.
    + cbn [process_cards]. rewrite H1. unfold bind. cbn [fst snd].
      rewrite H2. reflexivity.
    + split; [exact Hn2|]. split; [lia|].
      intros [->|Hin]; [specialize (Hlt eq_refl) | specialize (Hlt2 Hin)]; lia.
Qed.

Lemma scroll_loop_never_returns (pane : Pane) :
  pane_ok from_card pane ->
  (forall k cards, pane_find_cards pane k = Ok cards -> In c0 cards) ->
  (forall k cards card r,
      pane_find_cards pane k = Ok cards -> In card cards ->
      from_card card = Ok r -> id r <> rid0) ->
  forall (fuel pass : nat) (st : session) (idle : Z),
    idle < 5 -> rid0 ∉ seen st ->
    snd (scroll_loop from_card company job_info fuel pane pass st idle) = None.
Proof.
  intros Hpane Hc0 Hids.
  induction fuel as [|fuel IH]; intros pass st idle Hidle Hnew.
  - cbn [scroll_loop]. apply Z.ltb_lt in Hidle. rewrite Hidle. reflexivity.
  - destruct (Hpane pass) as (cards & Hfind & Hscroll & Hcards).
    destruct (process_cards_productive cards st 0 Hcards
                (fun card r => Hids pass cards card r Hfind) Hnew)
      as (t1 & st1 & new1 & Hrun & Hnew1 & _ & Hlt).
    specialize (Hlt (Hc0 pass cards Hfind)).
    rewrite (scroll_loop_pass from_card company job_info fuel pane pass st
               idle cards t1 st1 new1 Hidle Hfind Hrun Hscroll).
    cbn [snd]. apply IH; [|exact Hnew1].
    unfold next_idle. replace (new1 =? 0) with false; [lia|].
    symmetry. apply Z.eqb_neq. lia.
Qed.

End NoReturn.

(** X12.  The loop tests the card's [data-review-id] attribute against
    [seen], but stores the record's own [id] there.  When a card that is
    shown in every pass carries an identifier that no parsed record has
    as its [id], every pass counts as productive, the idle counter never
    reaches 5, and the loop does not return, however many passes it is
    given. *)
Theorem scroll_loop_needs_matching_ids
    (from_card : WebElement -> result RawReview) (company : pystr)
    (job_info : bool) (pane : Pane) (c0 : WebElement) (rid0 : pystr)
    (r0 : RawReview) (fuel : nat) :
  pane_ok from_card pane ->
  (forall k cards, pane_find_cards pane k = Ok cards -> In c0 cards) ->
  el_get_attribute c0 DATA_REVIEW_ID = Ok (Some rid0) ->
  truthy rid0 = true ->
  from_card c0 = Ok r0 ->
  (forall k cards card r,
      pane_find_cards pane k = Ok cards -> In card cards ->
      from_card card = Ok r -> id r <> rid0) ->
  snd (_scroll_and_extract_reviews from_card company job_info fuel pane)
  = None.
Proof.
  intros Hpane Hc0 Hattr Htruthy Hparse Hids.
  unfold _scroll_and_extract_reviews.
  pose proof (scroll_loop_never_returns from_card company job_info rid0 c0 r0
                Hattr Htruthy Hparse pane Hpane Hc0 Hids fuel 0%nat
                empty_session 0 ltac:(lia)) as H.
  destruct (scroll_loop from_card company job_info fuel pane 0 empty_session 0)
    as [t r].
  cbn [snd] in H. rewrite H; [reflexivity|].
  cbn [empty_session seen]. apply not_elem_of_empty.
Qed.

Lemma scroll_loop_needs_matching_ids_witness :
  snd (_scroll_and_extract_reviews prefixing_from_card (py "Cafe") true 1000
         one_card_pane) = None.
Proof.
  apply (scroll_loop_needs_matching_ids prefixing_from_card (py "Cafe") true
           one_card_pane (sample_card (py "A") (py "a")) (py "A")
           {| id := py "rA"; company_name := []; author_name := [];
              text := py "a"; rating := 0; published_at := [] |} 1000).
  - intros k. eexists. split; [reflexivity|]. split; [reflexivity|].
    repeat constructor; intros e H; vm_compute in H; congruence.
  - intros k cards [= <-]. left. reflexivity.
  - reflexivity.
  - reflexivity.
  - reflexivity.
  - intros k cards card r [= <-] [<-|[]] H.
    vm_compute in H. injection H as <-. vm_compute. discriminate.
Defined.

(** ** The helpers of [utils.py] *)

Section Helpers.

Lemma search_digits_skip (pre s : pystr) :
  Forall (fun c => is_decimal c = false) pre ->
  search_digits (pre ++ s) = search_digits s.
Proof.
  induction 1 as [|c pre Hc _ IH]; [reflexivity|].
  cbn [app search_digits]. rewrite Hc. exact IH.
Qed.

Lemma take_digits_run (ds rest : pystr) :
  Forall (fun c => is_decimal c = true) ds -> ends_run rest ->
  take_digits (ds ++ rest) = ds.
Proof.
  intros Hds Hrest. induction Hds as [|c ds Hc _ IH].
  - destruct rest as [|c rest]; [reflexivity|].
    cbn [app take_digits]. cbn [ends_run] in Hrest. rewrite Hrest. reflexivity.
  - cbn [app take_digits]. rewrite Hc, IH. reflexivity.
Qed.

Lemma search_digits_run (ds rest : pystr) :
  ds <> [] -> Forall (fun c => is_decimal c = true) ds -> ends_run rest ->
  search_digits (ds ++ rest) = Some ds.
Proof.
  intros Hne Hds Hrest. destruct ds as [|c ds]; [contradiction|].
  pose proof (take_digits_run (c :: ds) rest Hds Hrest) as Ht.
  cbn [app search_digits]. inversion Hds as [|? ? Hc _]; subst.
  rewrite Hc. cbn [app] in Ht. rewrite Ht. reflexivity.
Qed.

Lemma click_displayed_spec (elements : list Control) :
  click_displayed elements = true <-> Exists clickable elements.
Proof.
  induction elements as [|element elements IH]; cbn [click_displayed].
  - split; [discriminate | intros H; inversion H].
  - split.
    + intros H.
      destruct (ctl_is_displayed element) as [[|]|e] eqn:Hd;
        try (apply Exists_cons_tl, IH, H).
      destruct (ctl_is_enabled element) as [[|]|e] eqn:He;
        try (apply Exists_cons_tl, IH, H).
      destruct (ctl_click element) as [[]|e] eqn:Hc;
        try (apply Exists_cons_tl, IH, H).
      apply Exists_cons_hd. repeat split; assumption.
    + intros H. inversion H as [? ? (Hd & He & Hc)|? ? Htl]; subst.
      * rewrite Hd, He, Hc. reflexivity.
      * apply IH in Htl.
        destruct (ctl_is_displayed element) as [[|]|e]; try exact Htl.
        destruct (ctl_is_enabled element) as [[|]|e]; try exact Htl.
        destruct (ctl_click element) as [[]|e]; [reflexivity | exact Htl].
Qed.

End Helpers.

(** X13.  [safe_int] answers 0 for [None] and for a text without a
    decimal digit, never answers a negative number (a sign before the
    digits is lost), and raises nothing but [ValueError], and that only
    when the first run of digits is longer than 4300. *)
Theorem safe_int_range (s : option pystr) :
  safe_int None = Ok 0 /\
  (forall txt, s = Some txt ->
     Forall (fun c => is_decimal c = false) txt -> safe_int s = Ok 0) /\
  (forall n, safe_int s = Ok n -> 0 <= n) /\
  (forall e, safe_int s = Raise e ->
     e = ValueError /\
     exists txt ds,
       s = Some txt /\ search_digits txt = Some ds /\
       (4300 < length ds)%nat).
Proof.
  split; [reflexivity|]. split; [|split].
  - intros txt -> Htxt. unfold safe_int.
    rewrite (search_digits_none txt Htxt). reflexivity.
  - intros n. unfold safe_int.
    destruct (search_digits _) as [ds|]; [|intros [= <-]; lia].
    unfold int_of_digits. destruct (_ <? _)%nat; [discriminate|].
    intros [= <-]. apply digits_value_nonneg.
  - intros e. unfold safe_int. destruct s as [txt|]; [|discriminate].
    destruct (search_digits txt) as [ds|] eqn:Hds; [|discriminate].
    unfold int_of_digits.
    destruct (int_max_str_digits <? length ds)%nat eqn:Hlen; [|discriminate].
    intros [= <-]. split; [reflexivity|]. exists txt, ds.
    apply Nat.ltb_lt in Hlen. auto.
Qed.

(** X14.  [safe_int] reads the first run of decimal digits and nothing
    after it: for a text made of a part without digits, a run of at most
    4300 digits, and a rest that does not go on with a digit, the answer
    is the value of that run, whatever the rest holds. *)
Theorem safe_int_first_run (pre ds rest : pystr) :
  Forall (fun c => is_decimal c = false) pre ->
  ds <> [] -> Forall (fun c => is_decimal c = true) ds ->
  (length ds <= 4300)%nat -> ends_run rest ->
  safe_int (Some (pre ++ ds ++ rest)) = Ok (digits_value ds).
Proof.
  intros Hpre Hne Hds Hlen Hrest. unfold safe_int.
  rewrite (search_digits_skip pre _ Hpre).
  rewrite (search_digits_run ds rest Hne Hds Hrest).
  unfold int_of_digits.
  replace (int_max_str_digits <? length ds)%nat with false; [reflexivity|].
  symmetry. apply Nat.ltb_ge. exact Hlen.
Qed.

Lemma safe_int_first_run_witness :
  safe_int (Some (py "(" ++ py "1" ++ py ",234 reviews)")) = Ok 1.
Proof.
  apply (safe_int_first_run (py "(") (py "1") (py ",234 reviews)")).
  - repeat constructor.
  - discriminate.
  - repeat constructor.
  - vm_compute. lia.
  - reflexivity.
Defined.

(** X15.  [click_if] never raises.  It answers [True] exactly when a
    click went through: on the first listed element that is displayed
    and enabled and whose click succeeds, or else on the element that
    the wait for a clickable one returns; with an empty or failed lookup
    it answers [False] without waiting.  When it answers [True] one
    click went through and it slept once; when it answers [False] no
    click went through and it did not sleep. *)
Theorem click_if_clicks (found : result (list Control))
    (waited : result Control) :
  (fst (click_if found waited) = true <->
   exists elements,
     found = Ok elements /\ elements <> [] /\
     (Exists clickable elements \/
      exists element, waited = Ok element /\ ctl_click element = Ok tt)) /\
  snd (click_if found waited)
  = (if fst (click_if found waited) then [EffClick; EffSleep] else []).
Proof.
  unfold click_if. destruct found as [[|element elements]|e].
  - split; [|reflexivity]. split; [discriminate|].
    intros (els & [= <-] & Hne & _). contradiction.
  - pose proof (click_displayed_spec (element :: elements)) as Hspec.
    destruct (click_displayed (element :: elements)).
    + split; [|reflexivity]. split; [|reflexivity].
      intros _. exists (element :: elements).
      split; [reflexivity|]. split; [discriminate|].
      left. apply Hspec. reflexivity.
    + destruct waited as [w|e].
      * destruct (ctl_click w) as [[]|e] eqn:Hc.
        -- split; [|reflexivity]. split; [|reflexivity].
           intros _. exists (element :: elements).
           split; [reflexivity|]. split; [discriminate|].
           right. exists w. auto.
        -- split; [|reflexivity]. split; [discriminate|].
           intros (els & [= <-] & _ & [H|(w' & [= <-] & H)]).
           ++ apply Hspec in H. discriminate H.
           ++ congruence.
      * split; [|reflexivity]. split; [discriminate|].
        intros (els & [= <-] & _ & [H|(w' & H & _)]).
        -- apply Hspec in H. discriminate H.
        -- discriminate H.
  - split; [|reflexivity]. split; [discriminate|].
    intros (els & H & _). discriminate H.
Qed.

Section DateBounds.

Import Datetime.

(** X16.  [parse_date_to_iso] never answers a date in the future: with
    the clock at [now], the answer is empty or the ISO-8601 form, cut to
    the second, of an instant between year 1 and [now]. *)
Theorem parse_date_not_after_now (now : datetime) (date_str : pystr) :
  valid_now now ->
  parse_date_to_iso now date_str = [] \/
  exists dt,
    0 <= dt <= now /\
    parse_date_to_iso now date_str = isoformat (replace_microsecond_0 dt).
Proof.
  intros Hnow.
  assert (Hnow' : 0 <= now <= now).
  { destruct Hnow as [H _]. unfold unix_epoch in H. lia. }
  unfold parse_date_to_iso. destruct (truthy date_str); [|left; reflexivity].
  cbn [negb]. unfold parse_date_body.
  destruct (contains (py "ago") (lower date_str)).
  2:{ right. exists now. auto. }
  assert (Hnum : forall r,
            r = match search_digits (lower date_str) with
                | Some ds => int_of_digits ds
                | None => Ok 1
                end ->
            forall num, r = Ok num -> 0 <= num).
  { intros r -> num. destruct (search_digits (lower date_str)) as [ds|].
    - unfold int_of_digits. destruct (_ <? _)%nat; [discriminate|].
      intros [= <-]. apply digits_value_nonneg.
    - intros [= <-]. lia. }
  specialize (Hnum _ eq_refl).
  destruct (match search_digits (lower date_str) with
            | Some ds => int_of_digits ds
            | None => Ok 1
            end) as [num|e]; [|left; reflexivity].
  specialize (Hnum num eq_refl).
  destruct (first_unit (lower date_str)) as [u|].
  2:{ right. exists now. auto. }
  pose proof (duration_nonneg u num Hnum) as Hdur.
  destruct (timedelta (duration u num)) as [td|e] eqn:Htd; [|left; reflexivity].
  unfold timedelta in Htd. destruct (_ <? _); [discriminate|].
  injection Htd as <-.
  unfold sub. destruct (in_range (now - duration u num)) eqn:Hr;
    [|left; reflexivity].
  right. exists (now - duration u num). split; [|reflexivity].
  unfold in_range in Hr. apply andb_true_iff in Hr as [Hlo _].
  apply Z.leb_le in Hlo. lia.
Qed.

Lemma parse_date_not_after_now_witness :
  parse_date_to_iso sample_now (py "2 weeks ago") = [] \/
  exists dt,
    0 <= dt <= sample_now /\
    parse_date_to_iso sample_now (py "2 weeks ago")
    = isoformat (replace_microsecond_0 dt).
Proof.
  apply (parse_date_not_after_now sample_now (py "2 weeks ago")).
  vm_compute. split; [discriminate | reflexivity].
Defined.

End DateBounds.

(** ** The names of the reports *)

Section ReportNamesFacts.

Import ReportNames.

Lemma occurs_app (sep : N) (a b : pystr) :
  occurs sep (a ++ b) = occurs sep a || occurs sep b.
Proof. unfold occurs. apply existsb_app. Qed.

Lemma occurs_false (sep : N) (s : pystr) :
  occurs sep s = false <-> Forall (fun c => c <> sep) s.
Proof.
  unfold occurs. induction s as [|c s IH]; cbn [existsb].
  - split; [constructor | reflexivity].
  - rewrite orb_false_iff, IH. split.
    + intros [Hc Hs]. constructor; [|exact Hs].
      apply N.eqb_neq in Hc. congruence.
    + intros H. inversion H as [|? ? Hc Hs]; subst. split; [|exact Hs].
      apply N.eqb_neq. congruence.
Qed.

Lemma split_last_free (sep : N) (s : pystr) :
  occurs sep s = false -> split_last sep s = s.
Proof.
  destruct s as [|c s]; [reflexivity|]. unfold occurs. cbn [existsb split_last].
  intros H. apply orb_false_iff in H as [Hc Hs].
  unfold occurs. rewrite Hs. rewrite N.eqb_sym, Hc. reflexivity.
Qed.

Lemma split_last_app (sep : N) (a b : pystr) :
  occurs sep b = false -> split_last sep (a ++ sep :: b) = b.
Proof.
  intros Hb. induction a as [|c a IH]; cbn [app split_last].
  - rewrite Hb, N.eqb_refl. reflexivity.
  - rewrite occurs_app. unfold occurs at 2. cbn [existsb].
    rewrite N.eqb_refl, orb_true_r. exact IH.
Qed.

Lemma rsplit_head_app (sep : N) (a b : pystr) :
  occurs sep b = false -> rsplit_head sep (a ++ sep :: b) = a.
Proof.
  intros Hb. induction a as [|c a IH]; cbn [app rsplit_head].
  - rewrite Hb, N.eqb_refl. reflexivity.
  - rewrite occurs_app. unfold occurs at 2. cbn [existsb].
    rewrite N.eqb_refl, orb_true_r, IH. reflexivity.
Qed.

Lemma safe_filename_no_slash (company_name : pystr) :
  occurs SLASH (safe_filename company_name) = false.
Proof.
  apply occurs_false. unfold safe_filename, replace_char, remove_forbidden.
  apply Forall_map. apply List.Forall_forall. intros c Hc.
  apply filter_In in Hc as [_ Hc]. cbn beta.
  destruct (c =? SPACE)%N eqn:E; [discriminate|].
  intros ->. discriminate Hc.
Qed.

Lemma restored_iff (s : pystr) :
  replace_char UNDERSCORE SPACE (remove_forbidden s) = s <->
  Forall (fun c => forbidden c = false /\ c <> UNDERSCORE) s.
Proof.
  unfold replace_char, remove_forbidden. split.
  - induction s as [|c s IH]; intros H; [constructor|].
    cbn [List.filter] in H.
    destruct (forbidden c) eqn:Hf; cbn [negb] in H.
    + exfalso.
      assert (Hlen : length (List.map
                       (fun c0 => if (c0 =? UNDERSCORE)%N then SPACE else c0)
                       (List.filter (fun c0 => negb (forbidden c0)) s))
                     = length (c :: s)) by (rewrite H; reflexivity).
      rewrite length_map in Hlen.
      pose proof (List.filter_length_le (fun c0 => negb (forbidden c0)) s)
        as Hle.
      cbn [length] in Hlen. lia.
    + cbn [List.map] in H. injection H as Hc Hs. constructor.
      * split; [exact Hf|].
        destruct (c =? UNDERSCORE)%N eqn:E.
        -- subst c. discriminate E.
        -- apply N.eqb_neq, E.
      * apply IH. exact Hs.
  - intros H. induction H as [|c s [Hf Hu] _ IH]; [reflexivity|].
    cbn [List.filter]. rewrite Hf. cbn [negb List.map]. rewrite IH.
    apply N.eqb_neq in Hu. rewrite Hu. reflexivity.
Qed.

End ReportNamesFacts.

(** X17.  The file name that [run_scraper_task] makes from a company
    name holds no backslash, slash, asterisk, question mark, colon, double
    quote, angle bracket or bar, and no space;
    a name without such characters is kept as it is, and making a file
    name of a file name changes nothing. *)
Theorem safe_filename_clean (company_name : pystr) :
  Forall (fun c => ReportNames.forbidden c = false /\ c <> ReportNames.SPACE)
    (ReportNames.safe_filename company_name) /\
  (Forall (fun c => ReportNames.forbidden c = false /\ c <> ReportNames.SPACE)
     company_name ->
   ReportNames.safe_filename company_name = company_name) /\
  ReportNames.safe_filename (ReportNames.safe_filename company_name)
  = ReportNames.safe_filename company_name.
Proof.
  assert (Hclean : forall s,
            Forall (fun c => ReportNames.forbidden c = false /\
                             c <> ReportNames.SPACE) s ->
            ReportNames.safe_filename s = s).
  { intros s Hs. unfold ReportNames.safe_filename, ReportNames.replace_char,
      ReportNames.remove_forbidden.
    induction Hs as [|c s [Hf Hsp] _ IH]; [reflexivity|].
    cbn [List.filter]. rewrite Hf. cbn [negb List.map]. rewrite IH.
    apply N.eqb_neq in Hsp. rewrite Hsp. reflexivity. }
  assert (H : Forall (fun c => ReportNames.forbidden c = false /\
                               c <> ReportNames.SPACE)
                (ReportNames.safe_filename company_name)).
  { unfold ReportNames.safe_filename, ReportNames.replace_char,
      ReportNames.remove_forbidden.
    apply Forall_map. apply List.Forall_forall. intros c Hc.
    apply filter_In in Hc as [_ Hc]. cbn beta.
    apply negb_true_iff in Hc.
    destruct (c =? ReportNames.SPACE)%N eqn:E.
    - split; [reflexivity | discriminate].
    - split; [exact Hc | apply N.eqb_neq, E]. }
  split; [exact H|]. split; [apply Hclean | apply Hclean, H].
Qed.

(** X18.  The name that [get_past_results] shows for a report stored by
    [run_scraper_task] is the company name without backslash, slash,
    asterisk, question mark, colon, double quote, angle brackets and bar,
    and with every underscore turned into a space,
    provided the prefix and the folder end with a slash (or are empty)
    and the first eight characters of the job identifier hold no
    underscore and no slash.  So a company name comes back unchanged
    exactly when it holds none of those characters and no underscore. *)
Theorem past_result_name_of_report
    (s3_prefix reports_folder company_name job_id : pystr) :
  directory (s3_prefix ++ reports_folder) ->
  Forall (fun c => c <> ReportNames.UNDERSCORE /\ c <> ReportNames.SLASH)
    (firstn 8 job_id) ->
  ReportNames.past_result_name
    (ReportNames.s3_key s3_prefix reports_folder company_name job_id)
  = Some (ReportNames.replace_char ReportNames.UNDERSCORE ReportNames.SPACE
            (ReportNames.remove_forbidden company_name)) /\
  (ReportNames.past_result_name
     (ReportNames.s3_key s3_prefix reports_folder company_name job_id)
   = Some company_name <->
   Forall (fun c => ReportNames.forbidden c = false /\
                    c <> ReportNames.UNDERSCORE) company_name).
Proof.
  intros Hdir Hid.
  set (safe := ReportNames.safe_filename company_name).
  set (tail := firstn 8 job_id ++ py ".json").
  assert (Htail_u : ReportNames.occurs ReportNames.UNDERSCORE tail = false).
  { unfold tail. rewrite occurs_app. apply orb_false_iff. split; [|reflexivity].
    apply occurs_false. eapply List.Forall_impl; [|exact Hid].
    intros c [H _]. exact H. }
  assert (Htail_s : ReportNames.occurs ReportNames.SLASH tail = false).
  { unfold tail. rewrite occurs_app. apply orb_false_iff. split; [|reflexivity].
    apply occurs_false. eapply List.Forall_impl; [|exact Hid].
    intros c [_ H]. exact H. }
  assert (Hfile : ReportNames.split_last ReportNames.SLASH
                    (ReportNames.s3_key s3_prefix reports_folder company_name
                       job_id)
                  = safe ++ ReportNames.UNDERSCORE :: tail).
  { unfold ReportNames.s3_key. fold safe. rewrite app_assoc.
    change (safe ++ py "_" ++ firstn 8 job_id ++ py ".json")
      with (safe ++ ReportNames.UNDERSCORE :: tail).
    assert (Hfree : ReportNames.occurs ReportNames.SLASH
                      (safe ++ ReportNames.UNDERSCORE :: tail) = false).
    { rewrite occurs_app. unfold safe. rewrite safe_filename_no_slash.
      cbn [orb]. unfold ReportNames.occurs. cbn [existsb].
      exact Htail_s. }
    destruct Hdir as [->|[dir' ->]].
    - apply split_last_free, Hfree.
    - rewrite <- app_assoc. cbn [app]. apply split_last_app, Hfree. }
  assert (Hname : ReportNames.past_result_name
                    (ReportNames.s3_key s3_prefix reports_folder company_name
                       job_id)
                  = Some (ReportNames.replace_char ReportNames.UNDERSCORE
                            ReportNames.SPACE
                            (ReportNames.remove_forbidden company_name))).
  { unfold ReportNames.past_result_name. rewrite Hfile.
    replace (truthy (safe ++ ReportNames.UNDERSCORE :: tail)) with true
      by (destruct safe; reflexivity).
    cbn [negb]. rewrite (rsplit_head_app _ safe tail Htail_u). f_equal.
    unfold safe, ReportNames.safe_filename, ReportNames.replace_char.
    rewrite List.map_map. apply List.map_ext. intros c.
    destruct (c =? ReportNames.SPACE)%N eqn:E.
    - apply N.eqb_eq in E. subst c. reflexivity.
    - reflexivity. }
  split; [exact Hname|]. rewrite Hname.
  rewrite <- restored_iff. split; [intros [= H]; exact H | intros ->; reflexivity].
Qed.

Lemma past_result_name_of_report_witness :
  ReportNames.past_result_name
    (ReportNames.s3_key (py "google-maps-data/") (py "json-reports/")
       (py "Joe's_Bar: Grill") sample_job_id)
  = Some (py "Joe's Bar Grill").
Proof.
  destruct (past_result_name_of_report (py "google-maps-data/")
              (py "json-reports/") (py "Joe's_Bar: Grill") sample_job_id)
    as [H _].
  - right. exists (py "google-maps-data/json-reports"). reflexivity.
  - vm_compute. repeat constructor; discriminate.
  - rewrite H. reflexivity.
Defined.

(** ** The configuration *)

Section ConfigFacts.

Import Config.

Lemma lookup_assign_eq (k : pystr) (v : value) (d : dict) :
  lookup k (assign k v d) = Some v.
Proof.
  induction d as [|[k' v'] d IH]; cbn [assign lookup].
  - rewrite bool_decide_eq_true_2 by reflexivity. reflexivity.
  - case_bool_decide as E; cbn [lookup].
    + rewrite bool_decide_eq_true_2 by exact E. reflexivity.
    + rewrite bool_decide_eq_false_2 by exact E. exact IH.
Qed.

Lemma lookup_assign_ne (k k0 : pystr) (v : value) (d : dict) :
  k0 <> k -> lookup k0 (assign k v d) = lookup k0 d.
Proof.
  intros Hne. induction d as [|[k' v'] d IH]; cbn [assign lookup].
  - rewrite bool_decide_eq_false_2 by exact Hne. reflexivity.
  - case_bool_decide as E; cbn [lookup].
    + subst k'. rewrite !bool_decide_eq_false_2 by exact Hne. reflexivity.
    + rewrite IH. reflexivity.
Qed.

Lemma lookup_none (k : pystr) (d : dict) :
  lookup k d = None <-> ~ In k (keys d).
Proof.
  induction d as [|[k' v'] d IH]; cbn [lookup keys List.map fst In].
  - tauto.
  - case_bool_decide as E.
    + split; [discriminate | intros H; contradiction H; auto].
    + rewrite IH. unfold keys. split; [intros H [H'|H']; auto | tauto].
Qed.

Lemma lookup_in (k : pystr) (v : value) (d : dict) :
  NoDup (keys d) -> In (k, v) d -> lookup k d = Some v.
Proof.
  induction d as [|[k' v'] d IH]; intros Hnd Hin; [destruct Hin|].
  cbn [keys List.map fst] in Hnd. apply NoDup_cons in Hnd as [Hk Hnd].
  cbn [lookup]. destruct Hin as [[= -> ->]|Hin].
  - rewrite bool_decide_eq_true_2 by reflexivity. reflexivity.
  - case_bool_decide as E; [|exact (IH Hnd Hin)].
    subst k'. exfalso. apply Hk. apply list_elem_of_In.
    change k with (fst (k, v)). apply in_map, Hin.
Qed.

Lemma assign_same (k : pystr) (v : value) (d : dict) :
  lookup k d = Some v -> assign k v d = d.
Proof.
  induction d as [|[k' v'] d IH]; cbn [lookup assign]; [discriminate|].
  case_bool_decide as E.
  - intros [= ->]. reflexivity.
  - intros H. rewrite (IH H). reflexivity.
Qed.

Lemma keys_assign (k : pystr) (v : value) (d : dict) :
  keys (assign k v d)
  = if bool_decide (k ∈ keys d) then keys d else keys d ++ [k].
Proof.
  induction d as [|[k' v'] d IH]; cbn [assign keys List.map fst].
  - rewrite bool_decide_eq_false_2 by apply not_elem_of_nil. reflexivity.
  - destruct (bool_decide (k = k')) eqn:E.
    + apply bool_decide_eq_true in E. subst k'.
      rewrite bool_decide_eq_true_2 by (apply elem_of_cons; auto). reflexivity.
    + apply bool_decide_eq_false in E. cbn [List.map fst].
      fold (keys (assign k v d)). rewrite IH. fold (keys d).
      destruct (bool_decide (k ∈ keys d)) eqn:E'.
      * apply bool_decide_eq_true in E'.
        rewrite bool_decide_eq_true_2 by (apply elem_of_cons; auto).
        reflexivity.
      * apply bool_decide_eq_false in E'.
        rewrite bool_decide_eq_false_2; [reflexivity|].
        intros H. apply elem_of_cons in H as [H|H]; congruence.
Qed.

Lemma merged_dict (d u : dict) :
  merged (Some (VDict d)) (VDict u) = VDict (deep_update d u).
Proof.
  cbn [merged]. f_equal. revert d.
  induction u as [|[k v] u IH]; intros d; [reflexivity|].
  cbn [deep_update]. rewrite <- IH. reflexivity.
Qed.

Lemma deep_update_lookup_other (k : pystr) (d u : dict) :
  ~ In k (keys u) -> lookup k (deep_update d u) = lookup k d.
Proof.
  revert d. induction u as [|[k0 v0] u IH]; intros d Hk; [reflexivity|].
  cbn [deep_update]. cbn [keys List.map fst In] in Hk.
  rewrite IH by (intros H; apply Hk; right; exact H).
  apply lookup_assign_ne. intros ->. apply Hk. left. reflexivity.
Qed.

Lemma deep_update_lookup_item (k : pystr) (v : value) (d u : dict) :
  NoDup (keys u) -> lookup k u = Some v ->
  lookup k (deep_update d u) = Some (merged (lookup k d) v).
Proof.
  revert d. induction u as [|[k0 v0] u IH]; intros d Hnd Hk; [discriminate|].
  cbn [keys List.map fst] in Hnd. apply NoDup_cons in Hnd as [Hk0 Hnd].
  cbn [deep_update]. cbn [lookup] in Hk.
  destruct (bool_decide (k = k0)) eqn:E.
  - apply bool_decide_eq_true in E. subst k0. injection Hk as ->.
    rewrite deep_update_lookup_other
      by (intros H; apply Hk0, list_elem_of_In, H).
    apply lookup_assign_eq.
  - apply bool_decide_eq_false in E.
    rewrite (IH _ Hnd Hk), lookup_assign_ne by exact E. reflexivity.
Qed.

Lemma deep_update_keys (d u : dict) :
  NoDup (keys u) ->
  keys (deep_update d u)
  = keys d ++ List.filter (fun k => negb (bool_decide (k ∈ keys d))) (keys u).
Proof.
  revert d. induction u as [|[k v] u IH]; intros d Hnd.
  - cbn. rewrite app_nil_r. reflexivity.
  - cbn [keys List.map fst] in Hnd. apply NoDup_cons in Hnd as [Hk Hnd].
    cbn [deep_update]. rewrite (IH _ Hnd), keys_assign.
    cbn [keys List.map fst List.filter]. fold (keys u). fold (keys d).
    destruct (bool_decide (k ∈ keys d)) eqn:E; cbn [negb].
    + reflexivity.
    + apply bool_decide_eq_false in E. rewrite <- app_assoc. cbn [app].
      f_equal. f_equal. apply List.filter_ext_in. intros k' Hk'.
      f_equal. apply bool_decide_ext. rewrite elem_of_app.
      split; [|tauto]. intros [H|H]; [exact H|].
      apply list_elem_of_singleton in H. subst k'.
      exfalso. apply Hk, list_elem_of_In, Hk'.
Qed.

Lemma deep_update_fixed (d u : dict) :
  (forall k v, In (k, v) u -> assign k (merged (lookup k d) v) d = d) ->
  deep_update d u = d.
Proof.
  induction u as [|[k v] u IH]; intros H; [reflexivity|].
  cbn [deep_update]. rewrite (H k v) by (left; reflexivity).
  apply IH. intros k' v' Hin. apply H. right. exact Hin.
Qed.

Lemma unique_keys_items (d : dict) :
  unique_keys (VDict d) ->
  NoDup (keys d) /\ forall k v, In (k, v) d -> unique_keys v.
Proof.
  intros [Hnd Hall]. split; [exact Hnd|].
  induction d as [|[k0 v0] d IH]; intros k v Hin; [destruct Hin|].
  destruct Hall as [H0 Hall]. destruct Hin as [[= -> ->]|Hin]; [exact H0|].
  apply (IH ltac:(cbn [keys List.map fst] in Hnd;
                  apply NoDup_cons in Hnd as [_ Hnd]; exact Hnd) Hall k v Hin).
Qed.

(** Induction over the mappings nested in a value. *)
Lemma value_dict_ind (P : value -> Prop) :
  (forall v, (forall d, v <> VDict d) -> P v) ->
  (forall d, (forall k v, In (k, v) d -> P v) -> P (VDict d)) ->
  forall v, P v.
Proof.
  intros Hleaf Hdict. fix IH 1. intros v.
  destruct v as [| | | | | |d]; try (apply Hleaf; discriminate).
  apply Hdict. induction d as [|[k0 v0] d IHd]; intros k v Hin.
  - destruct Hin.
  - destruct Hin as [[= _ <-]|Hin]; [apply IH | exact (IHd k v Hin)].
Qed.

Lemma deep_update_self_and_twice (v : value) :
  unique_keys v ->
  forall u, v = VDict u ->
    deep_update u u = u /\
    forall d, deep_update (deep_update d u) u = deep_update d u.
Proof.
  induction v as [v Hv|u IH] using value_dict_ind; intros Hu u' E.
  - exfalso. exact (Hv u' E).
  - injection E as <-.
    destruct (unique_keys_items u Hu) as [Hnd Hitems].
    assert (Hmerged : forall k v old,
              In (k, v) u -> merged (Some (merged old v)) v = merged old v).
    { intros k v old Hin.
      destruct v as [| | | | | |u0]; try reflexivity.
      destruct (IH k (VDict u0) Hin (Hitems k _ Hin) u0 eq_refl)
        as [Hself Htwice].
      destruct old as [[| | | | | |d0]|];
        try (change (merged _ (VDict u0)) with (VDict u0) at 2 3;
             rewrite merged_dict, Hself; reflexivity).
      rewrite !merged_dict, Htwice. reflexivity. }
    split.
    + apply deep_update_fixed. intros k v Hin.
      rewrite (lookup_in k v u Hnd Hin). apply assign_same.
      rewrite (lookup_in k v u Hnd Hin). f_equal.
      destruct v as [| | | | | |u0]; try reflexivity.
      destruct (IH k (VDict u0) Hin (Hitems k _ Hin) u0 eq_refl)
        as [Hself _].
      rewrite merged_dict, Hself. reflexivity.
    + intros d. apply deep_update_fixed. intros k v Hin.
      pose proof (deep_update_lookup_item k v d u Hnd
                    (lookup_in k v u Hnd Hin)) as Hl.
      rewrite Hl. apply assign_same. rewrite Hl. f_equal. symmetry.
      apply (Hmerged k v _ Hin).
Qed.

End ConfigFacts.

(** X19.  In [deep_update(d, u)] the user's settings take precedence and
    the defaults fill the gaps: a key that [u] lacks keeps what [d] held;
    a key of [u] whose value is not a mapping, or for which [d] holds no
    mapping, gets the value of [u]; and where both hold a mapping, the
    mapping of [d] is updated, in the same way, with the one of [u]. *)
Theorem deep_update_lookup (k : pystr) (d u : Config.dict) :
  NoDup (Config.keys u) ->
  Config.lookup k (Config.deep_update d u)
  = match Config.lookup k u with
    | None => Config.lookup k d
    | Some v =>
        Some match v, Config.lookup k d with
             | Config.VDict u', Some (Config.VDict d') =>
                 Config.VDict (Config.deep_update d' u')
             | _, _ => v
             end
    end.
Proof.
  intros Hnd. destruct (Config.lookup k u) as [v|] eqn:Hk.
  - rewrite (deep_update_lookup_item k v d u Hnd Hk). f_equal.
    destruct v as [| | | | | |u']; try reflexivity.
    destruct (Config.lookup k d) as [[| | | | | |d']|]; try reflexivity.
    apply merged_dict.
  - apply deep_update_lookup_other. apply lookup_none. exact Hk.
Qed.

Lemma deep_update_lookup_witness :
  Config.lookup (py "mongodb")
    (Config.deep_update Config.DEFAULT_CONFIG sample_user_config)
  = Some (Config.VDict
            [(py "uri", Config.VStr (py "mongodb://localhost:27017"));
             (py "database", Config.VStr (py "cafes"));
             (py "collection", Config.VStr (py "google_reviews"))]).
Proof.
  rewrite (deep_update_lookup (py "mongodb") Config.DEFAULT_CONFIG
             sample_user_config).
  - reflexivity.
  - vm_compute. repeat (constructor; [vm_compute; set_solver|]). constructor.
Defined.

(** X20.  [load_config] never loses a default: whatever the file holds,
    the keys of the defaults come first in the result, in their order.
    A missing or unreadable file, an empty one, and one that does not
    hold a mapping give the defaults themselves; a mapping adds its new
    keys after them, in its own order. *)
Theorem load_config_keeps_defaults (defaults : Config.dict)
    (file : Config.config_file) :
  (forall u, file = Config.Loaded (Config.VDict u) ->
             NoDup (Config.keys u)) ->
  (exists new,
      Config.keys (Config.load_config defaults file)
      = Config.keys defaults ++ new) /\
  ((forall u, file <> Config.Loaded (Config.VDict u)) ->
   Config.load_config defaults file = defaults) /\
  (forall u, file = Config.Loaded (Config.VDict u) ->
     Config.keys (Config.load_config defaults file)
     = Config.keys defaults
       ++ List.filter
            (fun k => negb (bool_decide (k ∈ Config.keys defaults)))
            (Config.keys u)).
Proof.
  intros Hfile.
  assert (Hdict : forall u, file = Config.Loaded (Config.VDict u) ->
            Config.keys (Config.load_config defaults file)
            = Config.keys defaults
              ++ List.filter
                   (fun k => negb (bool_decide (k ∈ Config.keys defaults)))
                   (Config.keys u)).
  { intros u ->. cbn [Config.load_config Config.truthy_value].
    destruct u as [|kv u]; [cbn; rewrite app_nil_r; reflexivity|].
    apply deep_update_keys. apply (Hfile _ eq_refl). }
  assert (Hother : (forall u, file <> Config.Loaded (Config.VDict u)) ->
                   Config.load_config defaults file = defaults).
  { intros Hne. destruct file as [| |v]; try reflexivity.
    cbn [Config.load_config]. destruct (Config.truthy_value v); [|reflexivity].
    destruct v; try reflexivity. exfalso. exact (Hne _ eq_refl). }
  split; [|split; assumption].
  destruct file as [| |v]; try (exists []; rewrite app_nil_r; reflexivity).
  destruct v as [| | | | | |u];
    try (exists []; rewrite Hother by discriminate; rewrite app_nil_r;
         reflexivity).
  eexists. apply (Hdict u eq_refl).
Qed.

Lemma load_config_keeps_defaults_witness :
  Config.keys (Config.load_config Config.DEFAULT_CONFIG
                 (Config.Loaded (Config.VDict sample_user_config)))
  = Config.keys Config.DEFAULT_CONFIG ++ [py "use_s3"; py "s3"].
Proof.
  destruct (load_config_keeps_defaults Config.DEFAULT_CONFIG
              (Config.Loaded (Config.VDict sample_user_config)))
    as (_ & _ & H).
  - intros u [= <-]. vm_compute.
    repeat (constructor; [vm_compute; set_solver|]). constructor.
  - rewrite (H _ eq_refl). reflexivity.
Defined.

(** X21.  Applying the same user configuration a second time changes
    nothing: [deep_update] is idempotent in its second argument (for
    mappings that, like a [dict], hold each key once). *)
Theorem deep_update_idempotent (d u : Config.dict) :
  unique_keys (Config.VDict u) ->
  Config.deep_update (Config.deep_update d u) u = Config.deep_update d u.
Proof.
  intros Hu.
  destruct (deep_update_self_and_twice (Config.VDict u) Hu u eq_refl)
    as [_ H].
  apply H.
Qed.

Lemma deep_update_idempotent_witness :
  Config.deep_update
    (Config.deep_update Config.DEFAULT_CONFIG sample_user_config)
    sample_user_config
  = Config.deep_update Config.DEFAULT_CONFIG sample_user_config.
Proof.
  apply (deep_update_idempotent Config.DEFAULT_CONFIG sample_user_config).
  vm_compute.
  repeat split; repeat (constructor; [vm_compute; set_solver|]); constructor.
Defined.

(** ** The background task *)

Section TaskFacts.

Import AppBackend.

Lemma store_report_cases (s3 : s3_run) (key : pystr) (j : job) :
  exists j',
    store_report s3 key j = (if s3_fails s3 then inr j' else inl j') /\
    status j' = status j /\ percentage j' = percentage j /\
    result j' = result j /\
    ((s3_url j' = s3_url j /\ s3_key j' = s3_key j /\
      forall url, ~ s3_uploads s3 url) \/
     (exists url, s3_uploads s3 url /\
                  s3_url j' = Some url /\ s3_key j' = Some key)).
Proof.
  unfold store_report, s3_fails, s3_uploads.
  destruct s3 as [h dump up unl]. cbn [handler dump_ok upload_answer unlink_ok].
  destruct h.
  - exists j. repeat split. left. repeat split.
    intros url (H & _). discriminate H.
  - exists j. repeat split. left. repeat split.
    intros url (H & _). discriminate H.
  - destruct dump; cbn [negb orb].
    2:{ exists j. repeat split. left. repeat split.
        intros url (_ & H & _). discriminate H. }
    destruct up as [url|].
    2:{ exists j. split; [destruct unl; reflexivity|]. repeat split.
        left. repeat split. intros url (_ & _ & H & _). discriminate H. }
    destruct (truthy url) eqn:Hurl.
    + exists (set_s3 url key j). split; [destruct unl; reflexivity|].
      repeat split. right. exists url. repeat split. exact Hurl.
    + exists j. split; [destruct unl; reflexivity|]. repeat split.
      left. repeat split. intros url' (_ & _ & [= <-] & H). congruence.
Qed.

Lemma with_predictions_reviews (choices : nat -> prediction)
    (reviews : list RawReview) :
  List.map fst (with_predictions choices reviews) = reviews.
Proof.
  unfold with_predictions. generalize 0%nat.
  induction reviews as [|rv reviews IH]; intros n; [reflexivity|].
  cbn [length seq combine List.map fst snd]. f_equal. apply IH.
Qed.

Lemma record_events_s3 (t : list event) (j : job) :
  s3_url (fold_left record_event t j) = s3_url j /\
  s3_key (fold_left record_event t j) = s3_key j.
Proof.
  revert j. induction t as [|ev t IH]; intros j; [auto|].
  cbn [fold_left]. destruct (IH (record_event j ev)) as [-> ->].
  destruct ev; auto.
Qed.

End TaskFacts.

(** X22.  [run_scraper_task] never blames the scraper.  Whenever
    [scrape] returns, the job ends as "complete" at 100 percent, with a
    report that holds the company name and the reviews that [scrape]
    returned (also when every attempt failed and there are none), unless
    the statements about S3 raise; then it ends as "error", at 95
    percent. *)
Theorem run_scraper_task_status (job_id : pystr)
    (from_card : WebElement -> result RawReview) (review_words : list pystr)
    (fuel : nat) (browsers : nat -> start_outcome)
    (choices : nat -> AppBackend.prediction) (s3 : AppBackend.s3_run)
    (s3_prefix reports_folder : pystr) (j0 : AppBackend.job)
    (r : scrape_result) :
  snd (scrape from_card review_words (py "relevance") true fuel browsers
         UNKNOWN_COMPANY) = Some r ->
  exists j,
    AppBackend.run_scraper_task job_id from_card review_words fuel browsers
      choices s3 s3_prefix reports_folder j0 = Some j /\
    if s3_fails s3 then
      AppBackend.status j = py "error" /\ AppBackend.percentage j = 95 /\
      AppBackend.result j = AppBackend.ErrorText
    else
      AppBackend.status j = py "complete" /\ AppBackend.percentage j = 100 /\
      AppBackend.result j
      = AppBackend.Report (res_company_name r)
          (with_predictions choices (res_reviews r)) /\
      List.map fst (with_predictions choices (res_reviews r)) = res_reviews r.
Proof.
  intros Hr. unfold AppBackend.run_scraper_task. cbn zeta. rewrite Hr.
  match goal with
  | |- context [AppBackend.store_report s3 ?key ?j] =>
      destruct (store_report_cases s3 key j)
        as (j' & E & Hst & Hp & Hres & _); rewrite E
  end.
  destruct (s3_fails s3).
  - eexists. split; [reflexivity|]. split; [reflexivity|].
    split; [exact Hp | reflexivity].
  - eexists. split; [reflexivity|]. split; [reflexivity|].
    split; [reflexivity|]. split; [exact Hres|].
    apply with_predictions_reviews.
Qed.

Lemma run_scraper_task_status_witness :
  exists j,
    AppBackend.run_scraper_task sample_job_id sample_from_card REVIEW_WORDS
      7 (fun _ => Started dead_driver) (fun _ => AppBackend.Fake) no_s3
      (py "google-maps-data/") (py "json-reports/") AppBackend.pending_job
    = Some j /\
    AppBackend.status j = py "complete" /\ AppBackend.percentage j = 100 /\
    AppBackend.result j = AppBackend.Report UNKNOWN_COMPANY [].
Proof.
  destruct (run_scraper_task_status sample_job_id sample_from_card
              REVIEW_WORDS 7 (fun _ => Started dead_driver)
              (fun _ => AppBackend.Fake) no_s3 (py "google-maps-data/")
              (py "json-reports/") AppBackend.pending_job
              {| res_company_name := UNKNOWN_COMPANY; res_reviews := [] |})
    as (j & E & H).
  - vm_compute. reflexivity.
  - exists j. split; [exact E|]. cbn [s3_fails no_s3 AppBackend.handler] in H.
    destruct H as (Hs & Hp & Hr & _). auto.
Defined.

(** X23.  The job gets the address and the key of its report exactly
    when the handler is enabled, the local file was written and the
    upload answered a non-empty address; the key is the one made from
    the company name and the job identifier.  This is so even when the
    job then ends as "error" because the local file could not be
    removed. *)
Theorem run_scraper_task_upload (job_id : pystr)
    (from_card : WebElement -> result RawReview) (review_words : list pystr)
    (fuel : nat) (browsers : nat -> start_outcome)
    (choices : nat -> AppBackend.prediction) (s3 : AppBackend.s3_run)
    (s3_prefix reports_folder : pystr) (j0 : AppBackend.job)
    (r : scrape_result) :
  snd (scrape from_card review_words (py "relevance") true fuel browsers
         UNKNOWN_COMPANY) = Some r ->
  AppBackend.s3_url j0 = None -> AppBackend.s3_key j0 = None ->
  exists j,
    AppBackend.run_scraper_task job_id from_card review_words fuel browsers
      choices s3 s3_prefix reports_folder j0 = Some j /\
    (forall url, AppBackend.s3_url j = Some url <-> s3_uploads s3 url) /\
    (forall key,
        AppBackend.s3_key j = Some key <->
        (exists url, s3_uploads s3 url) /\
        key = ReportNames.s3_key s3_prefix reports_folder
                (res_company_name r) job_id).
Proof.
  intros Hr Hu0 Hk0. unfold AppBackend.run_scraper_task. cbn zeta. rewrite Hr.
  match goal with
  | |- context [AppBackend.store_report s3 ?key ?j] =>
      destruct (store_report_cases s3 key j)
        as (j' & E & _ & _ & _ & Hs3); rewrite E
  end.
  cbn [AppBackend.set_result AppBackend.set_progress AppBackend.set_status
       AppBackend.s3_url AppBackend.s3_key] in Hs3.
  destruct (record_events_s3
              (fst (scrape from_card review_words (py "relevance") true fuel
                      browsers UNKNOWN_COMPANY))
              (AppBackend.set_progress 5
                 (AppBackend.TaskMessage (py "Initializing scraper..."))
                 (AppBackend.set_status (py "running") j0))) as [Hu Hk].
  cbn [AppBackend.set_progress AppBackend.set_status AppBackend.s3_url
       AppBackend.s3_key] in Hu, Hk.
  rewrite Hu, Hu0 in Hs3. rewrite Hk, Hk0 in Hs3.
  assert (Hj : forall j,
            AppBackend.s3_url j = AppBackend.s3_url j' ->
            AppBackend.s3_key j = AppBackend.s3_key j' ->
            (forall url, AppBackend.s3_url j = Some url <-> s3_uploads s3 url) /\
            (forall key,
                AppBackend.s3_key j = Some key <->
                (exists url, s3_uploads s3 url) /\
                key = ReportNames.s3_key s3_prefix reports_folder
                        (res_company_name r) job_id)).
  { intros j -> ->.
    destruct Hs3 as [(-> & -> & Hno)|(url & Hup & -> & ->)].
    - split.
      + intros url. split; [discriminate | intros H; destruct (Hno url H)].
      + intros key. split; [discriminate|].
        intros [[url H] _]. destruct (Hno url H).
    - split.
      + intros url'. split.
        * intros [= <-]. exact Hup.
        * intros (_ & _ & H' & _). destruct Hup as (_ & _ & H & _).
          congruence.
      + intros key. split.
        * intros [= <-]. split; [exists url; exact Hup | reflexivity].
        * intros [_ ->]. reflexivity. }
  destruct (s3_fails s3); eexists; (split; [reflexivity|]);
    apply Hj; reflexivity.
Qed.

Lemma run_scraper_task_upload_witness :
  exists j,
    AppBackend.run_scraper_task sample_job_id sample_from_card REVIEW_WORDS
      7 (fun _ => Started sample_driver) (fun _ => AppBackend.Genuine)
      s3_unlink_fails (py "google-maps-data/") (py "json-reports/")
      AppBackend.pending_job = Some j /\
    AppBackend.status j = py "error" /\
    AppBackend.s3_url j = Some (py "https://reports.example/r.json") /\
    AppBackend.s3_key j
    = Some (py "google-maps-data/json-reports/Cafe_3f2b8c1e.json").
Proof.
  destruct (snd (scrape sample_from_card REVIEW_WORDS (py "relevance") true 7
                   (fun _ => Started sample_driver) UNKNOWN_COMPANY))
    as [r|] eqn:Hr; [|vm_compute in Hr; discriminate Hr].
  assert (Hname : res_company_name r = py "Cafe")
    by (vm_compute in Hr; injection Hr as <-; reflexivity).
  destruct (run_scraper_task_upload sample_job_id sample_from_card
              REVIEW_WORDS 7 (fun _ => Started sample_driver)
              (fun _ => AppBackend.Genuine) s3_unlink_fails
              (py "google-maps-data/") (py "json-reports/")
              AppBackend.pending_job r Hr eq_refl eq_refl)
    as (j & E & Hurl & Hkey).
  exists j. split; [exact E|].
  assert (Hup : s3_uploads s3_unlink_fails
                  (py "https://reports.example/r.json"))
    by (repeat split).
  split; [|split].
  - vm_compute in E. injection E as <-. reflexivity.
  - apply Hurl. exact Hup.
  - apply Hkey. split; [eexists; exact Hup|]. rewrite Hname. reflexivity.
Defined.

(** ** What the loop writes to the progress sink *)

Section ProgressWrites.

Variable from_card : WebElement -> result RawReview.
Variable company : pystr.

Lemma seq_join (a b c : nat) :
  (a <= b)%nat -> (b <= c)%nat ->
  seq (S a) (b - a) ++ seq (S b) (c - b) = seq (S a) (c - a).
Proof.
  intros Hab Hbc. replace (c - a)%nat with ((b - a) + (c - b))%nat by lia.
  rewrite seq_app. f_equal. f_equal. lia.
Qed.

Lemma process_card_writes (st : session) (new : Z) (card : WebElement)
    (t : list event) (st' : session) (new' : Z) :
  id_contract from_card -> consistent st ->
  process_card from_card company true st new card
    = (t, Some (Ok (st', new'))) ->
  (length (docs st) <= length (docs st'))%nat /\
  percentages t
  = List.map (fun n => spec_percentage (Z.of_nat n))
      (seq (S (length (docs st))) (length (docs st') - length (docs st))).
Proof.
  intros Hid [_ Hseen] H.
  destruct (process_card_cases from_card company true st new card)
    as [E|[[e E]|(rid & r & Hattr & _ & Hnew & Hparse & E)]]; rewrite E in H.
  - injection H as <- <- _. split; [lia|].
    rewrite Nat.sub_diag. reflexivity.
  - discriminate H.
  - injection H as <- <- _.
    pose proof (Hid card r Hparse) as Hattr'. rewrite Hattr in Hattr'.
    injection Hattr' as ->.
    rewrite Hseen, elem_of_list_to_set in Hnew.
    assert (Hlen : length (docs (inserted company st r))
                   = S (length (docs st)))
      by (cbn [inserted docs]; apply length_dict_set_new, Hnew).
    split; [lia|].
    cbn [percentages flat_map app]. rewrite scroll_percentage_spec.
    cbn [inserted docs] in *. rewrite !Hlen.
    replace (S (length (docs st)) - length (docs st))%nat with 1%nat by lia.
    reflexivity.
Qed.

Lemma process_cards_writes (cards : list WebElement) (st : session)
    (new : Z) (t : list event) (st' : session) (new' : Z) :
  id_contract from_card -> consistent st ->
  process_cards from_card company true cards st new
    = (t, Some (Ok (st', new'))) ->
  (length (docs st) <= length (docs st'))%nat /\
  percentages t
  = List.map (fun n => spec_percentage (Z.of_nat n))
      (seq (S (length (docs st))) (length (docs st') - length (docs st))).
Proof.
  intros Hid. revert st new t.
  induction cards as [|card cards IH]; intros st new t Hc H.
  - injection H as <- <- _. split; [lia|].
    rewrite Nat.sub_diag. reflexivity.
  - cbn [process_cards] in H.
    apply bind_ok in H as (t1 & [st1 new1] & t2 & H1 & H2 & ->).
    cbn [fst snd] in H2.
    pose proof (process_card_consistent from_card company true
                  _ _ _ _ _ _ Hc H1) as Hc1.
    destruct (process_card_writes _ _ _ _ _ _ Hid Hc H1) as [Hle1 Hw1].
    destruct (IH st1 new1 t2 Hc1 H2) as [Hle2 Hw2].
    split; [lia|].
    rewrite percentages_app, Hw1, Hw2, <- List.map_app, seq_join by lia.
    reflexivity.
Qed.

Lemma scroll_loop_writes (fuel : nat) (pane : Pane) (pass : nat)
    (st : session) (idle : Z) (t : list event) (st' : session) (idle' : Z) :
  id_contract from_card -> consistent st ->
  scroll_loop from_card company true fuel pane pass st idle
    = (t, Some (Ok (st', idle'))) ->
  (length (docs st) <= length (docs st'))%nat /\
  percentages t
  = List.map (fun n => spec_percentage (Z.of_nat n))
      (seq (S (length (docs st))) (length (docs st') - length (docs st))).
Proof.
  intros Hid. revert pass st idle t.
  induction fuel as [|fuel IH]; intros pass st idle t Hc H.
  - cbn [scroll_loop] in H. destruct (idle <? 5); [discriminate H|].
    injection H as <- <- _. split; [lia|].
    rewrite Nat.sub_diag. reflexivity.
  - destruct (Z.lt_ge_cases idle 5) as [Hlt|Hge].
    2:{ rewrite scroll_loop_stop in H by exact Hge.
        injection H as <- <- _. split; [lia|].
        rewrite Nat.sub_diag. reflexivity. }
    apply scroll_loop_step in H
      as (cards & t1 & st1 & new1 & t2 & _ & Hcards & _ & H & ->);
      [|exact Hlt].
    destruct (process_cards_ok from_card company true _ _ _ _ _ _ []
                Hcards Hc) as [Hc1 _].
    destruct (process_cards_writes _ _ _ _ _ _ Hid Hc Hcards) as [Hle1 Hw1].
    destruct (IH (S pass) st1 _ t2 Hc1 H) as [Hle2 Hw2].
    split; [lia|].
    rewrite !percentages_app, Hw1, Hw2.
    cbn [percentages flat_map app].
    rewrite <- List.map_app, seq_join by lia. reflexivity.
Qed.

(** C6.  With [n >= 1] reviews found, the percentage computed in binary64
    by the loop is [60 + floor(min(n/150, 1) * 30)]: it lies between 60
    and 90 and is 90 from [n = 150] on.  The loop writes exactly this
    value, with [n] the size of the result map, each time it inserts a
    record, and writes no other percentage: a card with a new identifier
    that can be parsed is inserted and the value is written; a card step
    that returns either did that or changed and wrote nothing; and when
    the records carry the identifier of their card, the percentages of a
    whole run are the values for 1, 2, ..., up to the number of reviews
    found, in that order. *)
Theorem scroll_progress_formula :
  (forall n, 1 <= n ->
     progress_percentage n = Ok (spec_percentage n) /\
     60 <= spec_percentage n <= 90 /\
     (150 <= n -> progress_percentage n = Ok 90)) /\
  (forall st new card rid r,
     el_get_attribute card DATA_REVIEW_ID = Ok (Some rid) ->
     truthy rid = true -> rid ∉ seen st -> from_card card = Ok r ->
     (1 <= length (docs (inserted company st r)))%nat /\
     process_card from_card company true st new card
     = ([EvPercentage
           (spec_percentage
              (Z.of_nat (length (docs (inserted company st r)))));
         EvMessage (MsgScraping (length (docs (inserted company st r))))],
        Some (Ok (inserted company st r, new + 1)))) /\
  (forall st new card t st' new',
     process_card from_card company true st new card
       = (t, Some (Ok (st', new'))) ->
     (t = [] /\ st' = st /\ new' = new) \/
     (exists r,
         from_card card = Ok r /\ st' = inserted company st r /\
         new' = new + 1 /\ (1 <= length (docs st'))%nat /\
         percentages t = [spec_percentage (Z.of_nat (length (docs st')))])) /\
  (forall fuel pane t st,
     id_contract from_card ->
     _scroll_and_extract_reviews from_card company true fuel pane
       = (t, Some (Ok st)) ->
     percentages t
     = List.map (fun n => spec_percentage (Z.of_nat n))
         (seq 1 (length (docs st)))).
Proof.
  split; [|split; [|split]].
  - intros n Hn.
    rewrite progress_percentage_exact by lia.
    rewrite spec_percentage_closed_form.
    split; [reflexivity|]. split.
    + assert (0 <= n / 5) by (apply Z.div_pos; lia). lia.
    + intros H150. assert (30 <= n / 5) by (apply Z.div_le_lower_bound; lia).
      rewrite Z.min_r by lia. reflexivity.
  - intros st new card rid r Hattr Htruthy Hnew Hparse.
    split; [apply length_dict_set_pos|].
    unfold process_card. rewrite Hattr. cbn [skip_card].
    rewrite Htruthy, bool_decide_eq_false_2 by exact Hnew. cbn [negb orb].
    rewrite Hparse, progress_percentage_exact by lia.
    rewrite <- scroll_percentage_spec. reflexivity.
  - intros st new card t st' new' H.
    destruct (process_card_cases from_card company true st new card)
      as [E|[[e E]|(rid & r & _ & _ & _ & Hparse & E)]]; rewrite E in H.
    + injection H as <- <- <-. left. auto.
    + discriminate H.
    + injection H as <- <- <-. right. exists r.
      split; [exact Hparse|]. split; [reflexivity|]. split; [reflexivity|].
      split; [apply length_dict_set_pos|].
      cbn [percentages flat_map app]. rewrite scroll_percentage_spec.
      reflexivity.
  - intros fuel pane t st Hid H. unfold _scroll_and_extract_reviews in H.
    apply bind_ok in H as (t1 & [st1 idle1] & t2 & Hloop & Hret & ->).
    injection Hret as <- <-. rewrite app_nil_r.
    assert (Hc : consistent empty_session)
      by (split; [constructor | reflexivity]).
    destruct (scroll_loop_writes fuel pane 0 empty_session 0 t1 st1 idle1
                Hid Hc Hloop) as [_ Hw].
    cbn [empty_session docs length] in Hw. rewrite Nat.sub_0_r in Hw.
    exact Hw.
Qed.

End ProgressWrites.

Lemma scroll_progress_formula_witness :
  progress_percentage 7 = Ok 61 /\ spec_percentage 7 = 61 /\
  progress_percentage 149 = Ok 89 /\
  progress_percentage 1000 = Ok 90 /\
  process_card sample_from_card (py "Cafe") true (session_of_size 6) 0
    (sample_card (py "A") (py "a"))
  = ([EvPercentage 61; EvMessage (MsgScraping 7)],
     Some (Ok (inserted (py "Cafe") (session_of_size 6)
                 {| id := py "A"; company_name := []; author_name := [];
                    text := py "a"; rating := 0; published_at := [] |},
               1))) /\
  percentages
    (fst (process_card sample_from_card (py "Cafe") true
            (session_of_size 149) 0 (sample_card (py "A") (py "a"))))
  = [90] /\
  percentages
    (fst (_scroll_and_extract_reviews sample_from_card (py "Cafe") true 7
            sample_pane))
  = [60; 60; 60; 60].
Proof.
  destruct (scroll_progress_formula sample_from_card (py "Cafe"))
    as (H & Hins & _ & Hrun).
  destruct (H 7 ltac:(lia)) as (H7 & _ & _).
  destruct (H 149 ltac:(lia)) as (H149 & _ & _).
  destruct (H 1000 ltac:(lia)) as (_ & _ & H1000).
  assert (Hnew : forall n, py "A" ∉ seen (session_of_size n)).
  { intros n. unfold session_of_size. cbn [seen].
    rewrite elem_of_list_to_set, List.map_map, list_elem_of_In, in_map_iff.
    cbn [fst]. intros (i & Hi & _). vm_compute py in Hi.
    injection Hi as Hi. lia. }
  split; [rewrite H7; reflexivity|]. split; [reflexivity|].
  split; [rewrite H149; reflexivity|].
  split; [apply H1000; lia|].
  split; [|split].
  - destruct (Hins (session_of_size 6) 0 (sample_card (py "A") (py "a"))
                (py "A")
                {| id := py "A"; company_name := []; author_name := [];
                   text := py "a"; rating := 0; published_at := [] |}
                eq_refl eq_refl (Hnew 6%nat) eq_refl) as [_ E].
    rewrite E. reflexivity.
  - destruct (Hins (session_of_size 149) 0 (sample_card (py "A") (py "a"))
                (py "A")
                {| id := py "A"; company_name := []; author_name := [];
                   text := py "a"; rating := 0; published_at := [] |}
                eq_refl eq_refl (Hnew 149%nat) eq_refl) as [_ E].
    rewrite E. vm_compute. reflexivity.
  - destruct (_scroll_and_extract_reviews sample_from_card (py "Cafe") true 7
                sample_pane) as [t [[st|e]|]] eqn:E;
      try (vm_compute in E; discriminate E).
    cbn [fst]. rewrite (Hrun 7%nat sample_pane t st sample_id_contract E).
    assert (Hlen : length (docs st) = 4%nat)
      by (vm_compute in E; injection E as _ <-; reflexivity).
    rewrite Hlen. vm_compute. reflexivity.
Defined.
